(** * remna-admin-bot: the API client layer and the inbound resolver

    A shallow embedding of [modules/config.py], [modules/api/client.py],
    [modules/api/client_httpx.py], [modules/api/inbounds.py] and the polling
    loop of [main.py], with the properties of the specification stated over
    it.

    Conventions.
    - A JSON value of the backend is a [json]; a Python [dict] is an
      association list in insertion order, read by its first binding of a key.
    - JSON numbers are integers ([Z]); fractional numbers are outside the model.
    - Strings are byte strings. White space, letter case and digits are those
      of ASCII: [strip], [upper], [lower] and [int] are Python's on ASCII
      text, and text with other characters is outside what they model. Where
      the normalization of the base URL strips its value, [str.strip] on
      such text is a parameter.
    - A Python exception caught by [except Exception] is the [Raise] outcome of
      [res]; in the request engine, where the handler depends on the class of
      the exception, exceptions are values of [exn]. *)

From Stdlib Require Import ZArith List String Ascii Bool Lia DecimalString.
Import ListNotations.

Set Warnings "-register-all".

Open Scope string_scope.
Open Scope Z_scope.

(* ================================================================== *)
(** * Python values and built-ins *)
(* ================================================================== *)

Module Py.

Inductive json : Type :=
| JNull
| JBool (b : bool)
| JNum (z : Z)
| JStr (s : string)
| JList (l : list json)
| JObj (kv : list (string * json)).

(** Outcome of an operation that may raise. *)
Inductive res (A : Type) : Type :=
| Ok (a : A)
| Raise.
Arguments Ok {A} a.
Arguments Raise {A}.

Definition bind {A B} (m : res A) (f : A -> res B) : res B :=
  match m with Ok a => f a | Raise => Raise end.

Notation "x <- m ;; k" := (bind m (fun x => k))
  (at level 61, m at next level, right associativity).

(** [try: m except Exception: d] *)
Definition catch {A} (m : res A) (d : A) : A :=
  match m with Ok a => a | Raise => d end.

(** ** dict access *)

Fixpoint assoc (k : string) (kv : list (string * json)) : option json :=
  match kv with
  | [] => None
  | (k', v) :: r => if String.eqb k k' then Some v else assoc k r
  end.

Definition is_dict (v : json) : bool :=
  match v with JObj _ => true | _ => false end.

Definition is_list (v : json) : bool :=
  match v with JList _ => true | _ => false end.

(** [k in d], for a dict [d] *)
Definition has_key (k : string) (kv : list (string * json)) : bool :=
  match assoc k kv with Some _ => true | None => false end.

(** [d.get(k, dflt)] on a dict *)
Definition dict_get (kv : list (string * json)) (k : string) (dflt : json) : json :=
  match assoc k kv with Some v => v | None => dflt end.

(** [o.get(k, dflt)]: AttributeError unless [o] is a dict. *)
Definition get_or (o : json) (k : string) (dflt : json) : res json :=
  match o with
  | JObj kv => Ok (dict_get kv k dflt)
  | _ => Raise
  end.

(** [o.get(k)] *)
Definition get (o : json) (k : string) : res json := get_or o k JNull.

(** ** truth value, [or] *)

Definition truthy (v : json) : bool :=
  match v with
  | JNull => false
  | JBool b => b
  | JNum z => negb (z =? 0)
  | JStr s => negb (String.eqb s "")
  | JList l => match l with [] => false | _ => true end
  | JObj kv => match kv with [] => false | _ => true end
  end.

(** [a or b] *)
Definition por (a b : json) : json := if truthy a then a else b.

(** ** characters *)

(** The white space [str.strip] removes, and the letters [str.upper] and
    [str.lower] map, among the ASCII characters. *)
Definition is_space (c : ascii) : bool :=
  let n := nat_of_ascii c in
  (((9 <=? n) && (n <=? 13)) || ((28 <=? n) && (n <=? 32)))%nat.

Definition upper_char (c : ascii) : ascii :=
  let n := nat_of_ascii c in
  if ((97 <=? n) && (n <=? 122))%nat then ascii_of_nat (n - 32) else c.

Definition lower_char (c : ascii) : ascii :=
  let n := nat_of_ascii c in
  if ((65 <=? n) && (n <=? 90))%nat then ascii_of_nat (n + 32) else c.

Fixpoint smap (f : ascii -> ascii) (s : string) : string :=
  match s with
  | EmptyString => EmptyString
  | String c r => String (f c) (smap f r)
  end.

(** [s.upper()] and [s.lower()], on ASCII text *)
Definition upper : string -> string := smap upper_char.
Definition lower : string -> string := smap lower_char.

(** [s.lstrip()] / [s.lstrip(chars)] with [p] the set of stripped characters *)
Fixpoint lstrip_by (p : ascii -> bool) (s : string) : string :=
  match s with
  | EmptyString => EmptyString
  | String c r => if p c then lstrip_by p r else s
  end.

Fixpoint rstrip_by (p : ascii -> bool) (s : string) : string :=
  match s with
  | EmptyString => EmptyString
  | String c r =>
      match rstrip_by p r with
      | EmptyString => if p c then EmptyString else String c EmptyString
      | r' => String c r'
      end
  end.

(** [s.strip()], on ASCII text *)
Definition strip (s : string) : string := rstrip_by is_space (lstrip_by is_space s).

(** [s.isascii()] *)
Fixpoint isascii (s : string) : bool :=
  match s with
  | EmptyString => true
  | String c r => (nat_of_ascii c <? 128)%nat && isascii r
  end.

(** [s.strip()] on any text, with [other] for [str.strip] on the texts that
    are not ASCII, whose white space is not listed here. *)
Definition strip_or (other : string -> string) (s : string) : string :=
  if isascii s then strip s else other s.

Definition is_char (c : ascii) : ascii -> bool := Ascii.eqb c.

(** ** [repr] and [str] *)

Fixpoint contains_char (c : ascii) (s : string) : bool :=
  match s with
  | EmptyString => false
  | String d r => Ascii.eqb c d || contains_char c r
  end.

Definition hex_digit (n : nat) : ascii :=
  if (n <? 10)%nat then ascii_of_nat (48 + n) else ascii_of_nat (87 + n).

Definition backslash : ascii := ascii_of_nat 92.
Definition squote : ascii := ascii_of_nat 39.
Definition dquote : ascii := ascii_of_nat 34.

Definition repr_char (q c : ascii) : string :=
  let n := nat_of_ascii c in
  if Ascii.eqb c backslash || Ascii.eqb c q then String backslash (String c EmptyString)
  else if (n =? 9)%nat then String backslash "t"
  else if (n =? 10)%nat then String backslash "n"
  else if (n =? 13)%nat then String backslash "r"
  else if ((n <? 32) || (n =? 127))%nat
       then String backslash (String "x" (String (hex_digit (n / 16)) (String (hex_digit (n mod 16)) EmptyString)))
  else String c EmptyString.

Fixpoint repr_chars (q : ascii) (s : string) : string :=
  match s with
  | EmptyString => EmptyString
  | String c r => repr_char q c ++ repr_chars q r
  end.

(** [repr] of a [str]: single quotes, unless the text has a single quote and
    no double quote. *)
Definition repr_str (s : string) : string :=
  let q := if contains_char squote s && negb (contains_char dquote s) then dquote else squote in
  String q (repr_chars q s ++ String q EmptyString).

Definition dec (z : Z) : string := NilZero.string_of_int (Z.to_int z).

Fixpoint repr (v : json) : string :=
  match v with
  | JNull => "None"
  | JBool true => "True"
  | JBool false => "False"
  | JNum z => dec z
  | JStr s => repr_str s
  | JList l =>
      "[" ++ (fix items (l : list json) : string :=
                match l with
                | [] => ""
                | x :: r => match r with
                            | [] => repr x
                            | _ => repr x ++ ", " ++ items r
                            end
                end) l ++ "]"
  | JObj kv =>
      "{" ++ (fix items (l : list (string * json)) : string :=
                match l with
                | [] => ""
                | (k, x) :: r => match r with
                                 | [] => repr_str k ++ ": " ++ repr x
                                 | _ => repr_str k ++ ": " ++ repr x ++ ", " ++ items r
                                 end
                end) kv ++ "}"
  end.

(** [str(v)] *)
Definition str (v : json) : string :=
  match v with JStr s => s | _ => repr v end.

(** ** [int] *)

(** [int(s)] is modelled on ASCII text, where it reads an optional sign and
    decimal digits between white space. The white space it skips is that of
    C's [isspace], which has none of the separators 28-31 that [str.strip]
    removes, and a literal of more than 4300 digits is refused. *)

Definition is_cspace (c : ascii) : bool :=
  let n := nat_of_ascii c in
  (((9 <=? n) && (n <=? 13)) || (n =? 32))%nat.

Definition digit_val (c : ascii) : option Z :=
  let n := nat_of_ascii c in
  if ((48 <=? n) && (n <=? 57))%nat then Some (Z.of_nat (n - 48)) else None.

(** Digits of a decimal literal: underscores are allowed one at a time between
    two digits. [prev] tells whether the previous character was a digit. *)
Fixpoint digits (s : string) (acc : Z) (prev : bool) : option Z :=
  match s with
  | EmptyString => if prev then Some acc else None
  | String c r =>
      match digit_val c with
      | Some d => digits r (10 * acc + d) true
      | None => if Ascii.eqb c "_" && prev
                then match r with
                     | EmptyString => None
                     | String c' _ => match digit_val c' with
                                      | Some _ => digits r acc false
                                      | None => None
                                      end
                     end
                else None
      end
  end.

(** The number of digits of a literal, its underscores left out. *)
Fixpoint count_digits (s : string) : Z :=
  match s with
  | EmptyString => 0
  | String c r => (match digit_val c with Some _ => 1 | None => 0 end) + count_digits r
  end.

(** [sys.get_int_max_str_digits()], at its default. *)
Definition max_str_digits : Z := 4300.

Definition int_of_string (s : string) : option Z :=
  let t := rstrip_by is_cspace (lstrip_by is_cspace s) in
  let '(negative, body) :=
    match t with
    | String "-" r => (true, r)
    | String "+" r => (false, r)
    | _ => (false, t)
    end in
  match digits body 0 false with
  | Some z =>
      if max_str_digits <? count_digits body then None
      else Some (if negative then - z else z)
  | None => None
  end.

(** [int(v)]: ValueError or TypeError is [Raise]. *)
Definition int (v : json) : res Z :=
  match v with
  | JNum z => Ok z
  | JBool b => Ok (if b then 1 else 0)
  | JStr s => match int_of_string s with Some z => Ok z | None => Raise end
  | _ => Raise
  end.

(** ** iteration *)

Fixpoint chars (s : string) : list json :=
  match s with
  | EmptyString => []
  | String c r => JStr (String c EmptyString) :: chars r
  end.

(** The elements a [for] loop (or a generator expression) visits: the items
    of a list, the keys of a dict, the characters of a string; TypeError
    otherwise. *)
Definition iter (v : json) : res (list json) :=
  match v with
  | JList l => Ok l
  | JObj kv => Ok (map (fun p => JStr (fst p)) kv)
  | JStr s => Ok (chars s)
  | _ => Raise
  end.

(** [len(v)] is defined on the same values. *)
Definition has_len (v : json) : bool :=
  match v with JList _ | JObj _ | JStr _ => true | _ => false end.

(** [any(f(x) for x in l)]: stops at the first true, raises at the first
    raise. *)
Fixpoint any (f : json -> res bool) (l : list json) : res bool :=
  match l with
  | [] => Ok false
  | x :: r => b <- f x ;; if b then Ok true else any f r
  end.

(** ** hashable values: the elements of a [set] *)

Definition hashable (v : json) : bool :=
  match v with JList _ | JObj _ => false | _ => true end.

(** [a == b] on hashable values ([True == 1], [False == 0]). *)
Definition eq_scalar (a b : json) : bool :=
  match a, b with
  | JNull, JNull => true
  | JStr s, JStr t => String.eqb s t
  | JBool x, JBool y => Bool.eqb x y
  | JNum x, JNum y => x =? y
  | JBool x, JNum y | JNum y, JBool x => (if x then 1 else 0) =? y
  | _, _ => false
  end.

(** [v in s] for a set [s] kept as the list of its elements in insertion
    order: TypeError when [v] is not hashable. *)
Definition set_mem (v : json) (s : list json) : res bool :=
  if hashable v then Ok (existsb (eq_scalar v) s) else Raise.

(** [s.add(v)] *)
Definition set_add (v : json) (s : list json) : res (list json) :=
  b <- set_mem v s ;; Ok (if b then s else (s ++ [v])%list).

End Py.

(* ================================================================== *)
(** * urllib.parse: [urlparse] and [urlunparse] *)
(* ================================================================== *)

(** The two standard-library functions [_normalize_api_base_url] calls, as
    CPython 3.11 defines them. Two of their checks rest on other modules and
    are parameters of [urlparse]: the reading of a bracketed host by
    [ipaddress] and [re], and the NFKC normal form of a host that is not
    ASCII. *)
Module Urllib.
Import Py.

Record ParseResult : Type := mkParse {
  scheme : string;
  netloc : string;
  path : string;
  params : string;
  query : string;
  fragment : string
}.

Definition is_alpha (c : ascii) : bool :=
  let n := nat_of_ascii c in
  (((65 <=? n) && (n <=? 90)) || ((97 <=? n) && (n <=? 122)))%nat.

Definition is_digit (c : ascii) : bool :=
  let n := nat_of_ascii c in ((48 <=? n) && (n <=? 57))%nat.

Definition scheme_char (c : ascii) : bool :=
  is_alpha c || is_digit c || Ascii.eqb c "+" || Ascii.eqb c "-" || Ascii.eqb c ".".

Fixpoint forallb_str (p : ascii -> bool) (s : string) : bool :=
  match s with
  | EmptyString => true
  | String c r => p c && forallb_str p r
  end.

(** [s.split(c, 1)] when [c] occurs in [s]: the text before the first [c] and
    the text after it. *)
Fixpoint cut (c : ascii) (s : string) : option (string * string) :=
  match s with
  | EmptyString => None
  | String d r =>
      if Ascii.eqb c d then Some (EmptyString, r)
      else match cut c r with
           | Some (a, b) => Some (String d a, b)
           | None => None
           end
  end.

(** The text before the first character of [p], and the text from it on. *)
Fixpoint break (p : ascii -> bool) (s : string) : string * string :=
  match s with
  | EmptyString => (EmptyString, EmptyString)
  | String d r =>
      if p d then (EmptyString, s)
      else let '(a, b) := break p r in (String d a, b)
  end.

(** [s.split(c)] *)
Fixpoint split (c : ascii) (s : string) : list string :=
  match s with
  | EmptyString => [EmptyString]
  | String d r =>
      if Ascii.eqb c d then EmptyString :: split c r
      else match split c r with
           | h :: t => String d h :: t
           | [] => [String d EmptyString]
           end
  end.

(** Leading characters [urlsplit] strips: C0 controls and the space. *)
Definition c0_or_space (c : ascii) : bool := (nat_of_ascii c <=? 32)%nat.

(** Characters [urlsplit] removes wherever they are: tab, CR, LF. *)
Definition unsafe_byte (c : ascii) : bool :=
  let n := nat_of_ascii c in ((n =? 9) || (n =? 10) || (n =? 13))%nat.

Fixpoint remove_chars (p : ascii -> bool) (s : string) : string :=
  match s with
  | EmptyString => EmptyString
  | String c r => if p c then remove_chars p r else String c (remove_chars p r)
  end.

Definition uses_netloc : list string :=
  [""; "ftp"; "http"; "gopher"; "nntp"; "telnet"; "imap"; "wais"; "file"; "mms";
   "https"; "shttp"; "snews"; "prospero"; "rtsp"; "rtspu"; "rsync"; "svn";
   "svn+ssh"; "sftp"; "nfs"; "git"; "git+ssh"; "ws"; "wss"].

Definition uses_params : list string :=
  [""; "ftp"; "hdl"; "prospero"; "http"; "imap"; "https"; "shttp"; "rtsp";
   "rtspu"; "sip"; "sips"; "mms"; "sftp"; "tel"].

Definition mem (s : string) (l : list string) : bool := existsb (String.eqb s) l.

Definition starts_with_2slash (s : string) : bool :=
  match s with String "/" (String "/" _) => true | _ => false end.

Definition netloc_delim (c : ascii) : bool :=
  Ascii.eqb c "/" || Ascii.eqb c "?" || Ascii.eqb c "#".

(** The text before the last [/], and the text from it on (the whole text
    when it has no [/]). *)
Fixpoint last_segment (s : string) : string * string :=
  match s with
  | EmptyString => (EmptyString, EmptyString)
  | String c r =>
      let '(a, b) := last_segment r in
      if contains_char "/" r then (String c a, b) else (EmptyString, s)
  end.

(** [_splitparams]: the parameters follow the first [;] found from the last
    [/] on. *)
Definition splitparams (url : string) : string * string :=
  let '(dir, seg) := last_segment url in
  match cut ";" seg with
  | Some (a, b) => (dir ++ a, b)
  | None => (url, EmptyString)
  end.

Definition nonempty (s : string) : bool := negb (String.eqb s "").

(** [s.rpartition(c)[2]]: the text after the last [c], the whole text when
    it has none. *)
Fixpoint after_last (c : ascii) (s : string) : string :=
  match s with
  | EmptyString => EmptyString
  | String d r =>
      if contains_char c r then after_last c r
      else if Ascii.eqb c d then r else s
  end.

(** [s.partition(c)], without the separator: the text before the first [c]
    and the text after it; [(s, "")] when there is none. *)
Definition partition (c : ascii) (s : string) : string * string :=
  match cut c s with
  | Some p => p
  | None => (s, EmptyString)
  end.

(** [s.startswith(c)] *)
Definition starts_with (c : ascii) (s : string) : bool :=
  match s with
  | String d _ => Ascii.eqb c d
  | EmptyString => false
  end.

Section Parse.

(** [_check_bracketed_host]: [true] when it returns, [false] when it raises
    ValueError (a host that is neither an IPv6 nor an IPvFuture literal). *)
Variable _check_bracketed_host : string -> bool.

(** The part of [_checknetloc] that works on the NFKC normal form of a host
    that is not ASCII: [true] when it returns, [false] when it raises
    ValueError. *)
Variable nfkc_safe : string -> bool.

(** [_check_bracketed_netloc]: [true] when it returns. *)
Definition _check_bracketed_netloc (netloc : string) : bool :=
  let hostname_and_port := after_last "@" netloc in
  match cut "[" hostname_and_port with
  | Some (before_bracket, bracketed) =>
      if nonempty before_bracket then false
      else
        let '(hostname, port) := partition "]" bracketed in
        if nonempty port && negb (starts_with ":" port) then false
        else _check_bracketed_host hostname
  | None => _check_bracketed_host (fst (partition ":" hostname_and_port))
  end.

(** [_checknetloc]: [true] when it returns. *)
Definition _checknetloc (netloc : string) : bool :=
  if String.eqb netloc "" || isascii netloc then true else nfkc_safe netloc.

(** [urlparse]; ValueError is [Raise]. *)
Definition urlparse (url0 : string) : res ParseResult :=
  let url := remove_chars unsafe_byte (lstrip_by c0_or_space url0) in
  let '(sch, url) :=
    match cut ":" url with
    | Some (String c r as pre, rest) =>
        if is_alpha c && forallb_str scheme_char pre then (lower pre, rest) else (EmptyString, url)
    | _ => (EmptyString, url)
    end in
  let '(nl, url) :=
    match url with
    | String "/" (String "/" r) => break netloc_delim r
    | _ => (EmptyString, url)
    end in
  if xorb (contains_char "[" nl) (contains_char "]" nl) then Raise
  else if contains_char "[" nl && contains_char "]" nl && negb (_check_bracketed_netloc nl)
  then Raise
  else
    let '(url, frag) := match cut "#" url with Some p => p | None => (url, EmptyString) end in
    let '(url, q) := match cut "?" url with Some p => p | None => (url, EmptyString) end in
    if negb (_checknetloc nl) then Raise
    else
      let '(url, prm) :=
        if mem sch uses_params && contains_char ";" url then splitparams url
        else (url, EmptyString) in
      Ok (mkParse sch nl url prm q frag).

End Parse.

(** [parsed._replace(path=path)] *)
Definition replace_path (parsed : ParseResult) (path : string) : ParseResult :=
  mkParse (scheme parsed) (netloc parsed) path
          (params parsed) (query parsed) (fragment parsed).

Definition urlunparse (p : ParseResult) : string :=
  let url := if nonempty (params p) then path p ++ ";" ++ params p else path p in
  let url :=
    if nonempty (netloc p)
       || (nonempty (scheme p) && mem (scheme p) uses_netloc && negb (starts_with_2slash url))
    then
      let url := match url with
                 | String c _ => if Ascii.eqb c "/" then url else "/" ++ url
                 | EmptyString => url
                 end in
      "//" ++ netloc p ++ url
    else url in
  let url := if nonempty (scheme p) then scheme p ++ ":" ++ url else url in
  let url := if nonempty (query p) then url ++ "?" ++ query p else url in
  if nonempty (fragment p) then url ++ "#" ++ fragment p else url.

End Urllib.

(* ================================================================== *)
(** * modules/config.py *)
(* ================================================================== *)

Module Config.
Import Py Urllib.

Section BaseUrl.

(** [str.strip] on the texts that are not ASCII, and the two checks of
    [urlparse] that rest on other modules. *)
Variable unicode_strip : string -> string.
Variable _check_bracketed_host : string -> bool.
Variable nfkc_safe : string -> bool.

(** [_normalize_api_base_url]; a ValueError of [urlparse] is [Raise]. *)
Definition _normalize_api_base_url (value : string) : res string :=
  let raw := strip_or unicode_strip value in
  if String.eqb raw "" then Ok "http://remnawave:3000/api"
  else
    parsed <- urlparse _check_bracketed_host nfkc_safe raw ;;
    let path := rstrip_by (is_char "/") (Urllib.path parsed) in
    let path :=
      if String.eqb path "" then "/api"
      else
        let path_parts := filter nonempty (split "/" path) in
        if mem "api" path_parts then path else path ++ "/api" in
    Ok (urlunparse (replace_path parsed path)).

End BaseUrl.

(** ** Cookies *)

(** A [dict] from strings to strings, in insertion order. *)
Definition sdict : Type := list (string * string).

(** [d[k] = v]: the value of a key that is there is replaced where it stands. *)
Fixpoint sdict_set (k v : string) (d : sdict) : sdict :=
  match d with
  | [] => [(k, v)]
  | (k', v') :: r =>
      if String.eqb k k' then (k', v) :: r else (k', v') :: sdict_set k v r
  end.

(** [s.partition("=")], without the separator: the text before the first
    [=] and the text after it; [(s, "")] when there is none. *)
Definition partition_eq (s : string) : string * string :=
  match cut "=" s with
  | Some p => p
  | None => (s, EmptyString)
  end.

(** The body of the loop of [_parse_cookie_header] *)
Definition add_cookie_part (result : sdict) (part : string) : sdict :=
  let '(name, raw_value) := partition_eq (strip part) in
  if nonempty name && nonempty raw_value then sdict_set name raw_value result else result.

(** [_parse_cookie_header] *)
Definition _parse_cookie_header (value : string) : sdict :=
  fold_left add_cookie_part (split ";" value) [].

(** The dict comprehension of line 33, over the items of the parsed object.
    A key of a JSON object is a string, so [str(name)] is [name]. *)
Definition add_cookie_item (d : sdict) (item : string * json) : sdict :=
  let '(name, value) := item in
  match value with
  | JNull => d
  | _ => if nonempty name then sdict_set name (str value) d else d
  end.

(** The body of the loop of lines 36-42 *)
Definition add_cookie_entry (cookies : sdict) (item : json) : sdict :=
  match item with
  | JObj kv =>
      let name := dict_get kv "name" JNull in
      let value := dict_get kv "value" JNull in
      match value with
      | JNull => cookies
      | _ => if truthy name then sdict_set (str name) (str value) cookies else cookies
      end
  | _ => cookies
  end.

Section Cookies.

(** [json.loads]; JSONDecodeError is [Raise]. *)
Variable json_loads : string -> res json.

(** [_load_api_cookies]. An empty [cookies] of the list form falls through
    to the final [return {}]. *)
Definition _load_api_cookies (raw_value : string) : sdict :=
  if String.eqb raw_value "" then []
  else
    match json_loads raw_value with
    | Raise => _parse_cookie_header raw_value
    | Ok (JObj kv) => fold_left add_cookie_item kv []
    | Ok (JList items) => fold_left add_cookie_entry items []
    | Ok _ => []
    end.

End Cookies.

(** ** User roles *)

(** [[f(x) for x in l]] for an [f] that may raise *)
Fixpoint map_res {A B : Type} (f : A -> res B) (l : list A) : res (list B) :=
  match l with
  | [] => Ok []
  | x :: r => y <- f x ;; ys <- map_res f r ;; Ok (y :: ys)
  end.

(** Lines 82-89 and 96-103: the ids of a comma-separated list; a ValueError
    of [int] leaves the list empty. *)
Definition parse_user_ids (ids_str : string) : list Z :=
  if String.eqb ids_str "" then []
  else
    catch (map_res (fun id => int (JStr (strip id)))
                   (filter (fun id => nonempty (strip id)) (split "," ids_str)))
          [].

(** A [dict] from user ids to roles, in insertion order. *)
Definition roles : Type := list (Z * string).

Fixpoint role_of (id : Z) (r : roles) : option string :=
  match r with
  | [] => None
  | (id', role) :: rest => if id =? id' then Some role else role_of id rest
  end.

Fixpoint roles_set (id : Z) (role : string) (r : roles) : roles :=
  match r with
  | [] => [(id, role)]
  | (id', role') :: rest =>
      if id =? id' then (id', role) :: rest else (id', role') :: roles_set id role rest
  end.

(** [id in roles] *)
Definition has_role (id : Z) (r : roles) : bool :=
  match role_of id r with Some _ => true | None => false end.

(** [_build_user_roles] *)
Definition _build_user_roles (admin_ids operator_ids : list Z) : roles :=
  let roles := fold_left (fun r admin_id => roles_set admin_id "admin" r) admin_ids [] in
  fold_left (fun r operator_id =>
               if has_role operator_id r then r else roles_set operator_id "operator" r)
            operator_ids roles.

(** [AUTHORIZED_USER_IDS = list(USER_ROLES.keys())] *)
Definition authorized_user_ids (r : roles) : list Z := map fst r.

End Config.

(* ================================================================== *)
(** * modules/api/client.py *)
(* ================================================================== *)

Module Client.
Import Py.

(** ** Envelope unwrap *)

(** [RemnaAPI._unwrap_response_payload]. Python's [None] is [JNull];
    [payload.get("success") is False] holds of the boolean [false] only. *)
Definition _unwrap_response_payload (payload : json) : json :=
  match payload with
  | JObj kv =>
      if has_key "response" kv then dict_get kv "response" JNull
      else if has_key "data" kv then dict_get kv "data" JNull
      else if (match dict_get kv "success" JNull with JBool false => true | _ => false end)
              && has_key "error" kv
      then JNull
      else payload
  | _ => payload
  end.

(** ** Exceptions *)

(** The classes of httpx's exception hierarchy that derive from [Exception];
    [OtherError] stands for any other class deriving from [Exception]
    (ValueError of a JSON body that does not parse, AttributeError, ...).
    [HTTPStatusError] is the constructor [StatusError] of [exn] below, since
    it carries a response. *)
Inductive cls : Type :=
| Exception
| HTTPError
| RequestError
| TransportError
| TimeoutException
| ConnectTimeout
| ReadTimeout
| WriteTimeout
| PoolTimeout
| NetworkError
| ConnectError
| ReadError
| WriteError
| CloseError
| ProtocolError
| LocalProtocolError
| RemoteProtocolError
| ProxyError
| UnsupportedProtocol
| DecodingError
| TooManyRedirects
| OtherError.

Definition cls_eq_dec (c d : cls) : {c = d} + {c <> d}.
Proof. decide equality. Defined.

Definition cls_eqb (c d : cls) : bool := if cls_eq_dec c d then true else false.

(** The base class of a class. *)
Definition base (c : cls) : option cls :=
  match c with
  | Exception => None
  | HTTPError => Some Exception
  | RequestError => Some HTTPError
  | TransportError => Some RequestError
  | TimeoutException => Some TransportError
  | ConnectTimeout | ReadTimeout | WriteTimeout | PoolTimeout => Some TimeoutException
  | NetworkError => Some TransportError
  | ConnectError | ReadError | WriteError | CloseError => Some NetworkError
  | ProtocolError => Some TransportError
  | LocalProtocolError | RemoteProtocolError => Some ProtocolError
  | ProxyError | UnsupportedProtocol => Some TransportError
  | DecodingError | TooManyRedirects => Some RequestError
  | OtherError => Some Exception
  end.

Fixpoint issubclass_upto (fuel : nat) (c d : cls) : bool :=
  cls_eqb c d ||
  match fuel with
  | O => false
  | S k => match base c with
           | Some b => issubclass_upto k b d
           | None => false
           end
  end.

(** The hierarchy is six classes deep. *)
Definition issubclass : cls -> cls -> bool := issubclass_upto 6.

(** A raised exception: of a class, or an [HTTPStatusError] with the status
    of its response. *)
Inductive exn : Type :=
| Err (c : cls)
| StatusError (status : Z).

(** What an [except] clause names. *)
Inductive clause : Type :=
| OfClass (c : cls)
| OfStatusError.

Definition isinstance (e : exn) (k : clause) : bool :=
  match e, k with
  | Err c, OfClass d => issubclass c d
  | Err _, OfStatusError => false
  | StatusError _, OfClass d => issubclass HTTPError d
  | StatusError _, OfStatusError => true
  end.

(** The [except] clauses of [_make_request], in the order of the source. *)
Definition handlers : list clause :=
  [ OfClass ConnectError;
    OfClass TimeoutException;
    OfStatusError;
    OfClass RemoteProtocolError;
    OfClass ConnectTimeout;
    OfClass ReadTimeout;
    OfClass Exception ].

(** The clause that handles [e]: the first one [e] is an instance of. *)
Definition dispatch (e : exn) : option clause := find (isinstance e) handlers.

(** ** Responses and the network *)

Record response : Type := mkResponse {
  status_code : Z;
  content_type : string;   (** the header, [""] when absent *)
  text : string;
  json_body : res json     (** [response.json()] *)
}.

(** What happens when the request of an attempt is sent: the client raises,
    or a response comes back. Anything raised in the [try] body before the
    response is read is a [Throws]. *)
Inductive reply : Type :=
| Throws (e : exn)
| Responds (r : response).

Record env : Type := mkEnv {
  API_PREFLIGHT : bool;
  preflight_reply : reply;     (** the GET of [_test_connection] *)
  send : Z -> reply            (** the request of attempt [a] *)
}.

(** [RemnaAPI._test_connection] *)
Definition _test_connection (E : env) : bool :=
  match preflight_reply E with
  | Responds r => status_code r =? 200
  | Throws _ => false
  end.

(** What a run does, in order. *)
Inductive event : Type :=
| Preflight (ok : bool)
| Request (attempt : Z) (r : reply)
| Sleep (seconds : Z).

(** How the body of one iteration of the loop ends. *)
Inductive ctl : Type :=
| Return (v : json)
| Continue
| Propagate (e : exn).

(** How the call ends. *)
Inductive outcome : Type :=
| Returned (v : json)
| Raised (e : exn).

(** [response.raise_for_status()] of httpx: raises unless the status is 2xx. *)
Definition raises_for_status (s : Z) : bool := negb ((200 <=? s) && (s <=? 299)).

Fixpoint is_prefix (p s : string) : bool :=
  match p, s with
  | EmptyString, _ => true
  | String a p', String b s' => Ascii.eqb a b && is_prefix p' s'
  | _, EmptyString => false
  end.

(** [p in s] *)
Fixpoint is_infix (p s : string) : bool :=
  is_prefix p s || match s with
                   | EmptyString => false
                   | String _ s' => is_infix p s'
                   end.

Section MakeRequest.

Variable E : env.
Variable retry_count : Z.

(** The [try] body from the request on (lines 101-142): either it ends the
    iteration, or it raises. *)
Definition request_body (attempt : Z) : list event * (ctl + exn) :=
  let rp := send E attempt in
  match rp with
  | Throws e => ([Request attempt rp], inr e)
  | Responds r =>
      if (status_code r >=? 500) && (attempt <? retry_count - 1)
      then ([Request attempt rp; Sleep (2 ^ attempt)], inl Continue)
      else if raises_for_status (status_code r)
      then ([Request attempt rp], inr (StatusError (status_code r)))
      else if (status_code r =? 204) || (status_code r =? 205)
      then ([Request attempt rp], inl (Return JNull))
      else if negb (is_infix "application/json" (lower (content_type r)))
      then ([Request attempt rp], inl (Return JNull))
      else if String.eqb (strip (text r)) ""
      then ([Request attempt rp], inl (Return JNull))
      else match json_body r with
           | Ok j => ([Request attempt rp], inl (Return (_unwrap_response_payload j)))
           | Raise => ([Request attempt rp], inr (Err OtherError))
           end
  end.

(** The whole [try] body: the preflight check of the first attempt, then the
    request. *)
Definition try_body (attempt : Z) : list event * (ctl + exn) :=
  if API_PREFLIGHT E && (attempt =? 0) then
    if negb (_test_connection E) then
      if retry_count <=? 1 then ([Preflight false], inl (Return JNull))
      else ([Preflight false; Sleep 2], inl Continue)
    else
      let '(ev, r) := request_body attempt in (Preflight true :: ev, r)
  else request_body attempt.

(** A handler that sleeps [wait_time] and lets the loop go on while attempts
    remain, and returns [None] on the last one. *)
Definition retry_or_none (attempt wait_time : Z) : list event * ctl :=
  if attempt <? retry_count - 1 then ([Sleep wait_time], Continue)
  else ([], Return JNull).

(** The body of the [except] clause [k], for the exception [e]. *)
Definition handle (k : clause) (e : exn) (attempt : Z) : list event * ctl :=
  match k with
  | OfClass ConnectError => retry_or_none attempt (2 ^ attempt)
  | OfClass TimeoutException => retry_or_none attempt (Z.min (2 ^ attempt) 10)
  | OfStatusError =>
      match e with
      | StatusError status =>
          if status =? 404 then ([], Return JNull)
          else if (status >=? 500) && (attempt <? retry_count - 1)
          then ([Sleep (2 ^ attempt)], Continue)
          else ([], Return JNull)
      | Err _ => ([], Propagate e)
      end
  | OfClass RemoteProtocolError
  | OfClass ConnectTimeout
  | OfClass ReadTimeout
  | OfClass Exception => retry_or_none attempt (2 ^ attempt)
  | OfClass _ => ([], Propagate e)   (* no such clause in the source *)
  end.

(** One iteration of [for attempt in range(retry_count)]. *)
Definition iteration (attempt : Z) : list event * ctl :=
  match try_body attempt with
  | (ev, inl c) => (ev, c)
  | (ev, inr e) =>
      match dispatch e with
      | Some k => let '(ev', c) := handle k e attempt in ((ev ++ ev')%list, c)
      | None => (ev, Propagate e)
      end
  end.

(** The iterations [attempt], [attempt + 1], ..., [fuel] of them, and the
    [return None] after the loop. *)
Fixpoint loop (fuel : nat) (attempt : Z) : list event * outcome :=
  match fuel with
  | O => ([], Returned JNull)
  | S k =>
      match iteration attempt with
      | (ev, Return v) => (ev, Returned v)
      | (ev, Propagate e) => (ev, Raised e)
      | (ev, Continue) =>
          let '(ev', o) := loop k (attempt + 1) in ((ev ++ ev')%list, o)
      end
  end.

(** [RemnaAPI._make_request]: [range(retry_count)] is empty when
    [retry_count <= 0]. The method, the endpoint, the body and the query only
    shape the request that is sent; they are part of [E]. *)
Definition _make_request : list event * outcome :=
  loop (Z.to_nat retry_count) 0.

End MakeRequest.

End Client.

(* ================================================================== *)
(** * modules/api/client_httpx.py *)
(* ================================================================== *)

Module ClientHttpx.
Import Py Client.

(** The [except] clauses of [RemnaAPIHttpx._make_request], in the order of
    the source. *)
Definition handlers : list clause :=
  [ OfClass ConnectError;
    OfClass TimeoutException;
    OfStatusError;
    OfClass Exception ].

(** The [try] body: one request, no retry. *)
Definition try_body (rp : reply) : json + exn :=
  match rp with
  | Throws e => inr e
  | Responds r =>
      if raises_for_status (status_code r) then inr (StatusError (status_code r))
      else if is_prefix "application/json" (content_type r)
      then match json_body r with
           | Ok j => inl (_unwrap_response_payload j)
           | Raise => inr (Err OtherError)
           end
      else inl JNull
  end.

(** [RemnaAPIHttpx._make_request]: every clause returns [None]. *)
Definition _make_request (rp : reply) : outcome :=
  match try_body rp with
  | inl v => Returned v
  | inr e =>
      match find (isinstance e) handlers with
      | Some _ => Returned JNull
      | None => Raised e
      end
  end.

End ClientHttpx.

(* ================================================================== *)
(** * main.py *)
(* ================================================================== *)

Module Main.
Import Py.

(** Line 100: [[int(id) for id in ids.split(",") if id]], outside any
    [try]: a ValueError leaves [main]. *)
Definition admin_user_ids (ids_str : string) : res (list Z) :=
  Config.map_res (fun id => int (JStr id))
                 (filter (fun id => negb (String.eqb id "")) (Urllib.split "," ids_str)).

(** ** The polling loop (lines 141-180) *)

Definition max_retries : Z := 10.

Inductive poll_event : Type :=
| Poll (retry_count : Z)       (** [application.run_polling] is called *)
| Wait (seconds : Z).          (** [time.sleep] *)

Inductive poll_end : Type :=
| Stopped                      (** [run_polling] returned: [break] *)
| Exhausted                    (** the condition of the [while] failed *)
| Reraised                     (** the last exception is raised again *)
| OutOfFuel.

Section Polling.

(** Whether the call of [run_polling] made with the counter at
    [retry_count] returns ([true]) or raises an [Exception] ([false]). *)
Variable run_polling : Z -> bool.

Fixpoint polling_loop (fuel : nat) (retry_count : Z) : list poll_event * poll_end :=
  match fuel with
  | O => ([], OutOfFuel)
  | S k =>
      if retry_count <? max_retries then
        if run_polling retry_count then ([Poll retry_count], Stopped)
        else
          let retry_count' := retry_count + 1 in
          if retry_count' >=? max_retries then ([Poll retry_count], Reraised)
          else
            let wait_time := Z.min (30 * retry_count') 300 in
            let '(ev, e) := polling_loop k retry_count' in
            (Poll retry_count :: Wait wait_time :: ev, e)
      else ([], Exhausted)
  end.

End Polling.

End Main.

(* ================================================================== *)
(** * modules/api/inbounds.py *)
(* ================================================================== *)

Module Inbounds.
Import Py.

(** What the backend answers to the calls of the resolver. [api_get] is
    [RemnaAPI.get]; the other four are the resource clients
    [ConfigProfileAPI.get_profiles], [ConfigProfileAPI.get_profile_inbounds],
    [UserAPI.get_all_users] and [ConfigProfileAPI.get_profile_users], whose
    modules the resolver imports. The backend is read-only, so each call is a
    function of its argument. *)
Record backend : Type := mkBackend {
  api_get : string -> res json;
  get_profiles : res json;
  get_profile_inbounds : json -> res json;
  get_all_users : res json;
  get_profile_users : json -> res json
}.

(** [InboundAPI._is_active_status] *)
Definition _is_active_status (value : json) : bool :=
  match value with
  | JNull => false
  | JBool b => b
  | _ =>
      let text := upper (strip (str value)) in
      existsb (String.eqb text) ["ACTIVE"; "ENABLED"; "TRUE"; "ON"]
  end.

(** [InboundAPI.get_inbounds] *)
Definition get_inbounds (B : backend) : res json :=
  result <- api_get B "config-profiles/inbounds" ;;
  match result with
  | JObj kv => if has_key "inbounds" kv then Ok (dict_get kv "inbounds" JNull) else Ok result
  | _ => Ok result
  end.

Definition is_none (v : json) : bool :=
  match v with JNull => true | _ => false end.

(** [v == s] for a string [s] *)
Definition eq_str (v : json) (s : string) : bool :=
  match v with JStr t => String.eqb t s | _ => false end.

Section Resolver.

Variable B : backend.
Variable inbound_uuid : string.

(** [next((i for i in l if str(i.get('uuid')) == str(inbound_uuid)), None)] *)
Fixpoint find_target (l : list json) : res json :=
  match l with
  | [] => Ok JNull
  | i :: r =>
      u <- get i "uuid" ;;
      if String.eqb (str u) inbound_uuid then Ok i else find_target r
  end.

(** Lines 47-52: the target record, [None] when it is absent or anything
    raised. *)
Definition resolve_target : json :=
  catch (all_inbounds <- get_inbounds B ;;
         l <- iter (por all_inbounds (JList [])) ;;
         find_target l)
        JNull.

(** [a.get('port') if a.get('port') is not None else a.get('listenPort')] *)
Definition port_of (kv : list (string * json)) : json :=
  if negb (is_none (dict_get kv "port" JNull)) then dict_get kv "port" JNull
  else dict_get kv "listenPort" JNull.

(** The [try] block of lines 67-75 *)
Definition fallback_match (rkv tkv : list (string * json)) : res bool :=
  let tag_ok :=
    truthy (dict_get rkv "tag" JNull) && truthy (dict_get tkv "tag" JNull)
    && String.eqb (str (dict_get rkv "tag" JNull)) (str (dict_get tkv "tag" JNull)) in
  let ref_port := port_of rkv in
  let tgt_port := port_of tkv in
  port_ok <- (if negb (is_none ref_port) && negb (is_none tgt_port)
              then a <- int ref_port ;; b <- int tgt_port ;; Ok (a =? b)
              else Ok false) ;;
  let type_ok :=
    truthy (dict_get rkv "type" JNull) && truthy (dict_get tkv "type" JNull)
    && String.eqb (str (dict_get rkv "type" JNull)) (str (dict_get tkv "type" JNull)) in
  Ok (tag_ok && port_ok && type_ok).

(** [matches_inbound_ref] *)
Definition matches_inbound_ref (ref tgt : json) : bool :=
  match ref with
  | JNull => false
  | JStr s => String.eqb s inbound_uuid
  | JObj rkv =>
      if String.eqb (str (dict_get rkv "uuid" JNull)) inbound_uuid then true
      else match tgt with
           | JObj tkv => if truthy tgt then catch (fallback_match rkv tkv) false else false
           | _ => false
           end
  | _ => false
  end.

(** ** The profile index (lines 80-94) *)

(** The body of the inner [try]: the set after the profile [profile_uuid]. *)
Definition index_profile (profile_uuid : json) (acc : list json) : res (list json) :=
  profile_inbounds <- get_profile_inbounds B profile_uuid ;;
  l <- iter (por profile_inbounds (JList [])) ;;
  hit <- any (fun ib => u <- get ib "uuid" ;; Ok (eq_str u inbound_uuid)) l ;;
  if hit then set_add profile_uuid acc else Ok acc.

(** The loop over the profiles; an exception outside the inner [try] ends
    the enumeration with the set built so far. *)
Fixpoint index_profiles (profiles : list json) (acc : list json) : list json :=
  match profiles with
  | [] => acc
  | profile :: r =>
      match (u <- get profile "uuid" ;; i <- get profile "id" ;; Ok (por u i)) with
      | Raise => acc
      | Ok profile_uuid =>
          if negb (truthy profile_uuid) then index_profiles r acc
          else index_profiles r (catch (index_profile profile_uuid acc) acc)
      end
  end.

(** The set is kept in insertion order; Python iterates a set in an order of
    its own, which only the last fallback below depends on. *)
Definition profile_uuids_for_inbound : list json :=
  match (profiles <- get_profiles B ;; iter (por profiles (JList []))) with
  | Ok l => index_profiles l []
  | Raise => []
  end.

(** ** The direct scan (lines 122-190) *)

(** Lines 127-136: the singular and the plural subscriptions, in one list. *)
Definition subscription_items_of (subscription subscriptions : json) : list json :=
  ((if truthy subscription && is_dict subscription then [subscription] else [])
   ++ match subscriptions with
      | JList l => filter is_dict l
      | _ => []
      end)%list.

(** Lines 140-146: does the subscription item bind the inbound directly? *)
Definition sub_has_inbound (target sub : json) : res bool :=
  _ <- get sub "status" ;;
  i <- get sub "inbounds" ;;
  match por i (JList []) with
  | JList sub_inbounds => Ok (existsb (fun si => matches_inbound_ref si target) sub_inbounds)
  | _ => Ok false
  end.

(** Lines 161-164 and 169-172. A conditional expression binds weaker than
    [or]: the expression reads
    [(d.get('configProfileUuid') or (d.get('configProfile', {}) or {}).get('uuid'))
     if isinstance(d.get('configProfile'), dict) else d.get('configProfile')]. *)
Definition profile_uuid_of (kv : list (string * json)) : json :=
  match dict_get kv "configProfile" JNull with
  | JObj cp => por (dict_get kv "configProfileUuid" JNull) (dict_get cp "uuid" JNull)
  | other => other
  end.

(** Lines 158-166: [cur] is the value of [config_profile_uuid] so far. *)
Fixpoint scan_profile_uuid (subs : list json) (cur : json) : json :=
  match subs with
  | [] => cur
  | JObj kv :: r =>
      let u := profile_uuid_of kv in
      if truthy u then u else scan_profile_uuid r u
  | _ :: r => scan_profile_uuid r cur
  end.

(** The body of the loop of line 122 for one user; [Raise] is an exception
    that leaves the loop (and the function, through its outer handler). *)
Definition scan_user (target : json) (profiles : list json)
    (user : json) (inbound_users : list json) : res (list json) :=
  status <- get user "status" ;;
  if negb (_is_active_status status) then Ok inbound_users
  else
    subscription <- get user "subscription" ;;
    subs <- get user "subscriptions" ;;
    let subscriptions := if is_list subs then subs else JNull in
    let items := subscription_items_of subscription subscriptions in
    let direct := existsb (fun sub => catch (sub_has_inbound target sub) false) items in
    let inbound_users := if direct then (inbound_users ++ [user])%list else inbound_users in
    let subscription_items := if direct then [] else items in
    let candidates :=
      match subscription_items with
      | [] => [por subscription (JObj [])]
      | _ => subscription_items
      end in
    let config_profile_uuid := scan_profile_uuid candidates JNull in
    let config_profile_uuid :=
      if negb (truthy config_profile_uuid)
      then match user with JObj kv => profile_uuid_of kv | _ => JNull end
      else config_profile_uuid in
    if negb (truthy config_profile_uuid) then Ok inbound_users
    else
      fast <- match profiles with
              | [] => Ok false
              | _ => set_mem config_profile_uuid profiles
              end ;;
      if fast then Ok (inbound_users ++ [user])%list
      else
        Ok (catch
              (profile_inbounds <- get_profile_inbounds B (JStr (str config_profile_uuid)) ;;
               l <- iter (por profile_inbounds (JList [])) ;;
               Ok (if existsb (fun pi => matches_inbound_ref pi target) l
                   then (inbound_users ++ [user])%list else inbound_users))
              inbound_users).

Fixpoint scan_users (target : json) (profiles : list json)
    (users : list json) (inbound_users : list json) : res (list json) :=
  match users with
  | [] => Ok inbound_users
  | user :: r =>
      acc <- scan_user target profiles user inbound_users ;;
      scan_users target profiles r acc
  end.

(** ** Fallback: the legacy fields of a user (lines 199-219) *)

(** [if refs: for x in refs: if matches_inbound_ref(x, target): ...; break] *)
Definition some_ref_matches (target refs : json) : res bool :=
  if truthy refs
  then l <- iter refs ;; Ok (existsb (fun x => matches_inbound_ref x target) l)
  else Ok false.

Definition legacy_user (target user : json) (inbound_users : list json) : res (list json) :=
  status <- get user "status" ;;
  if _is_active_status status then
    user_inbounds <- get_or user "inbounds" (JList []) ;;
    b1 <- some_ref_matches target user_inbounds ;;
    let inbound_users := if b1 then (inbound_users ++ [user])%list else inbound_users in
    active_inbounds <- get_or user "activeInbounds" (JList []) ;;
    b2 <- some_ref_matches target active_inbounds ;;
    Ok (if b2 then (inbound_users ++ [user])%list else inbound_users)
  else Ok inbound_users.

Fixpoint legacy_users (target : json) (users : list json) (inbound_users : list json)
    : res (list json) :=
  match users with
  | [] => Ok inbound_users
  | user :: r =>
      acc <- legacy_user target user inbound_users ;;
      legacy_users target r acc
  end.

(** ** Fallback: the tag heuristic (lines 222-233) *)

Definition nonempty (s : string) : bool := negb (String.eqb s "").

(** The loop runs inside a [try] of its own: what was appended before an
    exception stays. *)
Fixpoint tag_users (t_tag : string) (users : list json) (inbound_users : list json)
    : list json :=
  match users with
  | [] => inbound_users
  | user :: r =>
      match get user "status", get user "tag" with
      | Ok status, Ok tag =>
          if negb (_is_active_status status) then tag_users t_tag r inbound_users
          else
            let u_tag := lower (strip (str (por tag (JStr "")))) in
            if nonempty u_tag && String.eqb u_tag t_tag
            then tag_users t_tag r (inbound_users ++ [user])%list
            else tag_users t_tag r inbound_users
      | _, _ => inbound_users
      end
  end.

(** ** Fallback: the users of the profiles (lines 236-253) *)

(** The state is the result list and the set [seen]. *)
Fixpoint add_profile_users (p_users : list json) (st : list json * list string)
    : list json * list string :=
  match p_users with
  | [] => st
  | JObj kv :: r =>
      let u_uuid := str (dict_get kv "uuid" JNull) in
      if nonempty u_uuid && negb (existsb (String.eqb u_uuid) (snd st))
      then add_profile_users r ((fst st ++ [JObj kv])%list, (snd st ++ [u_uuid])%list)
      else add_profile_users r st
  | _ :: r => add_profile_users r st
  end.

Fixpoint profile_users_fallback (profiles : list json) (st : list json * list string)
    : list json * list string :=
  match profiles with
  | [] => st
  | p_uuid :: r =>
      profile_users_fallback r
        match (p_users <- get_profile_users B p_uuid ;; iter (por p_users (JList []))) with
        | Ok l => add_profile_users l st
        | Raise => st
        end
  end.

(** ** [InboundAPI.get_inbound_users] *)

(** The body of the outer [try]. The diagnostics of lines 256-280 only log. *)
Definition get_inbound_users_body : res (list json) :=
  let target := resolve_target in
  let profiles := profile_uuids_for_inbound in
  users_response <- get_all_users B ;;
  if negb (truthy users_response) then Ok []
  else
    let users :=
      match users_response with
      | JObj kv => if has_key "users" kv then dict_get kv "users" JNull else JList []
      | JList _ => users_response
      | _ => JList []
      end in
    if negb (truthy users) then Ok []
    else if negb (has_len users) then Raise
    else
      l <- iter users ;;
      inbound_users <- scan_users target profiles l [] ;;
      inbound_users <- match inbound_users with
                       | [] => legacy_users target l []
                       | _ => Ok inbound_users
                       end ;;
      let inbound_users :=
        match inbound_users, target with
        | [], JObj tkv =>
            if truthy (dict_get tkv "tag" JNull)
            then tag_users (lower (strip (str (dict_get tkv "tag" JNull)))) l []
            else inbound_users
        | _, _ => inbound_users
        end in
      let inbound_users :=
        match inbound_users, profiles with
        | [], _ :: _ => fst (profile_users_fallback profiles ([], []))
        | _, _ => inbound_users
        end in
      Ok inbound_users.

Definition get_inbound_users : list json := catch get_inbound_users_body [].

End Resolver.

(** ** Counts and statistics *)

(** [InboundAPI.get_inbound_users_count] *)
Definition get_inbound_users_count (B : backend) (inbound_uuid : string) : Z :=
  Z.of_nat (List.length (get_inbound_users B inbound_uuid)).

(** [sum(1 for user in users if InboundAPI._is_active_status(user.get('status')))] *)
Fixpoint count_enabled (users : list json) : res Z :=
  match users with
  | [] => Ok 0
  | user :: r =>
      status <- get user "status" ;;
      n <- count_enabled r ;;
      Ok ((if _is_active_status status then 1 else 0) + n)
  end.

Record stats : Type := mkStats {
  enabled : Z;
  disabled : Z;
  total : Z
}.

(** [InboundAPI.get_inbound_users_stats] *)
Definition get_inbound_users_stats (B : backend) (inbound_uuid : string) : stats :=
  let users := get_inbound_users B inbound_uuid in
  match users with
  | [] => mkStats 0 0 0
  | _ =>
      catch (enabled <- count_enabled users ;;
             Ok (mkStats enabled (Z.of_nat (List.length users) - enabled)
                         (Z.of_nat (List.length users))))
            (mkStats 0 0 0)
  end.

(** ** The online count *)

(** A [datetime]: the wall-clock reading in microseconds since the epoch,
    and the offset from UTC, in microseconds, of an aware value. *)
Record datetime : Type := mkDatetime {
  wall : Z;
  tzinfo : option Z
}.

(** The instant of an aware value, in microseconds of UTC. *)
Definition utc_instant (d : datetime) : Z :=
  wall d - match tzinfo d with Some off => off | None => 0 end.

Fixpoint ends_with_Z (s : string) : bool :=
  match s with
  | EmptyString => false
  | String c EmptyString => Ascii.eqb c "Z"
  | String _ r => ends_with_Z r
  end.

(** [text[:-1]] *)
Fixpoint drop_last (s : string) : string :=
  match s with
  | EmptyString => EmptyString
  | String _ EmptyString => EmptyString
  | String c r => String c (drop_last r)
  end.

Section Online.

(** [datetime.fromisoformat] of the standard library; ValueError is [Raise]. *)
Variable fromisoformat : string -> res datetime.

(** [InboundAPI._parse_dt] *)
Definition _parse_dt (value : json) : option datetime :=
  if negb (truthy value) then None
  else
    let text := str value in
    let text := if ends_with_Z text then drop_last text ++ "+00:00" else text in
    match fromisoformat text with
    | Ok d => Some d
    | Raise => None
    end.

(** [timedelta(minutes=m)] exists when its days, [m // 1440], are within
    999999999 of zero; OverflowError otherwise. *)
Definition timedelta_minutes (m : Z) : res Z :=
  if (-999999999 <=? m / 1440) && (m / 1440 <=? 999999999)
  then Ok (m * 60 * 1000000)
  else Raise.

(** [InboundAPI._is_recent]; [now] is the reading of
    [datetime.now(timezone.utc)], in microseconds. A [datetime] is never
    false, so [not ts] holds of [None] only. *)
Definition _is_recent (now : Z) (ts : option datetime) (minutes : Z) : bool :=
  match ts with
  | None => false
  | Some ts =>
      let ts := match tzinfo ts with
                | None => mkDatetime (wall ts) (Some 0)
                | Some _ => ts
                end in
      catch (d <- timedelta_minutes minutes ;; Ok (now - utc_instant ts <=? d)) false
  end.

(** The loop of lines 337-345; [clock k] is the reading of the clock while
    the user at position [k] is examined. *)
Fixpoint count_online (clock : nat -> Z) (k : nat) (users : list json) (online_count : Z)
    : res Z :=
  match users with
  | [] => Ok online_count
  | user :: r =>
      status <- get user "status" ;;
      if negb (_is_active_status status) then count_online clock (S k) r online_count
      else
        online_at <- get user "onlineAt" ;;
        if _is_recent (clock k) (_parse_dt online_at) 5
        then count_online clock (S k) r (online_count + 1)
        else count_online clock (S k) r online_count
  end.

(** [InboundAPI.get_inbound_online_count]; the argument [inbound] is only
    read by the handler's log line. *)
Definition get_inbound_online_count (B : backend) (clock : nat -> Z) : Z :=
  catch
    (all_resp <- get_all_users B ;;
     let all_users :=
       match all_resp with
       | JObj kv => if has_key "users" kv then por (dict_get kv "users" JNull) (JList [])
                    else JList []
       | JList _ => all_resp
       | _ => JList []
       end in
     if negb (truthy all_users) then Ok 0
     else
       l <- iter all_users ;;
       n <- count_online clock 0 l 0 ;;
       if has_len all_users then Ok n else Raise)
    0.

End Online.

End Inbounds.

(* ================================================================== *)
(** * Scenarios *)
(* ================================================================== *)

(** Concrete backends and networks, used by the examples below. *)
Module Scenario.
Import Py Client Inbounds.

(** ** The resolver scenario of the specification *)

Definition I1 : json :=
  JObj [("uuid", JStr "I1"); ("tag", JStr "vless-in"); ("type", JStr "vless"); ("port", JNum 443)].
Definition I2 : json :=
  JObj [("uuid", JStr "I2"); ("tag", JStr "trojan-in"); ("type", JStr "trojan"); ("port", JNum 8443)].

Definition P1 : json := JObj [("uuid", JStr "P1"); ("name", JStr "first")].
Definition P2 : json := JObj [("uuid", JStr "P2"); ("name", JStr "second")].

Definition U1 : json :=
  JObj [("uuid", JStr "U1"); ("username", JStr "u1"); ("status", JStr "ACTIVE");
        ("configProfileUuid", JStr "P1")].
Definition U2 : json :=
  JObj [("uuid", JStr "U2"); ("username", JStr "u2"); ("status", JStr "ACTIVE");
        ("subscription", JObj [("inbounds", JList [JObj [("uuid", JStr "I1")]])])].
Definition U3 : json :=
  JObj [("uuid", JStr "U3"); ("username", JStr "u3"); ("status", JStr "DISABLED");
        ("configProfileUuid", JStr "P1")].

(** U1, with its profile given as a nested object instead. *)
Definition U1_nested : json :=
  JObj [("uuid", JStr "U1"); ("username", JStr "u1"); ("status", JStr "ACTIVE");
        ("configProfile", JObj [("uuid", JStr "P1")])].

Definition backend_with (users : list json) : backend :=
  mkBackend
    (fun _ => Ok (JObj [("total", JNum 2); ("inbounds", JList [I1; I2])]))
    (Ok (JList [P1; P2]))
    (fun p => if eq_str p "P1" then Ok (JList [I1])
              else if eq_str p "P2" then Ok (JList [I2])
              else Ok JNull)
    (Ok (JList users))
    (fun p => if eq_str p "P1" then Ok (JList (firstn 1 users ++ skipn 2 users))
              else Ok (JList [])).

Definition resolver_backend : backend := backend_with [U1; U2; U3].

(** ** Inbound references *)

(** A reference that carries another UUID than the target, and the target's
    tag, port and type. *)
Definition stale_ref : json :=
  JObj [("uuid", JStr "I9"); ("tag", JStr "vless-in"); ("type", JStr "vless");
        ("listenPort", JNum 443)].

(** ** Networks *)

Definition ok_response : response :=
  mkResponse 200 "application/json; charset=utf-8" "{}"
             (Ok (JObj [("response", JObj [("total", JNum 0)])])).

Definition server_error : response := mkResponse 503 "text/html" "unavailable" Raise.

Definition not_found : response := mkResponse 404 "application/json" "{}" (Ok (JObj [])).

(** No preflight check; every request is answered 503. *)
Definition always_503 : env :=
  mkEnv false (Responds server_error) (fun _ => Responds server_error).

(** No preflight check; the request of every attempt fails with [e]. *)
Definition always_fails (e : cls) : env :=
  mkEnv false (Responds ok_response) (fun _ => Throws (Err e)).

(** The preflight check is on and fails; the requests would succeed. *)
Definition preflight_down : env :=
  mkEnv true (Throws (Err ConnectError)) (fun _ => Responds ok_response).

(** The preflight check is on and fails; every request is answered 503. *)
Definition preflight_down_503 : env :=
  mkEnv true (Throws (Err ConnectError)) (fun _ => Responds server_error).

(** One 503, then a 404. *)
Definition error_then_404 : env :=
  mkEnv false (Responds ok_response)
        (fun a => if a =? 0 then Responds server_error else Responds not_found).

(** ** The online count *)

(** [datetime.fromisoformat] on the one text of the example:
    2030-01-01 00:00:00 UTC is 1893456000 seconds after the epoch. *)
Definition fromisoformat_2030 (s : string) : res datetime :=
  if String.eqb s "2030-01-01T00:00:00+00:00"
  then Ok (mkDatetime 1893456000000000 (Some 0))
  else Raise.

Definition user_from_2030 : list (string * json) :=
  [("uuid", JStr "U1"); ("status", JStr "ACTIVE"); ("onlineAt", JStr "2030-01-01T00:00:00Z")].

(** 2026-01-01 00:00:00 UTC, in microseconds. *)
Definition clock_2026 (_ : nat) : Z := 1767225600000000.

End Scenario.

(* ================================================================== *)
(** * Vocabulary of the statements *)
(* ================================================================== *)

Module Vocabulary.
Import Py Client Inbounds.

(** ** Cookie headers *)

(** A character of a cookie name or value: ASCII, not white space, not [;],
    not [=]. *)
Definition cookie_char (c : ascii) : bool :=
  (nat_of_ascii c <? 128)%nat
  && negb (is_space c) && negb (Ascii.eqb c ";") && negb (Ascii.eqb c "=").

(** A cookie name or value: not empty, made of such characters. *)
Definition cookie_token (s : string) : bool :=
  negb (String.eqb s "") && Urllib.forallb_str cookie_char s.

Definition cookie_pair (p : string * string) : Prop :=
  cookie_token (fst p) = true /\ cookie_token (snd p) = true.

(** The [Cookie:] header of a list of cookies: [name=value; name2=value2]. *)
Fixpoint cookie_header (d : Config.sdict) : string :=
  match d with
  | [] => ""
  | (n, v) :: r =>
      match r with
      | [] => n ++ "=" ++ v
      | _ => n ++ "=" ++ v ++ "; " ++ cookie_header r
      end
  end.

(** ** URLs *)

(** ASCII text without square brackets. *)
Definition plain_url_text : string -> bool :=
  Urllib.forallb_str (fun c => (nat_of_ascii c <? 128)%nat
                               && negb (Ascii.eqb "[" c) && negb (Ascii.eqb "]" c)).

(** The path has the segment [seg] between two of its slashes, or at one of
    its ends. *)
Definition has_segment (seg path : string) : Prop := In seg (Urllib.split "/" path).

(** The parts of the default URL, [http://remnawave:3000/api]. *)
Definition default_parts : Urllib.ParseResult :=
  Urllib.mkParse "http" "remnawave:3000" "/api" "" "" "".

(** ** References and targets *)

(** A port the matching can read as a number without leaving ASCII: any
    value but a string with other characters, whose digits [int] would
    look up in the Unicode tables. *)
Definition ascii_port (v : json) : bool :=
  match v with
  | JStr s => isascii s
  | _ => true
  end.

(** A scalar that [str] prints as the model does: null, a boolean, a string,
    or an integer of at most 4300 digits (more are refused). The text of an
    array or of an object is its [repr], which is left out. *)
Definition plain_scalar (v : json) : bool :=
  match v with
  | JList _ | JObj _ => false
  | JNum z => Z.abs z <? 10 ^ 4300
  | _ => true
  end.

(** A reference or a target of plain fields: its [uuid], [tag] and [type]
    are plain scalars and its port is a number or ASCII text. A value that
    is not an object has no fields. *)
Definition plain_fields (v : json) : bool :=
  match v with
  | JObj kv =>
      plain_scalar (dict_get kv "uuid" JNull)
      && plain_scalar (dict_get kv "tag" JNull)
      && plain_scalar (dict_get kv "type" JNull)
      && ascii_port (port_of kv)
  | _ => true
  end.

(** The reference and the target agree on the field [f]: both carry it, with
    the same text. *)
Definition agree_on (f : string) (rkv tkv : list (string * json)) : Prop :=
  truthy (dict_get rkv f JNull) = true
  /\ truthy (dict_get tkv f JNull) = true
  /\ str (dict_get rkv f JNull) = str (dict_get tkv f JNull).

(** The reference and the target carry the same port number, each under
    [port] or, failing that, under [listenPort]. *)
Definition same_port (rkv tkv : list (string * json)) : Prop :=
  exists p, port_of rkv <> JNull /\ port_of tkv <> JNull
            /\ int (port_of rkv) = Ok p /\ int (port_of tkv) = Ok p.

(** ** Timestamps *)

(** The instant [_is_recent] compares with the clock: a value without a
    time zone is read as UTC. *)
Definition instant_of (ts : datetime) : Z :=
  match tzinfo ts with
  | Some off => wall ts - off
  | None => wall ts
  end.

(** ** Runs of the request engine *)

(** The preflight check keeps attempt [a] from sending its request. *)
Definition preflight_blocks (E : env) (a : Z) : bool :=
  API_PREFLIGHT E && (a =? 0) && negb (_test_connection E).

Definition is_preflight (e : event) : bool :=
  match e with Preflight _ => true | _ => false end.

(** The requests and the sleeps of a run. *)
Definition main_events (tr : list event) : list event :=
  filter (fun e => negb (is_preflight e)) tr.

(** The requests and the sleeps of [k] attempts from [a] on, each answered
    by a server error: after attempt [a] the engine sleeps [2 ^ a] seconds,
    unless [a] is the last attempt of the budget [n]. *)
Fixpoint server_error_trace (E : env) (n : Z) (k : nat) (a : Z) : list event :=
  match k with
  | O => []
  | S k' =>
      (Request a (send E a) :: (if a <? n - 1 then [Sleep (2 ^ a)] else [])
       ++ server_error_trace E n k' (a + 1))%list
  end.

Definition server_error (rp : reply) : Prop :=
  exists r, rp = Responds r /\ 500 <= status_code r.

(** ** Users *)

(** The texts of an active status. *)
Definition active_words : list string := ["ACTIVE"; "ENABLED"; "TRUE"; "ON"].

(** An object whose [status] is active. *)
Definition active_user (u : json) : Prop :=
  exists kv, u = JObj kv /\ _is_active_status (dict_get kv "status" JNull) = true.

(** An object that the profile-users endpoint lists for a profile of the
    index. *)
Definition from_profile_users (B : backend) (inbound_uuid : string) (u : json) : Prop :=
  is_dict u = true
  /\ exists p p_users l,
       In p (profile_uuids_for_inbound B inbound_uuid)
       /\ get_profile_users B p = Ok p_users
       /\ iter (por p_users (JList [])) = Ok l
       /\ In u l.

(** ** Events *)

Definition is_request (e : event) : bool :=
  match e with Request _ _ => true | _ => false end.

Definition is_sleep (e : event) : bool :=
  match e with Sleep _ => true | _ => false end.

(** A response the engine takes its result from: a success status other
    than 204 and 205, a JSON content type, a body that is not blank and
    parses to [j]. *)
Definition usable (r : response) (j : json) : Prop :=
  raises_for_status (status_code r) = false
  /\ (status_code r =? 204) || (status_code r =? 205) = false
  /\ is_infix "application/json" (lower (content_type r)) = true
  /\ String.eqb (strip (text r)) "" = false
  /\ json_body r = Ok j.

(** A response the alternative client takes its result from: a success
    status, a content type that starts with [application/json], a body that
    parses to [j]. *)
Definition json_success (r : response) (j : json) : Prop :=
  raises_for_status (status_code r) = false
  /\ is_prefix "application/json" (content_type r) = true
  /\ json_body r = Ok j.

(** A response of success status that carries nothing to return. *)
Definition empty_success (r : response) : Prop :=
  raises_for_status (status_code r) = false
  /\ ((status_code r =? 204) || (status_code r =? 205) = true
      \/ is_infix "application/json" (lower (content_type r)) = false
      \/ String.eqb (strip (text r)) "" = true).

(** A response that ends the call with [None] whenever it is received. *)
Definition final_null (r : response) : Prop :=
  forall E n a,
    preflight_blocks E a = false ->
    send E a = Responds r ->
    exists pre, iteration E n a = ((pre ++ [Request a (Responds r)])%list, Return JNull).

End Vocabulary.

(* ================================================================== *)
(** * Properties *)
(* ================================================================== *)

Import Py Urllib Config Client Inbounds Vocabulary.

(** Closes a goal [forall .., ~ In e l] when no event of the explicit list
    [l] has the shape of [e]. *)
Ltac no_such_event :=
  let H := fresh "H" in
  intros; intro H; cbn in H;
  repeat (destruct H as [H | H]; [discriminate H |]); exact H.

(** ** Envelope unwrap *)

(** C2. Envelope unwrap checks its cases in a fixed order: a payload that is
    not an object is returned as it is; else the value under [response]; else
    the value under [data]; else null when [success] is false and [error] is
    present; else the payload itself. In particular {response: X} and
    {data: X} unwrap to X and {success: false, error: e} to null. *)
Theorem unwrap_checked_in_order :
  (forall p, is_dict p = false -> _unwrap_response_payload p = p)
  /\ (forall kv x, assoc "response" kv = Some x ->
        _unwrap_response_payload (JObj kv) = x)
  /\ (forall kv x, assoc "response" kv = None -> assoc "data" kv = Some x ->
        _unwrap_response_payload (JObj kv) = x)
  /\ (forall kv e, assoc "response" kv = None -> assoc "data" kv = None ->
        assoc "success" kv = Some (JBool false) -> assoc "error" kv = Some e ->
        _unwrap_response_payload (JObj kv) = JNull)
  /\ (forall kv, assoc "response" kv = None -> assoc "data" kv = None ->
        assoc "success" kv <> Some (JBool false) \/ assoc "error" kv = None ->
        _unwrap_response_payload (JObj kv) = JObj kv)
  /\ (forall X, _unwrap_response_payload (JObj [("response", X)]) = X)
  /\ (forall X, _unwrap_response_payload (JObj [("data", X)]) = X)
  /\ (forall e, _unwrap_response_payload
                  (JObj [("success", JBool false); ("error", JStr e)]) = JNull).
Proof.
  repeat split.
  - intros p Hp. destruct p; try reflexivity. discriminate Hp.
  - intros kv x H. cbn. unfold has_key, dict_get. now rewrite H.
  - intros kv x Hr Hd. cbn. unfold has_key, dict_get. now rewrite Hr, Hd.
  - intros kv e Hr Hd Hs He. cbn. unfold has_key, dict_get.
    now rewrite Hr, Hd, Hs, He.
  - intros kv Hr Hd H. cbn. unfold has_key, dict_get. rewrite Hr, Hd.
    destruct H as [H | H].
    + destruct (assoc "success" kv) as [[| [|] | | | |]|]; try reflexivity.
      now contradiction H.
    + rewrite H. now rewrite andb_false_r.
Qed.

Lemma unwrap_checked_in_order_witness :
  _unwrap_response_payload (JNum 7) = JNum 7
  /\ _unwrap_response_payload (JObj [("data", JNum 1); ("response", JNum 2)]) = JNum 2
  /\ _unwrap_response_payload (JObj [("error", JStr "e"); ("success", JBool false)]) = JNull
  /\ _unwrap_response_payload (JObj [("success", JNum 0); ("error", JStr "e")])
     = JObj [("success", JNum 0); ("error", JStr "e")].
Proof.
  destruct unwrap_checked_in_order as (H1 & H2 & _ & H4 & H5 & _).
  split; [apply H1; reflexivity |].
  split; [apply H2; reflexivity |].
  split; [apply (H4 _ (JStr "e")); reflexivity |].
  apply H5; try reflexivity. left. discriminate.
Defined.

(** ** Base URL *)

Lemma split_app_tail (c : ascii) (a b : string) :
  exists l, l <> [] /\ split c (a ++ String c b) = (l ++ split c b)%list.
Proof.
  induction a as [| d r (l & Hl & IH)]; cbn.
  - rewrite Ascii.eqb_refl. exists [EmptyString]. split; [discriminate | reflexivity].
  - rewrite IH. destruct (Ascii.eqb c d).
    + exists (EmptyString :: l). split; [discriminate | reflexivity].
    + destruct l as [| h t]; [now contradiction Hl |].
      exists (String d h :: t). split; [discriminate | reflexivity].
Qed.

Lemma mem_In (x : string) (l : list string) : mem x l = true <-> In x l.
Proof.
  unfold mem. rewrite existsb_exists. split.
  - intros (y & Hy & Heq). apply String.eqb_eq in Heq. now subst y.
  - intros H. exists x. split; [exact H | apply String.eqb_refl].
Qed.

Lemma api_part (path : string) :
  mem "api" (filter Urllib.nonempty (split "/" path)) = true <-> has_segment "api" path.
Proof.
  unfold has_segment. rewrite mem_In, filter_In. split; [tauto |].
  intros H. split; [exact H | reflexivity].
Qed.

(** C9. Base URL normalization guarantees an [/api] path segment. Whatever
    [str.strip] and the host checks of [urlparse] do where the model leaves
    them open: the three URLs of the specification normalize as it says;
    every URL the normalization returns is put together by [urlunparse] from
    a path that has the segment [api] - the default [/api] for a blank
    value, and otherwise the path of the value without its trailing
    slashes, unchanged when it has the segment already and followed by
    [/api] when it has not, the other components being those of the value;
    and the normalization fails only where [urlparse] refuses the value. *)
Theorem normalize_api_base_url_guarantees_api
    (unicode_strip : string -> string) (check_host nfkc_safe : string -> bool) :
  let normalize := _normalize_api_base_url unicode_strip check_host nfkc_safe in
  let parse := urlparse check_host nfkc_safe in
  normalize "http://host:3000" = Ok "http://host:3000/api"
  /\ normalize "http://host:3000/api" = Ok "http://host:3000/api"
  /\ normalize "http://host:3000/api/" = Ok "http://host:3000/api"
  /\ (forall value url,
        normalize value = Ok url ->
        exists parsed path',
          url = urlunparse (replace_path parsed path')
          /\ has_segment "api" path'
          /\ (strip_or unicode_strip value = "" /\ parsed = default_parts /\ path' = "/api"
              \/ strip_or unicode_strip value <> ""
                 /\ parse (strip_or unicode_strip value) = Ok parsed
                 /\ let p := rstrip_by (is_char "/") (path parsed) in
                    (has_segment "api" p /\ path' = p
                     \/ ~ has_segment "api" p /\ path' = p ++ "/api")))
  /\ (forall value,
        normalize value = Raise
        <-> strip_or unicode_strip value <> ""
            /\ parse (strip_or unicode_strip value) = Raise).
Proof.
  cbv zeta. split; [reflexivity |]. split; [reflexivity |]. split; [reflexivity |].
  unfold _normalize_api_base_url. split.
  - intros value url. destruct (String.eqb (strip_or unicode_strip value) "") eqn:Hraw.
    + intros [= <-]. apply String.eqb_eq in Hraw.
      exists default_parts, "/api". split; [reflexivity |]. split; [cbn; auto |].
      left. auto.
    + apply String.eqb_neq in Hraw.
      destruct (urlparse check_host nfkc_safe (strip_or unicode_strip value))
        as [parsed |] eqn:Hparse; [| discriminate].
      cbn [bind]. intros [= <-].
      set (p := rstrip_by (is_char "/") (path parsed)).
      destruct (String.eqb p "") eqn:Hp.
      * apply String.eqb_eq in Hp. exists parsed, "/api".
        split; [reflexivity |]. split; [cbn; auto |]. right.
        split; [exact Hraw |]. split; [reflexivity |]. cbv zeta. right. fold p. rewrite Hp.
        split; [| reflexivity].
        cbn. intros [H | []]. discriminate H.
      * destruct (mem "api" (filter Urllib.nonempty (split "/" p))) eqn:Hm.
        -- apply api_part in Hm. exists parsed, p. split; [reflexivity |]. split; [exact Hm |].
           right. split; [exact Hraw |]. split; [reflexivity |]. left. split; [exact Hm | reflexivity].
        -- exists parsed, (p ++ "/api")%string. split; [reflexivity |]. split.
           ++ unfold has_segment. change "/api" with (String "/" "api").
              destruct (split_app_tail "/" p "api") as (l & _ & ->).
              apply in_or_app. right. cbn. auto.
           ++ right. split; [exact Hraw |]. split; [reflexivity |]. cbv zeta. fold p. right.
              split; [| reflexivity]. intros H. apply api_part in H. congruence.
  - intros value. destruct (String.eqb (strip_or unicode_strip value) "") eqn:Hraw.
    + apply String.eqb_eq in Hraw. split; [discriminate |]. intros [H _]. now contradiction H.
    + apply String.eqb_neq in Hraw.
      destruct (urlparse check_host nfkc_safe (strip_or unicode_strip value)) as [parsed |];
        cbn [bind]; split; try discriminate; try tauto.
      intros [_ H]. discriminate H.
Qed.

(** ** The resolver *)

(** Unless [configProfile] is an object, the profile of a user or of a
    subscription item is read from [configProfile] alone: the field
    [configProfileUuid] is not looked at. *)
Lemma profile_uuid_of_flat (kv : list (string * json)) :
  is_dict (dict_get kv "configProfile" JNull) = false ->
  profile_uuid_of kv = dict_get kv "configProfile" JNull.
Proof.
  unfold profile_uuid_of. destruct (dict_get kv "configProfile" JNull); intros H;
    try reflexivity. discriminate H.
Qed.

(** C1. In the resolver scenario (inbound I1; profile P1 with I1, profile P2
    without; U1 active with configProfileUuid P1, U2 active with a
    subscription bound to {uuid: I1}, U3 inactive with configProfileUuid P1)
    the specification expects exactly U1 and U2. The resolver returns U2
    alone: the profile of U1 is never read from [configProfileUuid]. *)
Theorem resolver_scenario_returns_U2_only :
  profile_uuids_for_inbound Scenario.resolver_backend "I1" = [JStr "P1"]
  /\ get_inbound_users Scenario.resolver_backend "I1" = [Scenario.U2]
  /\ ~ In Scenario.U1 (get_inbound_users Scenario.resolver_backend "I1").
Proof.
  split; [| split]; try (vm_compute; reflexivity).
  vm_compute. intros [H | []]. discriminate H.
Qed.

(** The same scenario with the profile of U1 given as the nested object
    [configProfile: {uuid: P1}]: the resolver finds U1 through the profile
    index. *)
Lemma resolver_scenario_nested_profile :
  get_inbound_users (Scenario.backend_with [Scenario.U1_nested; Scenario.U2; Scenario.U3]) "I1"
  = [Scenario.U1_nested; Scenario.U2].
Proof. vm_compute. reflexivity. Qed.

(** *** Matching a reference *)

Lemma agree_on_true (f : string) (rkv tkv : list (string * json)) :
  truthy (dict_get rkv f JNull) && truthy (dict_get tkv f JNull)
  && String.eqb (str (dict_get rkv f JNull)) (str (dict_get tkv f JNull)) = true
  <-> agree_on f rkv tkv.
Proof.
  unfold agree_on. rewrite !andb_true_iff, String.eqb_eq. tauto.
Qed.

Lemma is_none_false (v : json) : negb (is_none v) = true <-> v <> JNull.
Proof. destruct v; cbn; split; congruence. Qed.

Lemma fallback_match_true (rkv tkv : list (string * json)) :
  catch (fallback_match rkv tkv) false = true
  <-> agree_on "tag" rkv tkv /\ same_port rkv tkv /\ agree_on "type" rkv tkv.
Proof.
  unfold fallback_match, same_port.
  rewrite <- (agree_on_true "tag"), <- (agree_on_true "type").
  set (tag_ok := (_ && _ && String.eqb _ _)%bool).
  set (type_ok := (_ && _ && String.eqb (str (dict_get rkv "type" JNull)) _)%bool).
  destruct (negb (is_none (port_of rkv))) eqn:Hr.
  - destruct (negb (is_none (port_of tkv))) eqn:Ht.
    + apply is_none_false in Hr, Ht. cbn.
      destruct (int (port_of rkv)) as [a |] eqn:Ha; cbn.
      * destruct (int (port_of tkv)) as [b |] eqn:Hb; cbn.
        -- rewrite !andb_true_iff, Z.eqb_eq. split.
           ++ intros [[H1 H2] H3]. subst b. repeat split; try assumption.
              exists a. auto.
           ++ intros (H1 & (q & _ & _ & Hq1 & Hq2) & H3).
              repeat split; congruence.
        -- split; [discriminate |]. intros (_ & (q & _ & _ & _ & Hq) & _). discriminate Hq.
      * split; [discriminate |]. intros (_ & (q & _ & _ & Hq & _) & _). discriminate Hq.
    + cbn. rewrite andb_false_r. cbn. split; [discriminate |].
      intros (_ & (q & _ & Hq & _) & _). apply is_none_false in Hq. congruence.
  - cbn. rewrite andb_false_r. cbn. split; [discriminate |].
    intros (_ & (q & Hq & _) & _). apply is_none_false in Hq. congruence.
Qed.

(** C6, as the code has it, for a reference and a target of plain fields
    ([uuid], [tag] and [type] that are null, booleans, strings or integers
    of at most 4300 digits; a port that is a number or ASCII text). A bare
    string matches when it is the requested UUID. An object
    matches when its UUID is the requested one; otherwise, whether or not it
    carries a UUID, it matches when the target is known and tag, port
    ([port] or [listenPort] on each side) and type all agree. Nothing else
    matches. *)
Theorem matches_inbound_ref_characterised (inbound_uuid : string) (ref tgt : json) :
  plain_fields ref = true ->
  plain_fields tgt = true ->
  (matches_inbound_ref inbound_uuid ref tgt = true
   <-> match ref with
       | JStr s => s = inbound_uuid
       | JObj rkv =>
           str (dict_get rkv "uuid" JNull) = inbound_uuid
           \/ exists tkv, tgt = JObj tkv /\ tkv <> []
                          /\ agree_on "tag" rkv tkv /\ same_port rkv tkv
                          /\ agree_on "type" rkv tkv
       | _ => False
       end).
Proof.
  intros _ _.
  destruct ref as [| b | z | s | l | rkv]; cbn; try (split; [discriminate | tauto]).
  - apply String.eqb_eq.
  - destruct (String.eqb (str (dict_get rkv "uuid" JNull)) inbound_uuid) eqn:Hu.
    + apply String.eqb_eq in Hu. tauto.
    + apply String.eqb_neq in Hu.
      destruct tgt as [| b | z | s | l | tkv];
        try (split; [discriminate | intros [H | (tkv' & H & _)]; [tauto | discriminate H]]).
      destruct tkv as [| kv0 tkv].
      * cbn. split; [discriminate |]. intros [H | (tkv' & H & Hne & _)]; [tauto |].
        injection H as <-. now contradiction Hne.
      * cbn [truthy]. rewrite fallback_match_true. split.
        -- intros H. right. exists (kv0 :: tkv). split; [reflexivity |]. split; [discriminate | exact H].
        -- intros [H | (tkv' & H & _ & H')]; [tauto |]. injection H as <-. exact H'.
Qed.

Lemma matches_inbound_ref_characterised_witness :
  matches_inbound_ref "I1" Scenario.I2 Scenario.I1 = true
  <-> "I2" = "I1"
      \/ exists tkv, Scenario.I1 = JObj tkv /\ tkv <> []
                     /\ agree_on "tag" [("uuid", JStr "I2"); ("tag", JStr "trojan-in");
                                        ("type", JStr "trojan"); ("port", JNum 8443)] tkv
                     /\ same_port [("uuid", JStr "I2"); ("tag", JStr "trojan-in");
                                   ("type", JStr "trojan"); ("port", JNum 8443)] tkv
                     /\ agree_on "type" [("uuid", JStr "I2"); ("tag", JStr "trojan-in");
                                         ("type", JStr "trojan"); ("port", JNum 8443)] tkv.
Proof.
  exact (matches_inbound_ref_characterised "I1" Scenario.I2 Scenario.I1 eq_refl eq_refl).
Defined.

(** C6, the counterexample: a reference whose UUID is not the target's
    matches through tag, port and type. *)
Lemma stale_uuid_matches_by_fallback :
  get Scenario.stale_ref "uuid" = Ok (JStr "I9")
  /\ get Scenario.I1 "uuid" = Ok (JStr "I1")
  /\ matches_inbound_ref "I1" Scenario.stale_ref Scenario.I1 = true.
Proof. repeat split. Qed.

(** ** The online count *)

Lemma is_recent_spec (now : Z) (ts : datetime) :
  _is_recent now (Some ts) 5 = true
  <-> now - instant_of ts <= 5 * 60 * 1000000.
Proof.
  unfold _is_recent, instant_of, utc_instant.
  change (timedelta_minutes 5) with (Ok (5 * 60 * 1000000)).
  destruct (tzinfo ts) as [off |] eqn:Htz; cbn [bind catch tzinfo wall];
    rewrite ?Htz, Z.leb_le; lia.
Qed.

Lemma count_online_app (f : string -> res datetime) (clock : nat -> Z)
    (l1 l2 : list json) :
  forall k c,
    count_online f clock k (l1 ++ l2)%list c
    = (c' <- count_online f clock k l1 c ;; count_online f clock (k + List.length l1) l2 c').
Proof.
  induction l1 as [| u l1 IH]; intros k c; cbn.
  - now rewrite Nat.add_0_r.
  - destruct (get u "status") as [st |]; cbn; [| reflexivity].
    replace (k + S (List.length l1))%nat with (S k + List.length l1)%nat by lia.
    destruct (negb (_is_active_status st)); [apply IH |].
    destruct (get u "onlineAt") as [o |]; cbn; [| reflexivity].
    destruct (_is_recent (clock k) (_parse_dt f o) 5); apply IH.
Qed.

(** C10. An active user whose [onlineAt] parses to an instant after the
    reading of the clock passes the recency test, which bounds
    [now - onlineAt] from above only, and is counted: wherever the user
    stands in the list, the count goes on from one more than the count of
    the users before. *)
Theorem future_online_at_is_counted
    (fromisoformat : string -> res datetime) (B : backend) (clock : nat -> Z)
    (pre post : list json) (kv : list (string * json)) (ts : datetime) (m : Z) :
  get_all_users B = Ok (JList (pre ++ JObj kv :: post)%list) ->
  count_online fromisoformat clock 0 pre 0 = Ok m ->
  _is_active_status (dict_get kv "status" JNull) = true ->
  _parse_dt fromisoformat (dict_get kv "onlineAt" JNull) = Some ts ->
  clock (List.length pre) < instant_of ts ->
  _is_recent (clock (List.length pre)) (Some ts) 5 = true
  /\ get_inbound_online_count fromisoformat B clock
     = catch (count_online fromisoformat clock (S (List.length pre)) post (m + 1)) 0.
Proof.
  intros Hall Hpre Hact Hparse Hfuture.
  assert (Hrecent : _is_recent (clock (List.length pre)) (Some ts) 5 = true)
    by (apply is_recent_spec; lia).
  split; [exact Hrecent |].
  unfold get_inbound_online_count. rewrite Hall. cbn [bind].
  replace (truthy (JList (pre ++ JObj kv :: post)%list)) with true
    by (destruct pre; reflexivity).
  cbn [negb iter bind has_len].
  rewrite count_online_app, Hpre. cbn [bind count_online get get_or Nat.add].
  rewrite Hact. cbn [negb bind]. rewrite Hparse, Hrecent.
  destruct (count_online fromisoformat clock (S (List.length pre)) post (m + 1)); reflexivity.
Qed.

Lemma future_online_at_is_counted_witness :
  get_inbound_online_count Scenario.fromisoformat_2030
    (mkBackend (fun _ => Raise) Raise (fun _ => Raise)
               (Ok (JList [JObj Scenario.user_from_2030])) (fun _ => Raise))
    Scenario.clock_2026
  = 1.
Proof.
  refine (proj2 (future_online_at_is_counted Scenario.fromisoformat_2030 _
                   Scenario.clock_2026 [] [] Scenario.user_from_2030
                   (mkDatetime 1893456000000000 (Some 0)) 0 _ _ _ _ _));
    vm_compute; reflexivity.
Defined.

(** ** The request engine *)

Lemma try_body_blocked (E : env) (n a : Z) :
  preflight_blocks E a = true ->
  try_body E n a
  = if n <=? 1 then ([Preflight false], inl (Return JNull))
    else ([Preflight false; Sleep 2], inl Continue).
Proof.
  unfold preflight_blocks, try_body. rewrite !andb_true_iff.
  intros [[-> ->] ->]. reflexivity.
Qed.

Lemma try_body_open (E : env) (n a : Z) :
  preflight_blocks E a = false ->
  exists pre,
    (pre = [] \/ (pre = [Preflight true] /\ a = 0))
    /\ try_body E n a
       = ((pre ++ fst (request_body E n a))%list, snd (request_body E n a)).
Proof.
  unfold preflight_blocks, try_body. intros H.
  destruct (API_PREFLIGHT E && (a =? 0)) eqn:Hp.
  - cbn in H. rewrite H. exists [Preflight true]. split.
    + right. split; [reflexivity |]. apply andb_true_iff in Hp. lia.
    + now destruct (request_body E n a).
  - exists []. split; [now left |]. now destruct (request_body E n a).
Qed.

Lemma issubclass_Exception (c : cls) : issubclass c Exception = true.
Proof. destruct c; reflexivity. Qed.

(** Every exception finds a handler, and a handler either returns [None]
    or sleeps and lets the loop go on, which it does only while attempts
    remain. *)
Lemma dispatch_handle (n a : Z) (e : exn) :
  exists k, dispatch e = Some k
    /\ (handle n k e a = ([], Return JNull)
        \/ (a < n - 1 /\ exists d, handle n k e a = ([Sleep d], Continue))).
Proof.
  destruct e as [c | s].
  - destruct c; eexists; (split; [reflexivity |]);
      unfold handle, retry_or_none;
      (destruct (a <? n - 1) eqn:Ha;
       [right; split; [lia | eexists; reflexivity] | now left]).
  - exists OfStatusError. split; [reflexivity |]. unfold handle.
    destruct (s =? 404); [now left |].
    destruct (s >=? 500); cbn; [| now left].
    destruct (a <? n - 1) eqn:Ha; [| now left].
    right. split; [lia | eexists; reflexivity].
Qed.

(** What the request of an attempt can lead to. *)
Lemma request_body_cases (E : env) (n a : Z) :
  match snd (request_body E n a) with
  | inl (Return v) =>
      v = JNull
      \/ exists r j, send E a = Responds r
                     /\ raises_for_status (status_code r) = false
                     /\ json_body r = Ok j
                     /\ v = _unwrap_response_payload j
  | inl Continue => a < n - 1
  | inl (Propagate _) => False
  | inr _ => True
  end.
Proof.
  unfold request_body.
  destruct (send E a) as [e | r] eqn:Hs; cbn; [exact I |].
  destruct ((status_code r >=? 500) && (a <? n - 1)) eqn:H1; cbn.
  { apply andb_true_iff in H1. lia. }
  destruct (raises_for_status (status_code r)) eqn:H2; cbn; [exact I |].
  destruct ((status_code r =? 204) || (status_code r =? 205)); cbn; [now left |].
  destruct (negb (is_infix "application/json" (lower (content_type r)))); cbn;
    [now left |].
  destruct (String.eqb (strip (text r)) ""); cbn; [now left |].
  destruct (json_body r) as [j |] eqn:Hj; cbn; [| exact I].
  right. exists r, j. auto.
Qed.

Lemma iteration_cases (E : env) (n a : Z) :
  match snd (iteration E n a) with
  | Return v =>
      v = JNull
      \/ exists r j, send E a = Responds r
                     /\ raises_for_status (status_code r) = false
                     /\ json_body r = Ok j
                     /\ v = _unwrap_response_payload j
  | Continue => a < n - 1
  | Propagate _ => False
  end.
Proof.
  unfold iteration.
  destruct (preflight_blocks E a) eqn:Hb.
  - rewrite (try_body_blocked _ _ _ Hb).
    destruct (n <=? 1) eqn:Hn; cbn; [now left |].
    unfold preflight_blocks in Hb. rewrite !andb_true_iff in Hb. lia.
  - destruct (try_body_open E n a Hb) as (pre & _ & ->).
    pose proof (request_body_cases E n a) as Hc.
    destruct (snd (request_body E n a)) as [c | e]; [exact Hc |].
    destruct (dispatch_handle n a e) as (k & -> & [-> | (Ha & d & ->)]); cbn.
    + now left.
    + exact Ha.
Qed.




(** *** Server errors *)

Lemma preflight_blocks_later (E : env) (a : Z) :
  a <> 0 -> preflight_blocks E a = false.
Proof.
  intros Ha. unfold preflight_blocks.
  replace (a =? 0) with false by (symmetry; apply Z.eqb_neq; exact Ha).
  now rewrite andb_false_r.
Qed.

Lemma main_events_app (l1 l2 : list event) :
  main_events (l1 ++ l2) = (main_events l1 ++ main_events l2)%list.
Proof. apply filter_app. Qed.

Lemma request_body_events (E : env) (n a : Z) :
  fst (request_body E n a) = [Request a (send E a)]
  \/ fst (request_body E n a) = [Request a (send E a); Sleep (2 ^ a)].
Proof.
  unfold request_body.
  destruct (send E a) as [e | r]; cbn; [now left |].
  destruct ((status_code r >=? 500) && (a <? n - 1)); cbn; [now right |].
  destruct (raises_for_status (status_code r)); cbn; [now left |].
  destruct ((status_code r =? 204) || (status_code r =? 205)); cbn; [now left |].
  destruct (negb (is_infix "application/json" (lower (content_type r)))); cbn;
    [now left |].
  destruct (String.eqb (strip (text r)) ""); cbn; [now left |].
  destruct (json_body r); now left.
Qed.

(** An attempt whose request is answered by a server error: it sleeps
    [2 ^ a] and goes on while attempts remain, and returns [None] on the
    last one. *)
Lemma iteration_server_error (E : env) (n a : Z) (r : response) :
  preflight_blocks E a = false ->
  send E a = Responds r ->
  500 <= status_code r ->
  main_events (fst (iteration E n a))
  = Request a (Responds r) :: (if a <? n - 1 then [Sleep (2 ^ a)] else [])
  /\ snd (iteration E n a) = if a <? n - 1 then Continue else Return JNull.
Proof.
  intros Hb Hs Hr. unfold iteration.
  destruct (try_body_open E n a Hb) as (pre & Hpre & ->).
  assert (Hm : main_events pre = [])
    by (destruct Hpre as [-> | [-> _]]; reflexivity).
  unfold request_body. rewrite Hs.
  replace (status_code r >=? 500) with true by (symmetry; apply Z.geb_le; lia).
  destruct (a <? n - 1) eqn:Ha; cbn [andb fst snd].
  - rewrite main_events_app, Hm. split; reflexivity.
  - replace (raises_for_status (status_code r)) with true.
    2:{ unfold raises_for_status. symmetry. apply negb_true_iff, andb_false_iff.
        right. apply Z.leb_gt. lia. }
    cbn [fst snd]. change (dispatch (StatusError (status_code r))) with (Some OfStatusError).
    unfold handle.
    replace (status_code r =? 404) with false by (symmetry; apply Z.eqb_neq; lia).
    rewrite Ha, andb_false_r. cbn [fst snd].
    rewrite !main_events_app, Hm. split; reflexivity.
Qed.

Lemma loop_server_errors (E : env) (n : Z) :
  preflight_blocks E 0 = false ->
  forall (j fuel : nat) (a : Z),
    (j <= fuel)%nat ->
    a + Z.of_nat fuel = n ->
    (forall b, a <= b < a + Z.of_nat j -> server_error (send E b)) ->
    exists rest,
      main_events (fst (loop E n fuel a))
      = (server_error_trace E n j a ++ rest)%list
      /\ (j = fuel -> rest = [] /\ snd (loop E n fuel a) = Returned JNull).
Proof.
  intros Hp0. induction j as [| j IH]; intros fuel a Hj Hn Hall.
  - exists (main_events (fst (loop E n fuel a))). split; [reflexivity |].
    intros <-. split; reflexivity.
  - destruct fuel as [| k]; [lia |].
    destruct (Hall a ltac:(lia)) as (r & Hs & Hr).
    assert (Hb : preflight_blocks E a = false).
    { destruct (Z.eq_dec a 0) as [-> | Ha]; [exact Hp0 |].
      now apply preflight_blocks_later. }
    destruct (iteration_server_error E n a r Hb Hs Hr) as [Hev Hctl].
    cbn [loop server_error_trace]. rewrite Hs in *.
    destruct (iteration E n a) as [ev c]. cbn [fst snd] in Hev, Hctl. subst c.
    destruct (a <? n - 1) eqn:Ha.
    + destruct (IH k (a + 1) ltac:(lia) ltac:(lia)) as (rest & Hrest & Hlast).
      { intros b Hb'. apply Hall. lia. }
      destruct (loop E n k (a + 1)) as [ev' o]. cbn [fst snd] in *.
      exists rest. rewrite main_events_app, Hev, Hrest. split.
      * reflexivity.
      * intros Heq. apply Hlast. lia.
    + assert (k = O) by lia. subst k. assert (j = O) by lia. subst j.
      cbn [fst snd server_error_trace]. exists []. rewrite Hev. split; [reflexivity |].
      intros _. split; reflexivity.
Qed.

(** C3, as the code has it. Unless a failed preflight check takes up the
    first attempt: when the first [N] requests are each answered with a
    status of 500 or more, a call with the budget [retry_count] sends
    [min retry_count N] requests that meet a server error, sleeping
    [2 ^ attempt] seconds after the one of attempt [attempt] (0, 1, ...)
    while attempts remain; when all [retry_count] requests meet a server
    error, nothing else happens and the call returns null. *)
Theorem server_errors_are_retried (E : env) (retry_count N : Z) :
  preflight_blocks E 0 = false ->
  (forall a, 0 <= a < N -> server_error (send E a)) ->
  exists rest,
    main_events (fst (_make_request E retry_count))
    = (server_error_trace E retry_count (Z.to_nat (Z.min retry_count N)) 0 ++ rest)%list
    /\ (retry_count <= N ->
        rest = [] /\ snd (_make_request E retry_count) = Returned JNull).
Proof.
  intros Hp Hall. unfold _make_request.
  destruct (Z.le_gt_cases retry_count 0) as [Hn | Hn].
  - replace (Z.to_nat retry_count) with O by lia.
    replace (Z.to_nat (Z.min retry_count N)) with O by lia.
    exists []. cbn. split; [reflexivity |]. intros _. split; reflexivity.
  - destruct (loop_server_errors E retry_count Hp
                (Z.to_nat (Z.min retry_count N)) (Z.to_nat retry_count) 0)
      as (rest & Hrest & Hlast); try lia.
    { intros b Hb. apply Hall. lia. }
    exists rest. split; [exact Hrest |].
    intros Hle. apply Hlast. f_equal. lia.
Qed.

Lemma server_errors_are_retried_witness :
  main_events (fst (_make_request Scenario.always_503 3))
  = [Request 0 (Responds Scenario.server_error); Sleep 1;
     Request 1 (Responds Scenario.server_error); Sleep 2;
     Request 2 (Responds Scenario.server_error)]
  /\ snd (_make_request Scenario.always_503 3) = Returned JNull.
Proof.
  destruct (server_errors_are_retried Scenario.always_503 3 5) as (rest & Hev & Hlast).
  - reflexivity.
  - intros a _. exists Scenario.server_error. split; [reflexivity | cbn; lia].
  - destruct Hlast as [-> Hres]; [lia |]. split; [exact Hev | exact Hres].
Defined.

(** C3, the counterexample: with the preflight check on and failing, a
    budget of three attempts and every request answered 503, the first
    attempt goes to the check. The engine sends two requests, not three,
    and sleeps 2 and 2 seconds, not 1 and 2. *)
Lemma failed_preflight_takes_an_attempt :
  (forall a, server_error (send Scenario.preflight_down_503 a))
  /\ _make_request Scenario.preflight_down_503 3
     = ([Preflight false; Sleep 2;
         Request 1 (Responds Scenario.server_error); Sleep 2;
         Request 2 (Responds Scenario.server_error)],
        Returned JNull)
  /\ List.length (filter is_request (fst (_make_request Scenario.preflight_down_503 3)))
     = 2%nat.
Proof.
  split; [| split; reflexivity].
  intros a. exists Scenario.server_error. split; [reflexivity | cbn; lia].
Qed.

(** *** Statuses that are not retried *)

Lemma iteration_events (E : env) (n a : Z) :
  exists pre body,
    fst (iteration E n a) = (pre ++ body)%list
    /\ (forall b, ~ In (Preflight b) body)
    /\ (forall b rp, In (Request b rp) body ->
                     b = a /\ rp = send E a /\ preflight_blocks E a = false)
    /\ (pre = []
        \/ (pre = [Preflight (_test_connection E)] /\ a = 0 /\ API_PREFLIGHT E = true)).
Proof.
  unfold iteration. destruct (preflight_blocks E a) eqn:Hb.
  - rewrite (try_body_blocked _ _ _ Hb).
    unfold preflight_blocks in Hb. rewrite !andb_true_iff, negb_true_iff in Hb.
    destruct Hb as [[Hp Ha] Ht]. rewrite Ht.
    exists [Preflight false].
    destruct (n <=? 1); cbn [fst].
    + exists []. split; [reflexivity |]. split; [intros b [] |].
      split; [intros b rp [] |]. right. repeat split; [lia | exact Hp].
    + exists [Sleep 2]. split; [reflexivity |].
      split; [intros b [H | []]; discriminate H |].
      split; [intros b rp [H | []]; discriminate H |].
      right. repeat split; [lia | exact Hp].
  - assert (Hpre : exists pre,
        (pre = [] \/ (pre = [Preflight (_test_connection E)] /\ a = 0
                      /\ API_PREFLIGHT E = true))
        /\ try_body E n a
           = ((pre ++ fst (request_body E n a))%list, snd (request_body E n a))).
    { unfold preflight_blocks in Hb. unfold try_body.
      destruct (API_PREFLIGHT E && (a =? 0)) eqn:Hp.
      - cbn in Hb. apply negb_false_iff in Hb. rewrite Hb. cbn [negb].
        exists [Preflight true]. apply andb_true_iff in Hp. split.
        + right. repeat split; [lia | tauto].
        + now destruct (request_body E n a).
      - exists []. split; [now left |]. now destruct (request_body E n a). }
    destruct Hpre as (pre & Hpre & ->).
    assert (Hreq : forall l,
        (forall b, ~ In (Preflight b) l) ->
        (forall b rp, ~ In (Request b rp) l) ->
        (forall b, ~ In (Preflight b) (fst (request_body E n a) ++ l))
        /\ (forall b rp, In (Request b rp) (fst (request_body E n a) ++ l) ->
                         b = a /\ rp = send E a /\ preflight_blocks E a = false)).
    { intros l Hl1 Hl2.
      destruct (request_body_events E n a) as [-> | ->];
        (split; [intros b H | intros b rp H]); cbn in H;
        repeat match goal with
               | H : _ \/ _ |- _ => destruct H
               | H : Request _ _ = Request _ _ |- _ => injection H as <- <-
               end;
        try discriminate; try (exfalso; eapply Hl1; eassumption);
        try (exfalso; eapply Hl2; eassumption); auto. }
    rewrite Hb in Hreq.
    destruct (snd (request_body E n a)) as [c | e].
    + exists pre, (fst (request_body E n a)). cbn [fst].
      destruct (Hreq []) as [H1 H2]; [no_such_event | no_such_event |].
      rewrite app_nil_r in H1, H2. auto.
    + destruct (dispatch_handle n a e) as (k & -> & [-> | (_ & d & ->)]); cbn [fst].
      * exists pre, (fst (request_body E n a) ++ [])%list.
        destruct (Hreq []) as [H1 H2]; [no_such_event | no_such_event |].
        rewrite app_assoc. auto.
      * exists pre, (fst (request_body E n a) ++ [Sleep d])%list.
        destruct (Hreq [Sleep d]) as [H1 H2]; [no_such_event | no_such_event |].
        rewrite app_assoc. auto.
Qed.

(** An attempt whose request is answered by an error status below 500 ends
    the call with [None], and nothing follows the request. *)
Lemma iteration_client_error (E : env) (n a : Z) (r : response) :
  preflight_blocks E a = false ->
  send E a = Responds r ->
  raises_for_status (status_code r) = true ->
  status_code r < 500 ->
  exists pre, iteration E n a = ((pre ++ [Request a (Responds r)])%list, Return JNull).
Proof.
  intros Hb Hs Hraise Hr. unfold iteration.
  destruct (try_body_open E n a Hb) as (pre & _ & ->).
  unfold request_body. rewrite Hs.
  replace (status_code r >=? 500) with false
    by (symmetry; rewrite Z.geb_leb; apply Z.leb_gt; lia).
  cbn [andb]. rewrite Hraise. cbn [fst snd].
  change (dispatch (StatusError (status_code r))) with (Some OfStatusError).
  unfold handle. exists pre.
  destruct (status_code r =? 404); [now rewrite app_nil_r |].
  replace (status_code r >=? 500) with false
    by (symmetry; rewrite Z.geb_leb; apply Z.leb_gt; lia).
  cbn [andb]. now rewrite app_nil_r.
Qed.

Lemma loop_client_error (E : env) (n a : Z) (r : response) :
  raises_for_status (status_code r) = true ->
  status_code r < 500 ->
  forall (fuel : nat) (a' : Z),
    In (Request a (Responds r)) (fst (loop E n fuel a')) ->
    snd (loop E n fuel a') = Returned JNull
    /\ exists pre, fst (loop E n fuel a') = (pre ++ [Request a (Responds r)])%list.
Proof.
  intros Hraise Hr. induction fuel as [| k IH]; intros a' Hin; cbn [loop] in *.
  - contradiction.
  - assert (Hhere : In (Request a (Responds r)) (fst (iteration E n a')) ->
                    exists pre, iteration E n a'
                                = ((pre ++ [Request a (Responds r)])%list, Return JNull)).
    { intros H. destruct (iteration_events E n a') as (pre & body & Hev & _ & Hreq & Hpre).
      rewrite Hev in H. apply in_app_or in H. destruct H as [H | H].
      - destruct Hpre as [-> | (-> & _)]; [contradiction |].
        destruct H as [H | []]. discriminate H.
      - destruct (Hreq _ _ H) as (-> & Hs & Hb).
        now apply iteration_client_error. }
    destruct (iteration E n a') as [ev c] eqn:Hit. cbn [fst] in Hhere.
    destruct c as [v | | e]; cbn [fst snd] in *.
    + destruct (Hhere Hin) as (pre & Heq). injection Heq as -> ->.
      split; [reflexivity | now exists pre].
    + specialize (IH (a' + 1)).
      destruct (loop E n k (a' + 1)) as [ev' o]. cbn [fst snd] in *.
      apply in_app_or in Hin. destruct Hin as [Hin | Hin].
      * destruct (Hhere Hin) as (pre & Heq). discriminate Heq.
      * destruct (IH Hin) as (-> & pre & ->). split; [reflexivity |].
        exists (ev ++ pre)%list. now rewrite app_assoc.
    + destruct (Hhere Hin) as (pre & Heq). discriminate Heq.
Qed.

(** C5. A request answered 404, or with any other error status below 500,
    ends the call: the call returns null and that request is the last thing
    it did, with no sleep and no further attempt after it. *)
Theorem client_error_is_not_retried (E : env) (retry_count a : Z) (r : response) :
  In (Request a (Responds r)) (fst (_make_request E retry_count)) ->
  status_code r = 404
  \/ (raises_for_status (status_code r) = true /\ status_code r < 500) ->
  snd (_make_request E retry_count) = Returned JNull
  /\ exists pre,
       fst (_make_request E retry_count) = (pre ++ [Request a (Responds r)])%list.
Proof.
  intros Hin Hstatus. unfold _make_request in *.
  apply loop_client_error; [| | exact Hin].
  - destruct Hstatus as [-> | [H _]]; [reflexivity | exact H].
  - destruct Hstatus as [-> | [_ H]]; [lia | exact H].
Qed.

Lemma client_error_is_not_retried_witness :
  _make_request Scenario.error_then_404 3
  = ([Request 0 (Responds Scenario.server_error); Sleep 1;
      Request 1 (Responds Scenario.not_found)],
     Returned JNull).
Proof.
  destruct (client_error_is_not_retried Scenario.error_then_404 3 1 Scenario.not_found)
    as [Hres _].
  - vm_compute. auto.
  - left. reflexivity.
  - vm_compute in Hres |- *. reflexivity.
Defined.

(** *** The preflight check *)

Lemma iteration_later_events (E : env) (n a : Z) :
  a <> 0 ->
  (forall b, ~ In (Preflight b) (fst (iteration E n a)))
  /\ exists rest, fst (iteration E n a) = Request a (send E a) :: rest.
Proof.
  intros Ha. split.
  - destruct (iteration_events E n a) as (pre & body & -> & Hbody & _ & Hpre).
    destruct Hpre as [-> | (_ & H0 & _)]; [exact Hbody | contradiction].
  - unfold iteration.
    destruct (try_body_open E n a (preflight_blocks_later E a Ha))
      as (pre & [-> | [_ H0]] & ->); [| contradiction].
    cbn [app].
    assert (Hreq : exists rest, fst (request_body E n a) = Request a (send E a) :: rest)
      by (destruct (request_body_events E n a) as [-> | ->]; eexists; reflexivity).
    destruct Hreq as (rest & ->).
    destruct (snd (request_body E n a)) as [c | e]; [now exists rest |].
    destruct (dispatch_handle n a e) as (k & -> & [-> | (_ & d & ->)]);
      eexists; reflexivity.
Qed.

Lemma loop_step (E : env) (n : Z) (k : nat) (a : Z) :
  loop E n (S k) a
  = match iteration E n a with
    | (ev, Return v) => (ev, Returned v)
    | (ev, Propagate e) => (ev, Raised e)
    | (ev, Continue) => let '(ev', o) := loop E n k (a + 1) in ((ev ++ ev')%list, o)
    end.
Proof. reflexivity. Qed.

Lemma loop_later_no_preflight (E : env) (n : Z) (fuel : nat) :
  forall a, 0 < a -> forall b, ~ In (Preflight b) (fst (loop E n fuel a)).
Proof.
  induction fuel as [| k IH]; intros a Ha b; cbn [loop].
  - intros [].
  - destruct (iteration_later_events E n a ltac:(lia)) as [Hno _].
    specialize (Hno b).
    destruct (iteration E n a) as [ev [v | | e]]; cbn [fst] in *; try exact Hno.
    specialize (IH (a + 1) ltac:(lia) b).
    destruct (loop E n k (a + 1)) as [ev' o]. cbn [fst] in *.
    intros H. apply in_app_or in H. tauto.
Qed.

Lemma loop_later_head (E : env) (n : Z) (k : nat) (a : Z) :
  a <> 0 -> exists rest, fst (loop E n (S k) a) = Request a (send E a) :: rest.
Proof.
  intros Ha. cbn [loop].
  destruct (iteration_later_events E n a Ha) as [_ (rest & Hhead)].
  destruct (iteration E n a) as [ev [v | | e]]; cbn [fst] in *; subst ev;
    try (now exists rest).
  destruct (loop E n k (a + 1)) as [ev' o]. cbn [fst].
  now exists (rest ++ ev')%list.
Qed.

(** C7, as the code has it. The preflight check is made at most once, as
    the first thing of the call, and only when it is enabled. When it fails
    and the budget is at most one attempt, the call returns null without
    sending the request. When it fails and the budget is larger, the call
    sleeps two seconds and moves on to attempt 1, which sends the request
    without any further preflight check. *)
Theorem preflight_only_before_first_attempt (E : env) (retry_count : Z) :
  (forall b, In (Preflight b) (fst (_make_request E retry_count)) ->
     API_PREFLIGHT E = true
     /\ b = _test_connection E
     /\ exists rest, fst (_make_request E retry_count) = Preflight b :: rest
                     /\ forall b', ~ In (Preflight b') rest)
  /\ (API_PREFLIGHT E = true -> _test_connection E = false ->
      (retry_count <= 1 ->
         snd (_make_request E retry_count) = Returned JNull
         /\ main_events (fst (_make_request E retry_count)) = [])
      /\ (retry_count = 1 ->
            _make_request E retry_count = ([Preflight false], Returned JNull))
      /\ (1 < retry_count ->
            exists rest,
              fst (_make_request E retry_count)
              = Preflight false :: Sleep 2 :: Request 1 (send E 1) :: rest
              /\ forall b', ~ In (Preflight b') rest)).
Proof.
  unfold _make_request. split.
  - intros b Hin.
    destruct (Z.to_nat retry_count) as [| k]; [destruct Hin |].
    cbn [loop] in *.
    destruct (iteration_events E retry_count 0) as (pre & body & Hev & Hbody & _ & Hpre).
    pose proof (loop_later_no_preflight E retry_count k (0 + 1) ltac:(lia)) as Hlater.
    assert (Hshape : forall tail,
        (forall b', ~ In (Preflight b') tail) ->
        In (Preflight b) ((pre ++ body) ++ tail) ->
        API_PREFLIGHT E = true /\ b = _test_connection E
        /\ exists rest, ((pre ++ body) ++ tail)%list = Preflight b :: rest
                        /\ forall b', ~ In (Preflight b') rest).
    { intros tail Htail H.
      destruct Hpre as [-> | (-> & _ & Hp)].
      - cbn in H. apply in_app_or in H. destruct H as [H | H]; exfalso.
        + exact (Hbody _ H).
        + exact (Htail _ H).
      - cbn in H |- *. destruct H as [H | H].
        + injection H as <-. split; [exact Hp |]. split; [reflexivity |].
          eexists. split; [reflexivity |].
          intros b' H'. apply in_app_or in H'. destruct H' as [H' | H'].
          * exact (Hbody _ H').
          * exact (Htail _ H').
        + exfalso. apply in_app_or in H. destruct H as [H | H].
          * exact (Hbody _ H).
          * exact (Htail _ H). }
    destruct (iteration E retry_count 0) as [ev [v | | e]]; cbn [fst] in *; subst ev.
    + rewrite <- (app_nil_r (pre ++ body)) in Hin |- *.
      apply Hshape; [intros b' [] | exact Hin].
    + destruct (loop E retry_count k (0 + 1)) as [ev' o]. cbn [fst] in *.
      apply Hshape; assumption.
    + rewrite <- (app_nil_r (pre ++ body)) in Hin |- *.
      apply Hshape; [intros b' [] | exact Hin].
  - intros Hp Ht.
    assert (Hb : preflight_blocks E 0 = true)
      by (unfold preflight_blocks; now rewrite Hp, Ht).
    assert (Hit : iteration E retry_count 0
                  = if retry_count <=? 1 then ([Preflight false], Return JNull)
                    else ([Preflight false; Sleep 2], Continue)).
    { unfold iteration. rewrite (try_body_blocked _ _ _ Hb).
      now destruct (retry_count <=? 1). }
    split; [| split].
    + intros Hle. destruct (Z.to_nat retry_count) as [| k] eqn:Hk.
      * split; reflexivity.
      * cbn [loop]. rewrite Hit.
        replace (retry_count <=? 1) with true by (symmetry; apply Z.leb_le; lia).
        split; reflexivity.
    + intros ->. change (Z.to_nat 1) with 1%nat. cbn [loop]. now rewrite Hit.
    + intros Hlt.
      destruct (Z.to_nat retry_count) as [| [| k]] eqn:Hk; try lia.
      rewrite loop_step, Hit.
      replace (retry_count <=? 1) with false by (symmetry; apply Z.leb_gt; lia).
      change (0 + 1) with 1.
      pose proof (loop_later_no_preflight E retry_count (S k) 1 ltac:(lia)) as Hno.
      destruct (loop_later_head E retry_count k 1 ltac:(lia)) as (rest & Hhead).
      destruct (loop E retry_count (S k) 1) as [ev' o]. cbn [fst] in *. subst ev'.
      exists rest. split; [reflexivity |].
      intros b' H. apply (Hno b'). now right.
Qed.

Lemma preflight_only_before_first_attempt_witness :
  fst (_make_request Scenario.preflight_down 1) = [Preflight false]
  /\ exists rest,
       fst (_make_request Scenario.preflight_down 3)
       = Preflight false :: Sleep 2 :: Request 1 (Responds Scenario.ok_response) :: rest.
Proof.
  split.
  - destruct (preflight_only_before_first_attempt Scenario.preflight_down 1)
      as [_ H]. destruct (H eq_refl eq_refl) as (_ & H1 & _).
    now rewrite (H1 eq_refl).
  - destruct (preflight_only_before_first_attempt Scenario.preflight_down 3)
      as [_ H]. destruct (H eq_refl eq_refl) as (_ & _ & H3).
    destruct (H3 ltac:(lia)) as (rest & Hrest & _). now exists rest.
Defined.

(** C7, the counterexample: the preflight check fails, the budget is three
    attempts; after the sleep the request of attempt 1 is sent, and the
    preflight check is not made again. *)
Lemma preflight_is_not_retried :
  _make_request Scenario.preflight_down 3
  = ([Preflight false; Sleep 2; Request 1 (Responds Scenario.ok_response)],
     Returned (JObj [("total", JNum 0)])).
Proof. vm_compute. reflexivity. Qed.

(** *** Backoff after a transport failure *)

(** The clauses for [ConnectTimeout] and [ReadTimeout] come after the clause
    for [TimeoutException], their base class: no exception reaches them. *)
Lemma timeout_clauses_unreachable (e : exn) :
  dispatch e <> Some (OfClass ConnectTimeout)
  /\ dispatch e <> Some (OfClass ReadTimeout).
Proof. destruct e as [c | s]; [destruct c |]; split; discriminate. Qed.

Lemma iteration_transport_failure (E : env) (n a : Z) (c : cls) (k : clause) (d : Z) :
  a < n - 1 ->
  preflight_blocks E a = false ->
  send E a = Throws (Err c) ->
  dispatch (Err c) = Some k ->
  handle n k (Err c) a = retry_or_none n a d ->
  main_events (fst (iteration E n a)) = [Request a (Throws (Err c)); Sleep d]
  /\ snd (iteration E n a) = Continue.
Proof.
  intros Ha Hb Hs Hk Hh. unfold iteration.
  destruct (try_body_open E n a Hb) as (pre & Hpre & ->).
  assert (Hm : main_events pre = [])
    by (destruct Hpre as [-> | [-> _]]; reflexivity).
  unfold request_body. rewrite Hs. cbn [fst snd]. rewrite Hk, Hh.
  unfold retry_or_none.
  replace (a <? n - 1) with true by (symmetry; apply Z.ltb_lt; exact Ha).
  cbn [fst snd]. rewrite !main_events_app, Hm. split; reflexivity.
Qed.




(* ================================================================== *)
(** * Further properties *)
(* ================================================================== *)

(** ** The request engine: the attempt budget *)

Lemma handled_shape (n a : Z) (e : exn) (ev : list event) :
  match dispatch e with
  | Some k => let '(ev', c) := handle n k e a in ((ev ++ ev')%list, c)
  | None => (ev, Propagate e)
  end = (ev, Return JNull)
  \/ (a < n - 1
      /\ exists d, match dispatch e with
                   | Some k => let '(ev', c) := handle n k e a in ((ev ++ ev')%list, c)
                   | None => (ev, Propagate e)
                   end = ((ev ++ [Sleep d])%list, Continue)).
Proof.
  destruct (dispatch_handle n a e) as (k & -> & [-> | (Ha & d & ->)]).
  - left. now rewrite app_nil_r.
  - right. split; [exact Ha |]. now exists d.
Qed.

Lemma request_body_shape (E : env) (n a : Z) :
  request_body E n a = ([Request a (send E a); Sleep (2 ^ a)], inl Continue)
  \/ (exists v, request_body E n a = ([Request a (send E a)], inl (Return v)))
  \/ (exists e, request_body E n a = ([Request a (send E a)], inr e)).
Proof.
  unfold request_body.
  destruct (send E a) as [e | r]; cbn zeta iota beta; [right; right; now exists e |].
  destruct ((status_code r >=? 500) && (a <? n - 1)); [now left |].
  destruct (raises_for_status (status_code r)); [right; right; eexists; reflexivity |].
  destruct ((status_code r =? 204) || (status_code r =? 205));
    [right; left; eexists; reflexivity |].
  destruct (negb (is_infix "application/json" (lower (content_type r))));
    [right; left; eexists; reflexivity |].
  destruct (String.eqb (strip (text r)) ""); [right; left; eexists; reflexivity |].
  destruct (json_body r); [right; left | right; right]; eexists; reflexivity.
Qed.

(** The events of one iteration: at most a preflight check, at most one
    request, at most one sleep, and a sleep exactly when the loop goes on. *)
Lemma iteration_shape (E : env) (n a : Z) :
  exists pre tail,
    fst (iteration E n a) = (pre ++ tail)%list
    /\ (pre = [] \/ exists b, pre = [Preflight b])
    /\ ((snd (iteration E n a) = Continue
         /\ exists d, tail = [Sleep d] \/ tail = [Request a (send E a); Sleep d])
        \/ (snd (iteration E n a) <> Continue
            /\ (tail = [] \/ tail = [Request a (send E a)]))).
Proof.
  unfold iteration. destruct (preflight_blocks E a) eqn:Hb.
  - rewrite (try_body_blocked _ _ _ Hb). exists [Preflight false].
    destruct (n <=? 1); cbn [fst snd].
    + exists []. split; [reflexivity |]. split; [right; now exists false |].
      right. split; [discriminate | now left].
    + exists [Sleep 2]. split; [reflexivity |]. split; [right; now exists false |].
      left. split; [reflexivity |]. exists 2. now left.
  - destruct (try_body_open E n a Hb) as (pre & Hpre & ->). exists pre.
    assert (Hpre' : pre = [] \/ exists b, pre = [Preflight b]).
    { destruct Hpre as [-> | [-> _]]; [now left | right; now exists true]. }
    destruct (request_body_shape E n a) as [-> | [(v & ->) | (e & ->)]]; cbn [fst snd].
    + exists [Request a (send E a); Sleep (2 ^ a)].
      split; [reflexivity |]. split; [exact Hpre' |].
      left. split; [reflexivity |]. exists (2 ^ a). now right.
    + exists [Request a (send E a)].
      split; [reflexivity |]. split; [exact Hpre' |].
      right. split; [discriminate | now right].
    + destruct (handled_shape n a e (pre ++ [Request a (send E a)]))
        as [-> | (_ & d & ->)]; cbn [fst snd].
      * exists [Request a (send E a)].
        split; [reflexivity |]. split; [exact Hpre' |].
        right. split; [discriminate | now right].
      * exists [Request a (send E a); Sleep d]. rewrite <- app_assoc.
        split; [reflexivity |]. split; [exact Hpre' |].
        left. split; [reflexivity |]. exists d. now right.
Qed.

Lemma iteration_requests (E : env) (n a : Z) :
  (forall b rp, In (Request b rp) (fst (iteration E n a)) -> b = a /\ rp = send E a)
  /\ (List.length (filter is_request (fst (iteration E n a))) <= 1)%nat.
Proof.
  destruct (iteration_shape E n a) as (pre & tail & -> & Hpre & Htail).
  assert (Htail' : tail = [] \/ tail = [Request a (send E a)]
                   \/ exists d, tail = [Sleep d] \/ tail = [Request a (send E a); Sleep d]).
  { destruct Htail as [[_ H] | [_ [H | H]]]; auto. }
  destruct Hpre as [-> | [b0 ->]];
    destruct Htail' as [-> | [-> | [d [-> | ->]]]]; cbn; split; try lia;
    intros b rp H;
    repeat (destruct H as [H | H]; try discriminate H; try contradiction);
    injection H as <- <-; auto.
Qed.

Lemma loop_requests (E : env) (n : Z) (fuel : nat) :
  forall a0,
    (forall a rp, In (Request a rp) (fst (loop E n fuel a0)) ->
                  a0 <= a < a0 + Z.of_nat fuel /\ rp = send E a)
    /\ (List.length (filter is_request (fst (loop E n fuel a0))) <= fuel)%nat.
Proof.
  induction fuel as [| k IH]; intros a0.
  - cbn. split; [intros a rp [] | lia].
  - rewrite loop_step.
    destruct (iteration_requests E n a0) as [Hin Hlen].
    destruct (iteration E n a0) as [ev [v | | e]]; cbn [fst] in *.
    + split; [| lia]. intros a rp H. destruct (Hin _ _ H) as [-> ->]. split; [lia | reflexivity].
    + destruct (IH (a0 + 1)) as [IHin IHlen].
      destruct (loop E n k (a0 + 1)) as [ev' o]. cbn [fst] in *. split.
      * intros a rp H. apply in_app_or in H. destruct H as [H | H].
        -- destruct (Hin _ _ H) as [-> ->]. split; [lia | reflexivity].
        -- destruct (IHin _ _ H) as [Hr ->]. split; [lia | reflexivity].
      * rewrite filter_app, length_app. lia.
    + split; [| lia]. intros a rp H. destruct (Hin _ _ H) as [-> ->]. split; [lia | reflexivity].
Qed.

(** X1. The attempt budget is never exceeded: every request of a run belongs
    to an attempt between 0 and [retry_count - 1], there are at most
    [retry_count] requests, and with a budget of zero or less nothing is
    sent and the call returns null. *)
Theorem requests_stay_within_budget (E : env) (retry_count : Z) :
  (forall a rp, In (Request a rp) (fst (_make_request E retry_count)) ->
                0 <= a < retry_count /\ rp = send E a)
  /\ (List.length (filter is_request (fst (_make_request E retry_count)))
      <= Z.to_nat retry_count)%nat
  /\ (retry_count <= 0 -> _make_request E retry_count = ([], Returned JNull)).
Proof.
  unfold _make_request.
  destruct (loop_requests E retry_count (Z.to_nat retry_count) 0) as [Hin Hlen].
  split; [| split].
  - intros a rp H. destruct (Hin _ _ H) as [Hr ->]. split; [lia | reflexivity].
  - exact Hlen.
  - intros Hn. now replace (Z.to_nat retry_count) with O by lia.
Qed.

Lemma requests_stay_within_budget_witness :
  (forall a rp, In (Request a rp) (fst (_make_request Scenario.error_then_404 3)) ->
                0 <= a < 3 /\ rp = send Scenario.error_then_404 a)
  /\ (List.length (filter is_request (fst (_make_request Scenario.always_503 3))) <= 3)%nat
  /\ _make_request Scenario.always_503 0 = ([], Returned JNull).
Proof.
  split; [| split].
  - exact (proj1 (requests_stay_within_budget Scenario.error_then_404 3)).
  - exact (proj1 (proj2 (requests_stay_within_budget Scenario.always_503 3))).
  - apply (requests_stay_within_budget Scenario.always_503 0). lia.
Defined.

(** ** The request engine: how a run ends *)

Lemma last_app_nonempty (l l' : list event) (d : event) :
  l' <> [] -> last (l ++ l') d = last l' d.
Proof.
  intros Hne. induction l as [| x l IH]; [reflexivity |].
  cbn [app]. change (last (x :: l ++ l') d)
    with (match (l ++ l')%list with [] => x | _ => last (l ++ l') d end).
  destruct (l ++ l')%list eqn:Happ; [| exact IH].
  apply app_eq_nil in Happ. destruct Happ as [_ ->]. now contradiction Hne.
Qed.

Lemma iteration_nonempty (E : env) (n a : Z) : fst (iteration E n a) <> [].
Proof.
  unfold iteration. destruct (preflight_blocks E a) eqn:Hb.
  - rewrite (try_body_blocked _ _ _ Hb). now destruct (n <=? 1).
  - destruct (try_body_open E n a Hb) as (pre' & _ & ->).
    destruct (request_body_shape E n a) as [-> | [(v & ->) | (e & ->)]]; cbn [fst snd].
    + now destruct pre'.
    + now destruct pre'.
    + destruct (handled_shape n a e (pre' ++ [Request a (send E a)]))
        as [-> | (_ & d & ->)]; cbn [fst]; now destruct pre'.
Qed.

Lemma loop_nonempty (E : env) (n : Z) (k : nat) (a : Z) :
  fst (loop E n (S k) a) <> [].
Proof.
  rewrite loop_step. pose proof (iteration_nonempty E n a) as Hne.
  destruct (iteration E n a) as [ev [v | | e]]; cbn [fst] in *; try exact Hne.
  destruct (loop E n k (a + 1)) as [ev' o]. cbn [fst].
  intros H. apply app_eq_nil in H. tauto.
Qed.

Lemma loop_last_not_sleep (E : env) (n : Z) (fuel : nat) :
  forall a, a + Z.of_nat fuel = n ->
            is_sleep (last (fst (loop E n fuel a)) (Preflight true)) = false.
Proof.
  induction fuel as [| k IH]; intros a Hn; [reflexivity |].
  rewrite loop_step.
  destruct (iteration_shape E n a) as (pre & tail & Hev & Hpre & Htail).
  pose proof (iteration_cases E n a) as Hc.
  destruct (iteration E n a) as [ev c]. cbn [fst snd] in *. subst ev.
  assert (Hstop : c <> Continue ->
                  is_sleep (last (pre ++ tail) (Preflight true)) = false).
  { intros Hne. destruct Htail as [[H _] | [_ [-> | ->]]]; [contradiction | |];
      destruct Hpre as [-> | [b ->]]; reflexivity. }
  destruct c as [v | | e]; cbn [fst]; try (apply Hstop; discriminate).
  destruct k as [| k']; [lia |].
  specialize (IH (a + 1) ltac:(lia)).
  pose proof (loop_nonempty E n k' (a + 1)) as Hne.
  destruct (loop E n (S k') (a + 1)) as [ev' o]. cbn [fst] in *.
  now rewrite last_app_nonempty.
Qed.

(** X2. A run never ends with a sleep: whatever happens, the last thing the
    engine does before it returns is a request or the preflight check, so it
    never waits out a backoff delay only to give up. *)
Theorem run_never_ends_with_sleep (E : env) (retry_count : Z) :
  forall pre d, fst (_make_request E retry_count) <> (pre ++ [Sleep d])%list.
Proof.
  intros pre d H. unfold _make_request in H.
  destruct (Z.le_gt_cases retry_count 0) as [Hn | Hn].
  - replace (Z.to_nat retry_count) with O in H by lia. cbn in H.
    now destruct pre.
  - pose proof (loop_last_not_sleep E retry_count (Z.to_nat retry_count) 0
                  ltac:(lia)) as Hlast.
    rewrite H, last_last in Hlast. discriminate Hlast.
Qed.

(** ** The request engine: retried and final outcomes *)


Lemma iteration_usable (E : env) (n a : Z) (r : response) (j : json) :
  preflight_blocks E a = false ->
  send E a = Responds r ->
  usable r j ->
  exists pre,
    iteration E n a
    = ((pre ++ [Request a (Responds r)])%list, Return (_unwrap_response_payload j)).
Proof.
  intros Hb Hs (Hraise & Hno & Hct & Htext & Hjson). unfold iteration.
  destruct (try_body_open E n a Hb) as (pre & _ & ->). exists pre.
  unfold request_body. rewrite Hs.
  assert (H5 : (status_code r >=? 500) = false).
  { unfold raises_for_status in Hraise. apply negb_false_iff, andb_true_iff in Hraise.
    rewrite Z.geb_leb. apply Z.leb_gt. lia. }
  rewrite H5. cbn [andb]. rewrite Hraise, Hno, Hct. cbn [negb]. rewrite Htext, Hjson.
  reflexivity.
Qed.




Lemma loop_final_null (E : env) (n a : Z) (r : response) :
  final_null r ->
  forall (fuel : nat) (a' : Z),
    In (Request a (Responds r)) (fst (loop E n fuel a')) ->
    snd (loop E n fuel a') = Returned JNull
    /\ exists pre, fst (loop E n fuel a') = (pre ++ [Request a (Responds r)])%list.
Proof.
  intros Hfinal. induction fuel as [| k IH]; intros a' Hin.
  - destruct Hin.
  - rewrite loop_step in *.
    assert (Hhere : In (Request a (Responds r)) (fst (iteration E n a')) ->
                    exists pre, iteration E n a'
                                = ((pre ++ [Request a (Responds r)])%list, Return JNull)).
    { intros H. destruct (iteration_events E n a') as (pre & body & Hev & _ & Hreq & Hpre).
      rewrite Hev in H. apply in_app_or in H. destruct H as [H | H].
      - destruct Hpre as [-> | (-> & _)]; [contradiction |].
        destruct H as [H | []]. discriminate H.
      - destruct (Hreq _ _ H) as (-> & Hs & Hb). now apply Hfinal. }
    destruct (iteration E n a') as [ev c] eqn:Hit. cbn [fst] in Hhere.
    destruct c as [v | | e]; cbn [fst snd] in *.
    + destruct (Hhere Hin) as (pre & Heq). injection Heq as -> ->.
      split; [reflexivity | now exists pre].
    + specialize (IH (a' + 1)).
      destruct (loop E n k (a' + 1)) as [ev' o]. cbn [fst snd] in *.
      apply in_app_or in Hin. destruct Hin as [Hin | Hin].
      * destruct (Hhere Hin) as (pre & Heq). discriminate Heq.
      * destruct (IH Hin) as (-> & pre & ->). split; [reflexivity |].
        exists (ev ++ pre)%list. now rewrite app_assoc.
    + destruct (Hhere Hin) as (pre & Heq). discriminate Heq.
Qed.

Lemma empty_success_final (r : response) : empty_success r -> final_null r.
Proof.
  intros (Hraise & Hempty) E n a Hb Hs. unfold iteration.
  destruct (try_body_open E n a Hb) as (pre & _ & ->). exists pre.
  unfold request_body. rewrite Hs.
  assert (H5 : (status_code r >=? 500) = false).
  { unfold raises_for_status in Hraise. apply negb_false_iff, andb_true_iff in Hraise.
    rewrite Z.geb_leb. apply Z.leb_gt. lia. }
  rewrite H5. cbn [andb]. rewrite Hraise.
  destruct ((status_code r =? 204) || (status_code r =? 205)) eqn:H204; [reflexivity |].
  destruct (is_infix "application/json" (lower (content_type r))) eqn:Hct;
    [| reflexivity].
  cbn [negb].
  destruct (String.eqb (strip (text r)) "") eqn:Htext; [reflexivity |].
  destruct Hempty as [H | [H | H]]; discriminate H.
Qed.

(** X4. A response of success status that carries nothing to return (status
    204 or 205, a content type that is not JSON, or a blank body) ends the
    call at once: the result is null and that request is the last thing the
    call did, with no sleep and no further attempt. *)
Theorem empty_success_is_final (E : env) (retry_count a : Z) (r : response) :
  In (Request a (Responds r)) (fst (_make_request E retry_count)) ->
  empty_success r ->
  snd (_make_request E retry_count) = Returned JNull
  /\ exists pre,
       fst (_make_request E retry_count) = (pre ++ [Request a (Responds r)])%list.
Proof.
  intros Hin He. unfold _make_request in *.
  apply loop_final_null; [now apply empty_success_final | exact Hin].
Qed.

Lemma empty_success_is_final_witness :
  _make_request
    (mkEnv false (Responds Scenario.ok_response)
           (fun _ => Responds (mkResponse 200 "text/html" "<html/>" Raise)))
    3
  = ([Request 0 (Responds (mkResponse 200 "text/html" "<html/>" Raise))],
     Returned JNull).
Proof.
  destruct (empty_success_is_final
              (mkEnv false (Responds Scenario.ok_response)
                     (fun _ => Responds (mkResponse 200 "text/html" "<html/>" Raise)))
              3 0 (mkResponse 200 "text/html" "<html/>" Raise)) as [Hres _].
  - vm_compute. auto.
  - split; [reflexivity |]. right. left. reflexivity.
  - vm_compute in Hres |- *. reflexivity.
Defined.



(** X6. Every timeout is handled by the clause of the generic timeout class:
    after a timeout of any class (connect, read, write, pool or the base
    class) on an attempt that is not the last, the engine sleeps
    [min (2 ^ attempt) 10] seconds, which is never more than 10. *)
Theorem timeout_backoff_is_capped (E : env) (retry_count a : Z) (c : cls) :
  a < retry_count - 1 ->
  preflight_blocks E a = false ->
  send E a = Throws (Err c) ->
  issubclass c TimeoutException = true ->
  main_events (fst (iteration E retry_count a))
  = [Request a (Throws (Err c)); Sleep (Z.min (2 ^ a) 10)]
  /\ snd (iteration E retry_count a) = Continue
  /\ Z.min (2 ^ a) 10 <= 10.
Proof.
  intros Ha Hb Hs Hsub.
  assert (H : main_events (fst (iteration E retry_count a))
              = [Request a (Throws (Err c)); Sleep (Z.min (2 ^ a) 10)]
              /\ snd (iteration E retry_count a) = Continue).
  { destruct c; try discriminate Hsub;
      now apply (iteration_transport_failure E retry_count a _
                   (OfClass TimeoutException)). }
  destruct H as [H1 H2]. repeat split; try assumption. lia.
Qed.

Lemma timeout_backoff_is_capped_witness :
  main_events (fst (iteration (Scenario.always_fails ConnectTimeout) 8 5))
  = [Request 5 (Throws (Err ConnectTimeout)); Sleep 10].
Proof.
  apply (timeout_backoff_is_capped (Scenario.always_fails ConnectTimeout) 8 5
           ConnectTimeout); reflexivity.
Defined.

(** ** The alternative client *)

Lemma is_prefix_lower (p s : string) :
  is_prefix p s = true -> is_prefix (lower p) (lower s) = true.
Proof.
  revert s. induction p as [| a p IH]; intros s H; [reflexivity |].
  destruct s as [| b s]; [discriminate H |].
  cbn in H |- *. apply andb_true_iff in H. destruct H as [Hab Hps].
  apply Ascii.eqb_eq in Hab. subst b. rewrite Ascii.eqb_refl. cbn.
  now apply IH.
Qed.

Lemma is_prefix_is_infix (p s : string) : is_prefix p s = true -> is_infix p s = true.
Proof. intros H. destruct s; cbn; rewrite H; reflexivity. Qed.

(** X7. The alternative client makes one request and never raises. When
    the response has a success status, a content type that starts with
    [application/json] and a body that parses, it returns the unwrapped
    payload; in every other case - an exception of any class, another
    status, another content type, a body that does not parse - it returns
    null. *)
Theorem httpx_client_always_returns (rp : reply) :
  (exists v, ClientHttpx._make_request rp = Returned v)
  /\ (forall r j,
        rp = Responds r -> json_success r j ->
        ClientHttpx._make_request rp = Returned (_unwrap_response_payload j))
  /\ ((forall r j, rp = Responds r -> ~ json_success r j) ->
      ClientHttpx._make_request rp = Returned JNull).
Proof.
  unfold ClientHttpx._make_request, ClientHttpx.try_body, json_success.
  assert (Hexc : forall e,
             match find (isinstance e) ClientHttpx.handlers with
             | Some _ => Returned JNull
             | None => Raised e
             end = Returned JNull).
  { intros [c | s]; [destruct c |]; reflexivity. }
  destruct rp as [e | r].
  - rewrite Hexc. split; [now eexists |]. split; [discriminate | reflexivity].
  - destruct (raises_for_status (status_code r)) eqn:Hraise.
    { rewrite Hexc. split; [now eexists |]. split; [| reflexivity].
      intros r' j [= <-] (H & _). congruence. }
    destruct (is_prefix "application/json" (content_type r)) eqn:Hct.
    2:{ split; [now eexists |]. split; [| reflexivity].
        intros r' j [= <-] (_ & H & _). congruence. }
    destruct (json_body r) as [j |] eqn:Hj.
    + split; [now eexists |]. split.
      * intros r' j' [= <-] (_ & _ & H). congruence.
      * intros H. exfalso. apply (H r j eq_refl). auto.
    + rewrite Hexc. split; [now eexists |]. split; [| reflexivity].
      intros r' j [= <-] (_ & _ & H). congruence.
Qed.

Lemma httpx_client_always_returns_witness :
  ClientHttpx._make_request (Responds Scenario.ok_response)
  = Returned (JObj [("total", JNum 0)])
  /\ ClientHttpx._make_request (Responds Scenario.not_found) = Returned JNull.
Proof.
  split.
  - apply (proj1 (proj2 (httpx_client_always_returns (Responds Scenario.ok_response)))
             Scenario.ok_response (JObj [("response", JObj [("total", JNum 0)])]) eq_refl).
    repeat split.
  - apply (proj2 (proj2 (httpx_client_always_returns (Responds Scenario.not_found)))).
    intros r j [= <-] (H & _). discriminate H.
Defined.

(** X8. The two clients agree on a plain success: when the first request
    gets a response of success status other than 204 and 205, with a content
    type that starts with [application/json] and a body that is not blank and
    parses, the retrying client (with a budget of at least one attempt and
    no blocking preflight) returns what the alternative client returns. *)
Theorem clients_agree_on_success (E : env) (retry_count : Z) (r : response) (j : json) :
  1 <= retry_count ->
  preflight_blocks E 0 = false ->
  send E 0 = Responds r ->
  raises_for_status (status_code r) = false ->
  (status_code r =? 204) || (status_code r =? 205) = false ->
  is_prefix "application/json" (content_type r) = true ->
  String.eqb (strip (text r)) "" = false ->
  json_body r = Ok j ->
  snd (Client._make_request E retry_count) = ClientHttpx._make_request (send E 0)
  /\ ClientHttpx._make_request (send E 0) = Returned (_unwrap_response_payload j).
Proof.
  intros Hn Hb Hs Hraise Hno Hct Htext Hjson.
  assert (Hu : usable r j).
  { repeat split; try assumption.
    apply is_prefix_is_infix. now apply (is_prefix_lower "application/json"). }
  assert (Hx : ClientHttpx._make_request (send E 0)
               = Returned (_unwrap_response_payload j)).
  { rewrite Hs. unfold ClientHttpx._make_request, ClientHttpx.try_body.
    now rewrite Hraise, Hct, Hjson. }
  split; [| exact Hx]. rewrite Hx.
  unfold Client._make_request.
  destruct (Z.to_nat retry_count) as [| k] eqn:Hk; [lia |].
  rewrite loop_step.
  destruct (iteration_usable E retry_count 0 r j Hb Hs Hu) as (pre & ->).
  reflexivity.
Qed.

Lemma clients_agree_on_success_witness :
  snd (Client._make_request
         (mkEnv false (Responds Scenario.ok_response)
                (fun _ => Responds Scenario.ok_response)) 3)
  = Returned (JObj [("total", JNum 0)]).
Proof.
  destruct (clients_agree_on_success
              (mkEnv false (Responds Scenario.ok_response)
                     (fun _ => Responds Scenario.ok_response))
              3 Scenario.ok_response
              (JObj [("response", JObj [("total", JNum 0)])])
              ltac:(lia) eq_refl eq_refl eq_refl eq_refl eq_refl eq_refl eq_refl)
    as [H1 H2].
  rewrite H1. exact H2.
Defined.

(** ** The polling loop *)

Lemma polling_loop_step (rp : Z -> bool) (k : nat) (rc : Z) :
  Main.polling_loop rp (S k) rc
  = if rc <? Main.max_retries then
      if rp rc then ([Main.Poll rc], Main.Stopped)
      else if rc + 1 >=? Main.max_retries then ([Main.Poll rc], Main.Reraised)
           else let '(ev, e) := Main.polling_loop rp k (rc + 1) in
                (Main.Poll rc :: Main.Wait (Z.min (30 * (rc + 1)) 300) :: ev, e)
    else ([], Main.Exhausted).
Proof. reflexivity. Qed.

Lemma polling_loop_run (rp : Z -> bool) (fuel : nat) :
  forall rc,
    0 <= rc < Main.max_retries ->
    Main.max_retries - rc <= Z.of_nat fuel ->
    let '(ev, e) := Main.polling_loop rp fuel rc in
    (e = Main.Stopped \/ e = Main.Reraised)
    /\ (forall k, In (Main.Poll k) ev -> rc <= k < Main.max_retries)
    /\ (forall w, In (Main.Wait w) ev ->
                  exists k, rc < k < Main.max_retries /\ w = 30 * k)
    /\ (e = Main.Reraised <->
        forall k, rc <= k < Main.max_retries -> rp k = false).
Proof.
  unfold Main.max_retries.
  induction fuel as [| f IH]; intros rc Hrc Hfuel; [lia |].
  rewrite polling_loop_step. unfold Main.max_retries.
  replace (rc <? 10) with true by (symmetry; apply Z.ltb_lt; lia).
  destruct (rp rc) eqn:Hrp.
  { split; [now left |].
    split; [intros k [H | []]; injection H as <-; lia |].
    split; [intros w [H | []]; discriminate H |].
    split; [discriminate |]. intros H. rewrite (H rc) in Hrp by lia. discriminate Hrp. }
  destruct (rc + 1 >=? 10) eqn:Hge.
  { rewrite Z.geb_leb in Hge. apply Z.leb_le in Hge.
    split; [now right |].
    split; [intros k [H | []]; injection H as <-; lia |].
    split; [intros w [H | []]; discriminate H |].
    split; [| reflexivity]. intros _ k Hk. now replace k with rc by lia. }
  rewrite Z.geb_leb in Hge. apply Z.leb_gt in Hge.
  specialize (IH (rc + 1) ltac:(lia) ltac:(lia)).
  destruct (Main.polling_loop rp f (rc + 1)) as [ev e].
  destruct IH as (Hend & Hpoll & Hwait & Hre).
  split; [exact Hend |].
  split.
  { intros k [H | [H | H]]; [injection H as <-; lia | discriminate H |].
    specialize (Hpoll k H). lia. }
  split.
  { intros w HH. cbn [In] in HH. destruct HH as [H | [H | H]]; [discriminate H | |].
    - assert (Hw : w = Z.min (30 * (rc + 1)) 300) by congruence.
      exists (rc + 1). lia.
    - destruct (Hwait w H) as (k & Hk & ->). exists k. lia. }
  rewrite Hre. split.
  - intros H k Hk.
    destruct (Z.eq_dec k rc) as [-> | Hne]; [exact Hrp | apply H; lia].
  - intros H k Hk. apply H. lia.
Qed.

(** X9. The polling loop of [main] calls [run_polling] at most ten times and
    always ends: it stops at the first call that returns, and raises the last
    exception again exactly when all ten calls raise. After the [k]-th
    failure (1 to 9) it waits [30 * k] seconds, so the cap of 300 seconds in
    [min(30 * retry_count, 300)] never applies. *)
Theorem polling_loop_terminates (run_polling : Z -> bool) :
  let '(ev, e) := Main.polling_loop run_polling 10 0 in
  (e = Main.Stopped \/ e = Main.Reraised)
  /\ (forall k, In (Main.Poll k) ev -> 0 <= k < 10)
  /\ (forall w, In (Main.Wait w) ev -> exists k, 1 <= k <= 9 /\ w = 30 * k /\ w < 300)
  /\ (e = Main.Reraised <-> forall k, 0 <= k < 10 -> run_polling k = false).
Proof.
  pose proof (polling_loop_run run_polling 10 0
                ltac:(unfold Main.max_retries; lia)
                ltac:(unfold Main.max_retries; lia)) as H.
  unfold Main.max_retries in H.
  destruct (Main.polling_loop run_polling 10 0) as [ev e].
  destruct H as (Hend & Hpoll & Hwait & Hre).
  split; [exact Hend |].
  split; [exact Hpoll |].
  split; [| exact Hre].
  intros w Hw. destruct (Hwait w Hw) as (k & Hk & ->). exists k. lia.
Qed.

(** ** User roles *)

Lemma role_of_set (id id' : Z) (role : string) (r : roles) :
  role_of id (roles_set id' role r) = if id =? id' then Some role else role_of id r.
Proof.
  induction r as [| [i ro] rest IH]; cbn; [reflexivity |].
  destruct (id' =? i) eqn:Hi; cbn.
  - apply Z.eqb_eq in Hi. subst i. now destruct (id =? id').
  - rewrite IH. destruct (id =? i) eqn:Hid; [| reflexivity].
    apply Z.eqb_eq in Hid. subst i.
    rewrite Z.eqb_sym in Hi. now rewrite Hi.
Qed.

Lemma role_of_admins (id : Z) (admin_ids : list Z) :
  forall r,
    role_of id (fold_left (fun r admin_id => roles_set admin_id "admin" r) admin_ids r)
    = if existsb (Z.eqb id) admin_ids then Some "admin" else role_of id r.
Proof.
  induction admin_ids as [| a l IH]; intros r; cbn; [reflexivity |].
  rewrite IH, role_of_set.
  destruct (id =? a); cbn; [now destruct (existsb (Z.eqb id) l) | reflexivity].
Qed.

Lemma role_of_operators (id : Z) (operator_ids : list Z) :
  forall r,
    role_of id (fold_left (fun r operator_id =>
                             if has_role operator_id r then r
                             else roles_set operator_id "operator" r)
                          operator_ids r)
    = match role_of id r with
      | Some role => Some role
      | None => if existsb (Z.eqb id) operator_ids then Some "operator" else None
      end.
Proof.
  induction operator_ids as [| o l IH]; intros r; cbn.
  - now destruct (role_of id r).
  - rewrite IH. unfold has_role.
    destruct (role_of o r) as [ro |] eqn:Ho.
    + destruct (role_of id r) eqn:Hid; [reflexivity |].
      destruct (id =? o) eqn:Heq; [| reflexivity].
      apply Z.eqb_eq in Heq. subst o. congruence.
    + rewrite role_of_set.
      destruct (id =? o) eqn:Heq; cbn.
      * apply Z.eqb_eq in Heq. subst o. now rewrite Ho.
      * reflexivity.
Qed.

Lemma role_of_keys (id : Z) (r : roles) :
  In id (map fst r) <-> role_of id r <> None.
Proof.
  induction r as [| [i ro] rest IH]; cbn; [tauto |].
  destruct (id =? i) eqn:Hi.
  - apply Z.eqb_eq in Hi. subst i. split; [discriminate | auto].
  - apply Z.eqb_neq in Hi. rewrite <- IH. split; [intros [H | H] | auto]; congruence.
Qed.

(** X10. The role of a user: an id listed among the admins is an admin,
    even when it is also listed among the operators; an id listed only among
    the operators is an operator; any other id has no role. The authorized
    ids are exactly the ids of the two lists. *)
Theorem user_roles_lookup (admin_ids operator_ids : list Z) (id : Z) :
  role_of id (_build_user_roles admin_ids operator_ids)
  = (if existsb (Z.eqb id) admin_ids then Some "admin"
     else if existsb (Z.eqb id) operator_ids then Some "operator"
     else None)
  /\ (In id (authorized_user_ids (_build_user_roles admin_ids operator_ids))
      <-> In id admin_ids \/ In id operator_ids).
Proof.
  assert (Hrole : role_of id (_build_user_roles admin_ids operator_ids)
                  = (if existsb (Z.eqb id) admin_ids then Some "admin"
                     else if existsb (Z.eqb id) operator_ids then Some "operator"
                     else None)).
  { unfold _build_user_roles. rewrite role_of_operators, role_of_admins.
    now destruct (existsb (Z.eqb id) admin_ids). }
  split; [exact Hrole |].
  unfold authorized_user_ids. rewrite role_of_keys, Hrole.
  assert (Hex : forall l, existsb (Z.eqb id) l = true <-> In id l).
  { intros l. rewrite existsb_exists. split.
    - intros (x & Hx & Heq). apply Z.eqb_eq in Heq. now subst x.
    - intros H. exists id. split; [exact H | apply Z.eqb_refl]. }
  destruct (existsb (Z.eqb id) admin_ids) eqn:Ha.
  - apply Hex in Ha. split; [auto | discriminate].
  - destruct (existsb (Z.eqb id) operator_ids) eqn:Ho.
    + apply Hex in Ho. split; [auto | discriminate].
    + split; [congruence |]. intros [H | H]; apply Hex in H; congruence.
Qed.

(** ** Lists of user ids *)

Lemma map_res_raise {A B : Type} (f : A -> res B) (l : list A) (x : A) :
  In x l -> f x = Raise -> map_res f l = Raise.
Proof.
  intros Hin Hx. induction l as [| y l IH]; [destruct Hin |].
  cbn. destruct Hin as [-> | Hin].
  - now rewrite Hx.
  - destruct (f y); cbn; [| reflexivity]. now rewrite (IH Hin).
Qed.

(** X11. One entry of ASCII text that is not blank and that [int] does not
    read empties the whole list of ids: the other entries, valid or not, are
    dropped with it. *)
Theorem one_bad_id_empties_the_list (ids_str part : string) :
  In part (split "," ids_str) ->
  isascii part = true ->
  String.eqb (strip part) "" = false ->
  int_of_string (strip part) = None ->
  parse_user_ids ids_str = [].
Proof.
  intros Hin _ Hne Hbad. unfold parse_user_ids.
  destruct (String.eqb ids_str ""); [reflexivity |].
  rewrite (map_res_raise _ _ part); [reflexivity | |].
  - apply filter_In. split; [exact Hin |]. cbv beta. unfold Urllib.nonempty. now rewrite Hne.
  - cbn. now rewrite Hbad.
Qed.

Lemma one_bad_id_empties_the_list_witness :
  parse_user_ids "1001, 10o2 ,1003" = [].
Proof.
  apply (one_bad_id_empties_the_list "1001, 10o2 ,1003" " 10o2 ").
  - vm_compute. auto.
  - reflexivity.
  - reflexivity.
  - reflexivity.
Defined.

(** *** White space *)

Lemma rstrip_by_keep (p : ascii -> bool) (c : ascii) (r : string) :
  p c = false -> rstrip_by p (String c r) = String c (rstrip_by p r).
Proof. intros Hc. cbn. rewrite Hc. now destruct (rstrip_by p r). Qed.

Lemma rstrip_by_idem (p : ascii -> bool) (s : string) :
  rstrip_by p (rstrip_by p s) = rstrip_by p s.
Proof.
  induction s as [| c r IH]; [reflexivity |].
  cbn [rstrip_by]. destruct (rstrip_by p r) as [| d t] eqn:Hr.
  - destruct (p c) eqn:Hc; [reflexivity |]. cbn. now rewrite Hc.
  - change (rstrip_by p (String c (String d t)))
      with (match rstrip_by p (String d t) with
            | EmptyString => if p c then EmptyString else String c EmptyString
            | String _ _ as r' => String c r'
            end).
    now rewrite IH.
Qed.

Lemma lstrip_by_head (p : ascii -> bool) (s : string) :
  match lstrip_by p s with
  | EmptyString => True
  | String c _ => p c = false
  end.
Proof.
  induction s as [| c r IH]; cbn; [exact I |].
  destruct (p c) eqn:Hc; [exact IH | exact Hc].
Qed.

Lemma strip_by_idem (p : ascii -> bool) (s : string) :
  rstrip_by p (lstrip_by p (rstrip_by p (lstrip_by p s))) = rstrip_by p (lstrip_by p s).
Proof.
  pose proof (lstrip_by_head p s) as Hh.
  destruct (lstrip_by p s) as [| c r]; [reflexivity |].
  rewrite (rstrip_by_keep _ _ _ Hh). cbn [lstrip_by]. rewrite Hh.
  rewrite (rstrip_by_keep _ _ _ Hh). now rewrite rstrip_by_idem.
Qed.

Lemma strip_idem (s : string) : strip (strip s) = strip s.
Proof. apply strip_by_idem. Qed.

(** Stripping a larger set of characters after a smaller one is stripping
    the larger set. *)
Lemma lstrip_by_sub (p q : ascii -> bool) (s : string) :
  (forall c, p c = true -> q c = true) ->
  lstrip_by q (lstrip_by p s) = lstrip_by q s.
Proof.
  intros Hsub. induction s as [| c r IH]; [reflexivity |].
  cbn [lstrip_by]. destruct (p c) eqn:Hc; [| reflexivity].
  now rewrite (Hsub c Hc).
Qed.

Lemma rstrip_by_sub (p q : ascii -> bool) (s : string) :
  (forall c, p c = true -> q c = true) ->
  rstrip_by q (rstrip_by p s) = rstrip_by q s.
Proof.
  intros Hsub. induction s as [| c r IH]; [reflexivity |].
  cbn [rstrip_by]. destruct (rstrip_by p r) as [| d t] eqn:Hr.
  - cbn [rstrip_by] in IH. rewrite <- IH.
    destruct (p c) eqn:Hc.
    + now rewrite (Hsub c Hc).
    + reflexivity.
  - rewrite <- IH. reflexivity.
Qed.

Lemma rstrip_by_head (p : ascii -> bool) (c d : ascii) (r t : string) :
  rstrip_by p (String c r) = String d t -> d = c.
Proof.
  cbn [rstrip_by]. destruct (rstrip_by p r); [destruct (p c) |]; congruence.
Qed.

Lemma cspace_is_space (c : ascii) : is_cspace c = true -> is_space c = true.
Proof.
  unfold is_cspace, is_space. cbv zeta.
  rewrite !orb_true_iff, !andb_true_iff, !Nat.leb_le, Nat.eqb_eq. lia.
Qed.

Lemma digit_not_space (c : ascii) (d : Z) : digit_val c = Some d -> is_space c = false.
Proof.
  unfold digit_val, is_space. cbv zeta.
  destruct ((48 <=? nat_of_ascii c) && (nat_of_ascii c <=? 57))%nat eqn:H; [| discriminate].
  intros _. apply andb_true_iff in H. rewrite !Nat.leb_le in H.
  apply orb_false_iff. split; apply andb_false_iff; rewrite !Nat.leb_gt; lia.
Qed.

(** The digits of a literal that [digits] reads start with a digit, when no
    digit went before, and end with one. *)
Lemma digits_edges (s : string) :
  forall acc prev z,
    digits s acc prev = Some z ->
    rstrip_by is_space s = s
    /\ (prev = false ->
        exists c r d, s = String c r /\ digit_val c = Some d).
Proof.
  induction s as [| c r IH]; intros acc prev z H.
  - cbn in H. split; [reflexivity |]. intros ->. discriminate H.
  - cbn [digits] in H. destruct (digit_val c) as [d |] eqn:Hd.
    + destruct (IH _ _ _ H) as [Hr _]. split.
      * rewrite (rstrip_by_keep _ _ _ (digit_not_space _ _ Hd)). now rewrite Hr.
      * intros _. exists c, r, d. auto.
    + destruct (Ascii.eqb c "_" && prev) eqn:Hu; [| discriminate H].
      apply andb_true_iff in Hu. destruct Hu as [Hc Hp].
      apply Ascii.eqb_eq in Hc. subst c.
      destruct r as [| c' r']; [discriminate H |].
      destruct (digit_val c'); [| discriminate H].
      destruct (IH _ _ _ H) as [Hr _]. split.
      * rewrite (rstrip_by_keep _ _ _ (eq_refl : is_space "_" = false)). now rewrite Hr.
      * intros ->. discriminate Hp.
Qed.

(** A text that [int] reads has nothing of the white space of [str.strip]
    around its literal but what [int] skips itself: stripping it first
    changes nothing. *)
Lemma int_of_string_strip (s : string) (z : Z) :
  int_of_string s = Some z ->
  strip s <> "" /\ int_of_string (strip s) = Some z.
Proof.
  intros H.
  assert (Heq : strip s = rstrip_by is_cspace (lstrip_by is_cspace s)).
  { unfold int_of_string in H. cbv zeta in H.
    set (u := lstrip_by is_cspace s) in *.
    set (t := rstrip_by is_cspace u) in *.
    assert (Ht : rstrip_by is_space t = t
                 /\ exists c r, t = String c r /\ is_space c = false).
    { destruct t as [| c r] eqn:Et; [discriminate H |].
      destruct (Ascii.eqb c "-") eqn:Hm; [| destruct (Ascii.eqb c "+") eqn:Hp].
      - apply Ascii.eqb_eq in Hm. subst c.
        destruct (digits r 0 false) as [z' |] eqn:Hz; [| discriminate H].
        destruct (digits_edges _ _ _ _ Hz) as [Hr _]. split.
        + rewrite (rstrip_by_keep _ _ _ (eq_refl : is_space "-" = false)). now rewrite Hr.
        + exists "-"%char, r. auto.
      - apply Ascii.eqb_eq in Hp. subst c.
        destruct (digits r 0 false) as [z' |] eqn:Hz; [| discriminate H].
        destruct (digits_edges _ _ _ _ Hz) as [Hr _]. split.
        + rewrite (rstrip_by_keep _ _ _ (eq_refl : is_space "+" = false)). now rewrite Hr.
        + exists "+"%char, r. auto.
      - assert (Hz : exists z', digits (String c r) 0 false = Some z').
        { destruct c as [[] [] [] [] [] [] [] []]; try discriminate Hm; try discriminate Hp;
            (destruct (digits _ 0 false) as [z' |]; [now exists z' | discriminate H]). }
        destruct Hz as (z' & Hz).
        destruct (digits_edges _ _ _ _ Hz) as [Hr Hhead]. split; [exact Hr |].
        destruct (Hhead eq_refl) as (c' & r' & d & [= <- <-] & Hd).
        exists c, r. split; [reflexivity |]. exact (digit_not_space _ _ Hd). }
    destruct Ht as (Hr & c & r & Et & Hc). unfold strip.
    rewrite <- (lstrip_by_sub is_cspace is_space s cspace_is_space). fold u.
    assert (Hu : exists r', u = String c r').
    { destruct u as [| c' r']; [discriminate Et |].
      unfold t in Et. apply rstrip_by_head in Et. subst c'. now exists r'. }
    destruct Hu as (r' & Hu). rewrite Hu. cbn [lstrip_by]. rewrite Hc. rewrite <- Hu.
    rewrite <- (rstrip_by_sub is_cspace is_space u cspace_is_space). exact Hr. }
  split.
  - rewrite Heq. intros Ht. unfold int_of_string in H. cbv zeta in H. rewrite Ht in H.
    discriminate H.
  - unfold int_of_string in H |- *. cbv zeta in H |- *. rewrite Heq, strip_by_idem. exact H.
Qed.

Lemma ids_agree (parts : list string) :
  forall ids,
    map_res (fun id => int (JStr id)) (filter (fun id => negb (String.eqb id "")) parts)
    = Ok ids ->
    map_res (fun id => int (JStr (strip id)))
            (filter (fun id => Urllib.nonempty (strip id)) parts)
    = Ok ids.
Proof.
  induction parts as [| part l IH]; intros ids H; [exact H |].
  cbn [filter] in *. destruct (String.eqb part "") eqn:Hp.
  - apply String.eqb_eq in Hp. subst part.
    change (Urllib.nonempty (strip "")) with false. cbn [negb] in H. now apply IH.
  - cbn [negb map_res] in H. unfold int at 1 in H.
    destruct (int_of_string part) as [z |] eqn:Hz; [| discriminate H].
    destruct (int_of_string_strip _ _ Hz) as [Hne Hz'].
    apply String.eqb_neq in Hne.
    unfold Urllib.nonempty. rewrite Hne.
    cbn [negb map_res]. unfold int at 1. rewrite Hz'.
    cbn [bind] in H |- *.
    destruct (map_res (fun id => int (JStr id))
                (filter (fun id => negb (String.eqb id "")) l)) as [zs |];
      [| discriminate H].
    pose proof (IH zs eq_refl) as IH'. unfold Urllib.nonempty in IH'.
    rewrite IH'. exact H.
Qed.

(** X12. The two readings of the list of admin ids agree on ASCII text:
    whenever [main] reads the list without an exception - every entry that
    is not empty is then a number that [int] reads - the configuration
    module reads the same ids from the same text. *)
Theorem admin_ids_agree (ids_str : string) (ids : list Z) :
  isascii ids_str = true ->
  Main.admin_user_ids ids_str = Ok ids -> parse_user_ids ids_str = ids.
Proof.
  unfold Main.admin_user_ids, parse_user_ids. intros _ H.
  destruct (String.eqb ids_str "") eqn:He.
  - apply String.eqb_eq in He. subst ids_str. cbn in H. congruence.
  - now rewrite (ids_agree _ _ H).
Qed.

Lemma admin_ids_agree_witness : parse_user_ids "1001,,1002" = [1001; 1002].
Proof. apply admin_ids_agree; reflexivity. Defined.

(** ** Cookies *)

Lemma sappend_assoc (a b c : string) : ((a ++ b) ++ c = a ++ (b ++ c))%string.
Proof. induction a as [| x a IH]; cbn; [reflexivity | now rewrite IH]. Qed.

Lemma forallb_str_app (p : ascii -> bool) (a b : string) :
  forallb_str p (a ++ b) = forallb_str p a && forallb_str p b.
Proof.
  induction a as [| x a IH]; cbn; [reflexivity |].
  rewrite IH. now rewrite andb_assoc.
Qed.

Lemma forallb_str_weaken (p q : ascii -> bool) (s : string) :
  (forall c, p c = true -> q c = true) ->
  forallb_str p s = true -> forallb_str q s = true.
Proof.
  intros Hpq. induction s as [| c r IH]; cbn; [reflexivity |].
  rewrite !andb_true_iff. intros [Hc Hr]. auto.
Qed.

Lemma contains_char_none (c : ascii) (s : string) :
  forallb_str (fun d => negb (Ascii.eqb c d)) s = true -> contains_char c s = false.
Proof.
  induction s as [| d r IH]; cbn; [reflexivity |].
  rewrite andb_true_iff, negb_true_iff. intros [-> Hr]. now apply IH.
Qed.

Lemma split_no_sep (c : ascii) (a : string) :
  contains_char c a = false -> split c a = [a].
Proof.
  induction a as [| d r IH]; cbn; [reflexivity |].
  rewrite orb_false_iff. intros [-> Hr]. now rewrite (IH Hr).
Qed.

Lemma split_app_sep (c : ascii) (a b : string) :
  contains_char c a = false -> split c (a ++ String c b) = a :: split c b.
Proof.
  induction a as [| d r IH]; cbn.
  - intros _. now rewrite Ascii.eqb_refl.
  - rewrite orb_false_iff. intros [-> Hr]. now rewrite (IH Hr).
Qed.

Lemma cut_app_sep (c : ascii) (a b : string) :
  contains_char c a = false -> cut c (a ++ String c b) = Some (a, b).
Proof.
  induction a as [| d r IH]; cbn.
  - intros _. now rewrite Ascii.eqb_refl.
  - rewrite orb_false_iff. intros [-> Hr]. now rewrite (IH Hr).
Qed.

Lemma rstrip_by_none (p : ascii -> bool) (s : string) :
  forallb_str (fun c => negb (p c)) s = true -> rstrip_by p s = s.
Proof.
  induction s as [| c r IH]; [reflexivity |].
  cbn [forallb_str]. rewrite andb_true_iff, negb_true_iff. intros [Hc Hr].
  rewrite (rstrip_by_keep _ _ _ Hc). now rewrite (IH Hr).
Qed.

Lemma lstrip_by_none (p : ascii -> bool) (s : string) :
  forallb_str (fun c => negb (p c)) s = true -> lstrip_by p s = s.
Proof.
  destruct s as [| c r]; [reflexivity |].
  cbn. rewrite andb_true_iff, negb_true_iff. now intros [-> _].
Qed.

Lemma cookie_token_facts (s : string) :
  cookie_token s = true ->
  String.eqb s "" = false
  /\ forallb_str (fun c => negb (is_space c)) s = true
  /\ contains_char ";" s = false
  /\ contains_char "=" s = false.
Proof.
  unfold cookie_token. rewrite andb_true_iff, negb_true_iff. intros [Hne Hall].
  split; [exact Hne |].
  assert (Hc : forall c, cookie_char c = true ->
                         negb (is_space c) = true
                         /\ negb (Ascii.eqb ";" c) = true
                         /\ negb (Ascii.eqb "=" c) = true).
  { intros c. unfold cookie_char. rewrite !andb_true_iff.
    rewrite (Ascii.eqb_sym c ";"), (Ascii.eqb_sym c "="). tauto. }
  split; [| split].
  - eapply forallb_str_weaken; [| exact Hall]. intros c H. now apply Hc.
  - apply contains_char_none. eapply forallb_str_weaken; [| exact Hall].
    intros c H. now apply Hc.
  - apply contains_char_none. eapply forallb_str_weaken; [| exact Hall].
    intros c H. now apply Hc.
Qed.

(** One [name=value] part of a header, with or without the space that
    follows a [;], adds the cookie. *)
Lemma add_cookie_part_pair (acc : sdict) (sp n v : string) :
  sp = "" \/ sp = " " ->
  cookie_token n = true -> cookie_token v = true ->
  add_cookie_part acc (sp ++ n ++ "=" ++ v) = sdict_set n v acc
  /\ contains_char ";" (sp ++ n ++ "=" ++ v) = false.
Proof.
  intros Hsp Hn Hv.
  destruct (cookie_token_facts n Hn) as (Hn1 & Hn2 & Hn3 & Hn4).
  destruct (cookie_token_facts v Hv) as (Hv1 & Hv2 & Hv3 & Hv4).
  assert (Hall : forallb_str (fun c => negb (is_space c)) (n ++ "=" ++ v) = true).
  { rewrite forallb_str_app, Hn2. cbn. exact Hv2. }
  assert (Hstrip : strip (sp ++ n ++ "=" ++ v) = (n ++ "=" ++ v)%string).
  { remember (n ++ "=" ++ v)%string as t eqn:Ht. unfold strip.
    destruct Hsp as [-> | ->].
    - change ("" ++ t)%string with t.
      rewrite (lstrip_by_none _ _ Hall). now apply rstrip_by_none.
    - change (lstrip_by is_space (" " ++ t)) with (lstrip_by is_space t).
      rewrite (lstrip_by_none _ _ Hall). now apply rstrip_by_none. }
  split.
  - unfold add_cookie_part, partition_eq. rewrite Hstrip.
    change ("=" ++ v)%string with (String "=" v).
    rewrite (cut_app_sep _ _ _ Hn4). unfold Urllib.nonempty. now rewrite Hn1, Hv1.
  - assert (H : contains_char ";" (n ++ "=" ++ v) = false).
    { apply contains_char_none. rewrite forallb_str_app.
      rewrite andb_true_iff. split.
      - clear - Hn3. induction n as [| c r IH]; cbn in *; [reflexivity |].
        apply orb_false_iff in Hn3. destruct Hn3 as [-> Hr]. now rewrite IH.
      - cbn. clear - Hv3. induction v as [| c r IH]; cbn in *; [reflexivity |].
        apply orb_false_iff in Hv3. destruct Hv3 as [-> Hr]. now rewrite IH. }
    destruct Hsp as [-> | ->]; [exact H |]. cbn. exact H.
Qed.

Lemma parse_cookie_header_fold (d : sdict) :
  Forall cookie_pair d ->
  forall sp acc,
    sp = "" \/ sp = " " ->
    fold_left add_cookie_part (split ";" (sp ++ cookie_header d)) acc
    = fold_left (fun a p => sdict_set (fst p) (snd p) a) d acc.
Proof.
  induction 1 as [| [n v] r [Hn Hv] Hr IH]; intros sp acc Hsp.
  - cbn [cookie_header fold_left]. destruct Hsp as [-> | ->]; reflexivity.
  - cbn [fst snd] in Hn, Hv.
    destruct (add_cookie_part_pair acc sp n v Hsp Hn Hv) as [Hadd Hsemi].
    cbn [cookie_header fold_left fst snd]. destruct r as [| p r'].
    + rewrite (split_no_sep _ _ Hsemi). cbn [fold_left]. now rewrite Hadd.
    + replace (sp ++ n ++ "=" ++ v ++ "; " ++ cookie_header (p :: r'))%string
        with ((sp ++ n ++ "=" ++ v) ++ String ";" (" " ++ cookie_header (p :: r')))%string.
      2:{ rewrite !sappend_assoc. reflexivity. }
      rewrite (split_app_sep _ _ _ Hsemi). cbn [fold_left]. rewrite Hadd.
      apply IH. now right.
Qed.

Lemma sdict_set_fresh (n v : string) (acc : sdict) :
  ~ In n (map fst acc) -> sdict_set n v acc = (acc ++ [(n, v)])%list.
Proof.
  induction acc as [| [k x] r IH]; cbn; [reflexivity |].
  intros H. destruct (String.eqb n k) eqn:Hk.
  - apply String.eqb_eq in Hk. subst k. exfalso. auto.
  - rewrite IH; [reflexivity |]. auto.
Qed.

Lemma sdict_fold_fresh (d : sdict) :
  forall acc,
    NoDup (map fst (acc ++ d)) ->
    fold_left (fun a p => sdict_set (fst p) (snd p) a) d acc = (acc ++ d)%list.
Proof.
  induction d as [| [n v] r IH]; intros acc Hnd; cbn [fold_left fst snd].
  - now rewrite app_nil_r.
  - rewrite sdict_set_fresh.
    + rewrite IH; rewrite <- app_assoc; [reflexivity | exact Hnd].
    + rewrite map_app in Hnd. cbn in Hnd. apply NoDup_remove_2 in Hnd.
      intros H. apply Hnd. apply in_or_app. now left.
Qed.

(** X13. Reading a cookie header gives back the cookies it was written
    from: for cookies with distinct names, whose names and values are ASCII
    text, not empty and without white space, [;] or [=], parsing
    [name=value; name2=value2; ...] returns the same names and values in the
    same order. The loader does the same whenever the text is not JSON. *)
Theorem cookie_header_round_trip (json_loads : string -> res json) (d : sdict) :
  Forall cookie_pair d ->
  NoDup (map fst d) ->
  _parse_cookie_header (cookie_header d) = d
  /\ (json_loads (cookie_header d) = Raise ->
      _load_api_cookies json_loads (cookie_header d) = d).
Proof.
  intros Hd Hnd.
  assert (Hparse : _parse_cookie_header (cookie_header d) = d).
  { unfold _parse_cookie_header.
    pose proof (parse_cookie_header_fold d Hd "" [] (or_introl eq_refl)) as Hfold.
    change ("" ++ cookie_header d)%string with (cookie_header d) in Hfold.
    rewrite Hfold. now rewrite sdict_fold_fresh. }
  split; [exact Hparse |].
  intros Hjson. unfold _load_api_cookies. rewrite Hjson, Hparse.
  destruct (String.eqb (cookie_header d) "") eqn:He; [| reflexivity].
  apply String.eqb_eq in He. rewrite He in Hparse. cbn in Hparse. congruence.
Qed.

Lemma cookie_header_round_trip_witness :
  _parse_cookie_header "a=1; b=2" = [("a", "1"); ("b", "2")].
Proof.
  refine (proj1 (cookie_header_round_trip (fun _ => Raise) [("a", "1"); ("b", "2")] _ _)).
  - repeat constructor.
  - repeat constructor; cbn; intuition discriminate.
Defined.





(** ** Base URL: when the normalization returns *)

Lemma forallb_str_lstrip (P p : ascii -> bool) (s : string) :
  forallb_str P s = true -> forallb_str P (lstrip_by p s) = true.
Proof.
  induction s as [| c r IH]; [reflexivity |]. cbn [lstrip_by].
  destruct (p c); [| tauto]. cbn. rewrite andb_true_iff. tauto.
Qed.

Lemma forallb_str_rstrip (P p : ascii -> bool) (s : string) :
  forallb_str P s = true -> forallb_str P (rstrip_by p s) = true.
Proof.
  induction s as [| c r IH]; [reflexivity |]. cbn [rstrip_by forallb_str].
  rewrite andb_true_iff. intros [Hc Hr]. specialize (IH Hr).
  destruct (rstrip_by p r); [destruct (p c) |]; cbn in *; rewrite ?Hc; auto.
Qed.

Lemma forallb_str_remove (P p : ascii -> bool) (s : string) :
  forallb_str P s = true -> forallb_str P (remove_chars p s) = true.
Proof.
  induction s as [| c r IH]; [reflexivity |]. cbn [remove_chars forallb_str].
  rewrite andb_true_iff. intros [Hc Hr].
  destruct (p c); [auto |]. cbn. rewrite Hc. auto.
Qed.

Lemma forallb_str_cut (P : ascii -> bool) (c : ascii) (s a b : string) :
  forallb_str P s = true -> cut c s = Some (a, b) ->
  forallb_str P a = true /\ forallb_str P b = true.
Proof.
  revert a b. induction s as [| d r IH]; intros a b; [discriminate |].
  cbn [cut forallb_str]. rewrite andb_true_iff. intros [Hd Hr].
  destruct (Ascii.eqb c d).
  - intros [= <- <-]. auto.
  - destruct (cut c r) as [[a' b'] |]; [| discriminate].
    intros [= <- <-]. destruct (IH a' b' Hr eq_refl) as [Ha Hb].
    cbn. rewrite Hd. auto.
Qed.

Lemma forallb_str_break (P p : ascii -> bool) (s : string) :
  forallb_str P s = true ->
  forallb_str P (fst (break p s)) = true /\ forallb_str P (snd (break p s)) = true.
Proof.
  induction s as [| d r IH]; [auto |].
  cbn [break forallb_str]. rewrite andb_true_iff. intros [Hd Hr].
  destruct (p d).
  - cbn. rewrite Hd. auto.
  - destruct (IH Hr) as [Ha Hb]. destruct (break p r) as [a b]. cbn in *.
    rewrite Hd. auto.
Qed.

Lemma plain_url_text_spec (s : string) :
  plain_url_text s = true
  <-> isascii s = true /\ contains_char "[" s = false /\ contains_char "]" s = false.
Proof.
  unfold plain_url_text. induction s as [| c r IH]; cbn; [tauto |].
  rewrite !andb_true_iff, !orb_false_iff, !negb_true_iff, IH. tauto.
Qed.

(** [urlparse] refuses a bracketed host or one that is not ASCII, nothing
    else. *)
Lemma urlparse_plain (check_host nfkc_safe : string -> bool) (url : string) :
  plain_url_text url = true ->
  exists parsed, urlparse check_host nfkc_safe url = Ok parsed.
Proof.
  intros Hurl. unfold urlparse.
  assert (H1 : plain_url_text (remove_chars unsafe_byte (lstrip_by c0_or_space url)) = true)
    by now apply forallb_str_remove, forallb_str_lstrip.
  set (url1 := remove_chars unsafe_byte (lstrip_by c0_or_space url)) in *. clearbody url1.
  assert (H2 : forall sch url2,
             plain_url_text url2 = true ->
             exists parsed,
               (let '(nl, url3) :=
                  match url2 with
                  | String "/" (String "/" r) => break netloc_delim r
                  | _ => (EmptyString, url2)
                  end in
                if xorb (contains_char "[" nl) (contains_char "]" nl) then Raise
                else if contains_char "[" nl && contains_char "]" nl
                        && negb (_check_bracketed_netloc check_host nl)
                then Raise
                else
                  let '(url4, frag) :=
                    match cut "#" url3 with Some p => p | None => (url3, EmptyString) end in
                  let '(url5, q) :=
                    match cut "?" url4 with Some p => p | None => (url4, EmptyString) end in
                  if negb (_checknetloc nfkc_safe nl) then Raise
                  else
                    let '(url6, prm) :=
                      if mem sch uses_params && contains_char ";" url5 then splitparams url5
                      else (url5, EmptyString) in
                    Ok (mkParse sch nl url6 prm q frag)) = Ok parsed).
  { intros sch url2 Hu2.
    assert (Hnl : exists nl url3,
               match url2 with
               | String "/" (String "/" r) => break netloc_delim r
               | _ => (EmptyString, url2)
               end = (nl, url3)
               /\ plain_url_text nl = true).
    { destruct url2 as [| c0 [| c1 r]].
      { exists EmptyString, EmptyString. split; reflexivity. }
      { exists EmptyString, (String c0 EmptyString). split; [| reflexivity].
        destruct c0 as [[] [] [] [] [] [] [] []]; reflexivity. }
      assert (Hr : plain_url_text r = true).
      { cbn in Hu2. rewrite !andb_true_iff in Hu2. tauto. }
      destruct (forallb_str_break _ netloc_delim r Hr) as [Ha _].
      destruct (Ascii.eqb c0 "/") eqn:E0; [apply Ascii.eqb_eq in E0; subst c0 |].
      - destruct (Ascii.eqb c1 "/") eqn:E1; [apply Ascii.eqb_eq in E1; subst c1 |].
        + exists (fst (break netloc_delim r)), (snd (break netloc_delim r)).
          split; [now destruct (break netloc_delim r) | exact Ha].
        + exists EmptyString, (String "/" (String c1 r)). split; [| reflexivity].
          destruct c1 as [[] [] [] [] [] [] [] []]; try reflexivity. discriminate E1.
      - exists EmptyString, (String c0 (String c1 r)). split; [| reflexivity].
        destruct c0 as [[] [] [] [] [] [] [] []]; try reflexivity. discriminate E0. }
    destruct Hnl as (nl & url3 & -> & Hnl).
    apply plain_url_text_spec in Hnl. destruct Hnl as (Ha & Ho & Hc).
    rewrite Ho, Hc. cbn [xorb andb].
    destruct (match cut "#" url3 with Some p => p | None => (url3, EmptyString) end)
      as [url4 frag].
    destruct (match cut "?" url4 with Some p => p | None => (url4, EmptyString) end)
      as [url5 q].
    unfold _checknetloc. rewrite Ha, orb_true_r. cbn [negb].
    destruct (if mem sch uses_params && contains_char ";" url5 then splitparams url5
              else (url5, EmptyString)) as [url6 prm].
    eexists. reflexivity. }
  destruct (cut ":" url1) as [[[| c r] rest] |] eqn:Hcut; try (apply H2; exact H1).
  destruct (is_alpha c && forallb_str scheme_char (String c r)); apply H2; [| exact H1].
  now destruct (forallb_str_cut _ _ _ _ _ H1 Hcut).
Qed.

(** X15. Base URL normalization returns a URL for every value that is ASCII
    text without square brackets: it fails only where [urlparse] refuses a
    bracketed host or a host that is not ASCII. *)
Theorem normalize_returns_without_brackets
    (unicode_strip : string -> string) (check_host nfkc_safe : string -> bool)
    (value : string) :
  isascii value = true ->
  contains_char "[" value = false ->
  contains_char "]" value = false ->
  exists url, _normalize_api_base_url unicode_strip check_host nfkc_safe value = Ok url.
Proof.
  intros Ha Ho Hc. unfold _normalize_api_base_url, strip_or. rewrite Ha.
  destruct (String.eqb (strip value) ""); [now eexists |].
  destruct (urlparse_plain check_host nfkc_safe (strip value)) as (parsed & ->).
  - apply forallb_str_rstrip, forallb_str_lstrip, plain_url_text_spec. auto.
  - cbn [bind]. now eexists.
Qed.

Lemma normalize_returns_without_brackets_witness :
  exists url,
    _normalize_api_base_url (fun s => s) (fun _ => false) (fun _ => false)
      "  https://panel.example/base/?x=1 "
    = Ok url.
Proof.
  apply normalize_returns_without_brackets; reflexivity.
Defined.

(** ** Status values *)

Lemma head_not_active (c : ascii) (r : string) :
  is_space c = false ->
  existsb (Ascii.eqb (upper_char c)) ["A"; "E"; "T"; "O"]%char = false ->
  existsb (String.eqb (upper (strip (String c r)))) active_words = false.
Proof.
  intros Hsp Hc. unfold strip. cbn [lstrip_by]. rewrite Hsp.
  rewrite (rstrip_by_keep _ _ _ Hsp). cbn [upper smap existsb active_words String.eqb].
  cbn [existsb] in Hc. rewrite !orb_false_iff in Hc.
  destruct Hc as (-> & -> & -> & -> & _). reflexivity.
Qed.

Lemma dec_head (z : Z) :
  exists c r, dec z = String c r
              /\ is_space c = false
              /\ existsb (Ascii.eqb (upper_char c)) ["A"; "E"; "T"; "O"]%char = false.
Proof.
  unfold dec. destruct (Z.to_int z) as [u | u]; destruct u; cbn;
    eexists; eexists; (split; [reflexivity |]); split; reflexivity.
Qed.

(** X16. Only the boolean [true] and strings can be active statuses: null,
    [false], every number, every array and every object are inactive. The
    boolean [true] and each of the words ACTIVE, ENABLED, TRUE and ON are
    active. *)
Theorem active_status_values (value : json) :
  (_is_active_status value = true -> value = JBool true \/ exists s, value = JStr s)
  /\ _is_active_status (JBool true) = true
  /\ Forall (fun w => _is_active_status (JStr w) = true) active_words.
Proof.
  split; [| split; [reflexivity | repeat constructor]].
  destruct value as [| b | z | s | l | kv].
  - discriminate.
  - cbn. intros ->. now left.
  - change (_is_active_status (JNum z))
      with (existsb (String.eqb (upper (strip (dec z)))) active_words).
    destruct (dec_head z) as (c & r & -> & Hsp & Hc).
    rewrite (head_not_active c r Hsp Hc). discriminate.
  - intros _. right. now exists s.
  - change (_is_active_status (JList l))
      with (existsb (String.eqb (upper (strip (repr (JList l))))) active_words).
    cbn [repr]. change ("[" ++ ?x)%string with (String "[" x).
    rewrite head_not_active by reflexivity. discriminate.
  - change (_is_active_status (JObj kv))
      with (existsb (String.eqb (upper (strip (repr (JObj kv))))) active_words).
    cbn [repr]. change ("{" ++ ?x)%string with (String "{" x).
    rewrite head_not_active by reflexivity. discriminate.
Qed.

Lemma upper_char_facts (c : ascii) :
  is_space (upper_char c) = is_space c
  /\ is_space (lower_char c) = is_space c
  /\ upper_char (upper_char c) = upper_char c
  /\ upper_char (lower_char c) = upper_char c.
Proof.
  destruct c as [[] [] [] [] [] [] [] []]; repeat split; reflexivity.
Qed.

Lemma lstrip_by_smap (p : ascii -> bool) (f : ascii -> ascii) (s : string) :
  (forall c, p (f c) = p c) ->
  lstrip_by p (smap f s) = smap f (lstrip_by p s).
Proof.
  intros Hf. induction s as [| c r IH]; [reflexivity |].
  cbn. rewrite Hf. now destruct (p c).
Qed.

Lemma rstrip_by_smap (p : ascii -> bool) (f : ascii -> ascii) (s : string) :
  (forall c, p (f c) = p c) ->
  rstrip_by p (smap f s) = smap f (rstrip_by p s).
Proof.
  intros Hf. induction s as [| c r IH]; [reflexivity |].
  cbn [smap rstrip_by]. rewrite IH, Hf.
  destruct (rstrip_by p r); cbn [smap]; [now destruct (p c) | reflexivity].
Qed.

Lemma smap_smap (f g : ascii -> ascii) (s : string) :
  smap f (smap g s) = smap (fun c => f (g c)) s.
Proof. induction s as [| c r IH]; cbn; [reflexivity | now rewrite IH]. Qed.

Lemma smap_ext (f g : ascii -> ascii) (s : string) :
  (forall c, f c = g c) -> smap f s = smap g s.
Proof.
  intros H. induction s as [| c r IH]; cbn; [reflexivity | now rewrite H, IH].
Qed.

(** X17. The status test ignores letter case and surrounding white space:
    a status string, its lower-case form, its upper-case form and its
    trimmed form are all active or all inactive. *)
Theorem active_status_ignores_case (s : string) :
  _is_active_status (JStr (lower s)) = _is_active_status (JStr s)
  /\ _is_active_status (JStr (upper s)) = _is_active_status (JStr s)
  /\ _is_active_status (JStr (strip s)) = _is_active_status (JStr s).
Proof.
  assert (Hf : forall f,
             (forall c, is_space (f c) = is_space c) ->
             (forall c, upper_char (f c) = upper_char c) ->
             upper (strip (smap f s)) = upper (strip s)).
  { intros f Hsp Hup. unfold strip, upper.
    rewrite (lstrip_by_smap _ _ _ Hsp), (rstrip_by_smap _ _ _ Hsp), smap_smap.
    now apply smap_ext. }
  unfold _is_active_status, str. split; [| split].
  - unfold lower. rewrite Hf; [reflexivity | |]; intros c; apply upper_char_facts.
  - unfold upper at 2. rewrite Hf; [reflexivity | |]; intros c; apply upper_char_facts.
  - now rewrite strip_idem.
Qed.

(** ** The resolver: what it returns *)

Lemma scan_users_malformed (B : backend) (uuid : string) (t : json) (ps users : list json)
    (bad : json) :
  In bad users -> is_dict bad = false ->
  forall acc, scan_users B uuid t ps users acc = Raise.
Proof.
  intros Hin Hbad. induction users as [| u r IH]; intros acc; [destruct Hin |].
  cbn [scan_users]. destruct Hin as [-> | Hin].
  - unfold scan_user. destruct bad; try reflexivity. discriminate Hbad.
  - destruct (scan_user B uuid t ps u acc); cbn [bind]; [now apply IH | reflexivity].
Qed.

(** X18. One entry of the users list that is not an object makes the whole
    query come back empty, whatever the other users are. *)
Theorem malformed_user_empties_result (B : backend) (inbound_uuid : string)
    (users : list json) (bad : json) :
  get_all_users B = Ok (JList users) ->
  In bad users ->
  is_dict bad = false ->
  get_inbound_users B inbound_uuid = [].
Proof.
  intros Hall Hin Hbad. unfold get_inbound_users, get_inbound_users_body.
  rewrite Hall. cbn [bind].
  assert (Htruthy : truthy (JList users) = true)
    by (destruct users; [destruct Hin | reflexivity]).
  rewrite Htruthy. cbn [negb has_len iter bind].
  now rewrite (scan_users_malformed B inbound_uuid _ _ users bad Hin Hbad).
Qed.

Lemma malformed_user_empties_result_witness :
  get_inbound_users
    (Scenario.backend_with [Scenario.U1_nested; Scenario.U2; JStr "oops"]) "I1"
  = [].
Proof.
  apply (malformed_user_empties_result _ "I1"
           [Scenario.U1_nested; Scenario.U2; JStr "oops"] (JStr "oops")).
  - reflexivity.
  - cbn. auto.
  - reflexivity.
Defined.

Lemma scan_user_grows (B : backend) (uuid : string) (t : json) (ps : list json)
    (u : json) (acc acc' : list json) :
  scan_user B uuid t ps u acc = Ok acc' ->
  acc' = acc
  \/ (active_user u /\ (acc' = (acc ++ [u])%list \/ acc' = ((acc ++ [u]) ++ [u])%list)).
Proof.
  unfold scan_user. destruct u as [| | | | | kv]; try discriminate.
  cbn [get get_or bind].
  destruct (_is_active_status (dict_get kv "status" JNull)) eqn:Hact; cbn [negb].
  - assert (Hu : active_user (JObj kv)) by (exists kv; auto).
    cbv zeta.
    set (direct := existsb _ _).
    set (acc1 := if direct then (acc ++ [JObj kv])%list else acc).
    assert (Hacc1 : acc1 = acc \/ acc1 = (acc ++ [JObj kv])%list)
      by (subst acc1; destruct direct; auto).
    clearbody acc1.
    match goal with |- context [negb (truthy ?c)] => set (cpu := c) end.
    clearbody cpu. clear direct.
    destruct (negb (truthy cpu)).
    { intros H. injection H as <-. destruct Hacc1 as [-> | ->]; auto. }
    destruct (match ps with [] => Ok false | _ :: _ => set_mem cpu ps end)
      as [fast |]; cbn [bind]; [| discriminate].
    destruct fast.
    { intros H. injection H as <-. destruct Hacc1 as [-> | ->]; auto. }
    intros H. injection H as <-.
    destruct (get_profile_inbounds B (JStr (str cpu))) as [pis |]; cbn [bind catch].
    2:{ destruct Hacc1 as [-> | ->]; auto. }
    destruct (iter (por pis (JList []))) as [l |]; cbn [bind catch].
    2:{ destruct Hacc1 as [-> | ->]; auto. }
    destruct (existsb (fun pi => matches_inbound_ref uuid pi t) l);
      destruct Hacc1 as [-> | ->]; auto.
  - intros H. injection H as <-. now left.
Qed.

Lemma Forall_snoc {A : Type} (P : A -> Prop) (l : list A) (x : A) :
  Forall P l -> P x -> Forall P (l ++ [x]).
Proof. intros Hl Hx. apply Forall_app. split; [exact Hl | now constructor]. Qed.

Lemma scan_users_active (B : backend) (uuid : string) (t : json) (ps users : list json) :
  forall acc acc',
    Forall active_user acc ->
    scan_users B uuid t ps users acc = Ok acc' ->
    Forall active_user acc'.
Proof.
  induction users as [| u r IH]; intros acc acc' Hacc H; cbn [scan_users] in H.
  - now injection H as <-.
  - destruct (scan_user B uuid t ps u acc) as [acc1 |] eqn:Hu; cbn [bind] in H;
      [| discriminate H].
    apply (IH acc1 acc'); [| exact H].
    destruct (scan_user_grows _ _ _ _ _ _ _ Hu) as [-> | [Ha [-> | ->]]];
      auto using Forall_snoc.
Qed.

Lemma legacy_user_grows (uuid : string) (t u : json) (acc acc' : list json) :
  legacy_user uuid t u acc = Ok acc' ->
  acc' = acc
  \/ (active_user u /\ (acc' = (acc ++ [u])%list \/ acc' = ((acc ++ [u]) ++ [u])%list)).
Proof.
  unfold legacy_user. destruct u as [| | | | | kv]; try discriminate.
  cbn [get get_or bind].
  destruct (_is_active_status (dict_get kv "status" JNull)) eqn:Hact.
  - assert (Hu : active_user (JObj kv)) by (exists kv; auto).
    destruct (some_ref_matches uuid t (dict_get kv "inbounds" (JList []))) as [b1 |];
      cbn [bind]; [| discriminate].
    destruct (some_ref_matches uuid t (dict_get kv "activeInbounds" (JList []))) as [b2 |];
      cbn [bind]; [| discriminate].
    intros H. injection H as <-. destruct b1, b2; auto.
  - intros H. injection H as <-. now left.
Qed.

Lemma legacy_users_active (uuid : string) (t : json) (users : list json) :
  forall acc acc',
    Forall active_user acc ->
    legacy_users uuid t users acc = Ok acc' ->
    Forall active_user acc'.
Proof.
  induction users as [| u r IH]; intros acc acc' Hacc H; cbn [legacy_users] in H.
  - now injection H as <-.
  - destruct (legacy_user uuid t u acc) as [acc1 |] eqn:Hu; cbn [bind] in H;
      [| discriminate H].
    apply (IH acc1 acc'); [| exact H].
    destruct (legacy_user_grows _ _ _ _ _ Hu) as [-> | [Ha [-> | ->]]];
      auto using Forall_snoc.
Qed.

Lemma tag_users_active (t_tag : string) (users : list json) :
  forall acc, Forall active_user acc -> Forall active_user (tag_users t_tag users acc).
Proof.
  induction users as [| u r IH]; intros acc Hacc; cbn [tag_users]; [exact Hacc |].
  destruct u as [| | | | | kv]; try exact Hacc.
  cbn [get get_or].
  destruct (_is_active_status (dict_get kv "status" JNull)) eqn:Hact; cbn [negb].
  - destruct (_ && _); apply IH; [| exact Hacc].
    apply Forall_snoc; [exact Hacc |]. exists kv. auto.
  - now apply IH.
Qed.

Lemma add_profile_users_from (P : json -> Prop) (l : list json) :
  (forall u, In u l -> is_dict u = true -> P u) ->
  forall st, Forall P (fst st) -> Forall P (fst (add_profile_users l st)).
Proof.
  induction l as [| u r IH]; intros Hl st Hst; cbn [add_profile_users]; [exact Hst |].
  assert (Hr : forall x, In x r -> is_dict x = true -> P x)
    by (intros x Hx; apply Hl; now right).
  destruct u as [| | | | | kv]; try (now apply IH).
  destruct (_ && _); apply IH; try assumption.
  cbn [fst]. apply Forall_snoc; [exact Hst |]. apply Hl; [now left | reflexivity].
Qed.

Lemma profile_users_fallback_from (B : backend) (P : json -> Prop) (ps : list json) :
  (forall p p_users l u,
      In p ps -> get_profile_users B p = Ok p_users ->
      iter (por p_users (JList [])) = Ok l -> In u l -> is_dict u = true -> P u) ->
  forall st, Forall P (fst st) -> Forall P (fst (profile_users_fallback B ps st)).
Proof.
  induction ps as [| p r IH]; intros Hps st Hst; cbn [profile_users_fallback];
    [exact Hst |].
  apply IH; [intros; eapply Hps; eauto; now right |].
  destruct (get_profile_users B p) as [pu |] eqn:Hpu; cbn [bind]; [| exact Hst].
  destruct (iter (por pu (JList []))) as [l |] eqn:Hl; [| exact Hst].
  apply add_profile_users_from; [| exact Hst].
  intros u Hu Hd. eapply Hps; eauto. now left.
Qed.

Lemma get_inbound_users_sources (B : backend) (inbound_uuid : string) :
  Forall active_user (get_inbound_users B inbound_uuid)
  \/ Forall (from_profile_users B inbound_uuid) (get_inbound_users B inbound_uuid).
Proof.
  unfold get_inbound_users, get_inbound_users_body.
  destruct (get_all_users B) as [resp |]; cbn [bind catch]; [| now left].
  destruct (negb (truthy resp)); cbn [catch]; [now left |].
  set (users := match resp with
                | JObj kv => if has_key "users" kv then dict_get kv "users" JNull
                             else JList []
                | JList _ => resp
                | _ => JList []
                end).
  cbv zeta. fold users. clearbody users.
  destruct (negb (truthy users)); cbn [catch]; [now left |].
  destruct (negb (has_len users)); cbn [catch]; [now left |].
  destruct (iter users) as [l |]; cbn [bind catch]; [| now left].
  destruct (scan_users B inbound_uuid (resolve_target B inbound_uuid)
              (profile_uuids_for_inbound B inbound_uuid) l []) as [found1 |] eqn:H1;
    cbn [bind catch]; [| now left].
  apply scan_users_active in H1; [| constructor].
  destruct (match found1 with
            | [] => legacy_users inbound_uuid (resolve_target B inbound_uuid) l []
            | _ :: _ => Ok found1
            end) as [found2 |] eqn:H2; cbn [bind catch]; [| now left].
  assert (Hf2 : Forall active_user found2).
  { destruct found1; [| now injection H2 as <-].
    apply legacy_users_active in H2; [exact H2 | constructor]. }
  set (found3 := match found2, resolve_target B inbound_uuid with
                 | [], JObj tkv =>
                     if truthy (dict_get tkv "tag" JNull)
                     then tag_users (lower (strip (str (dict_get tkv "tag" JNull)))) l []
                     else found2
                 | _, _ => found2
                 end).
  assert (Hf3 : Forall active_user found3).
  { subst found3. destruct found2; [| exact Hf2].
    destruct (resolve_target B inbound_uuid); try exact Hf2.
    destruct (truthy _); [| exact Hf2]. apply tag_users_active. constructor. }
  clearbody found3.
  destruct found3 as [| x r]; [| now left].
  destruct (profile_uuids_for_inbound B inbound_uuid) as [| p ps] eqn:Hps; [now left |].
  right. apply profile_users_fallback_from; [| constructor].
  intros q pu l' u Hq Hpu Hl' Hu Hd. split; [exact Hd |].
  exists q, pu, l'. rewrite Hps. auto.
Qed.

(** X19. Where the returned users come from: they are all objects, and
    either every one of them is an active user, or the list is the answer
    of the profile-users endpoint for profiles of the index, which is used
    when no other way found a user and is not filtered by status. *)
Theorem resolver_returns_active_or_profile_users (B : backend) (inbound_uuid : string) :
  Forall (fun u => is_dict u = true) (get_inbound_users B inbound_uuid)
  /\ (Forall active_user (get_inbound_users B inbound_uuid)
      \/ Forall (from_profile_users B inbound_uuid) (get_inbound_users B inbound_uuid)).
Proof.
  pose proof (get_inbound_users_sources B inbound_uuid) as H.
  split; [| exact H].
  destruct H as [H | H]; eapply Forall_impl; try exact H.
  - intros u (kv & -> & _). reflexivity.
  - intros u [Hd _]. exact Hd.
Qed.

(** ** The resolver: counts and statistics *)

Lemma count_enabled_bounds (users : list json) :
  Forall (fun u => is_dict u = true) users ->
  exists n, count_enabled users = Ok n /\ 0 <= n <= Z.of_nat (List.length users).
Proof.
  induction 1 as [| u r Hu Hr (n & Hn & Hb)]; cbn [count_enabled].
  - exists 0. split; [reflexivity | cbn; lia].
  - destruct u as [| | | | | kv]; try discriminate Hu.
    cbn [get get_or bind]. rewrite Hn. cbn [bind].
    eexists. split; [reflexivity |].
    cbn [List.length]. destruct (_is_active_status _); lia.
Qed.

(** X20. The statistics of an inbound are consistent with its users: the
    total is the number of users the resolver returns (the count of
    [get_inbound_users_count]), enabled and disabled add up to the total,
    and neither is negative. *)
Theorem stats_are_consistent (B : backend) (inbound_uuid : string) :
  let s := get_inbound_users_stats B inbound_uuid in
  total s = get_inbound_users_count B inbound_uuid
  /\ enabled s + disabled s = total s
  /\ 0 <= enabled s
  /\ 0 <= disabled s.
Proof.
  unfold get_inbound_users_stats, get_inbound_users_count.
  pose proof (get_inbound_users_sources B inbound_uuid) as Hsrc.
  assert (Hd : Forall (fun u => is_dict u = true) (get_inbound_users B inbound_uuid)).
  { destruct Hsrc as [H | H]; eapply Forall_impl; try exact H.
    - intros u (kv & -> & _). reflexivity.
    - intros u [Hd _]. exact Hd. }
  destruct (count_enabled_bounds _ Hd) as (n & Hn & Hb).
  destruct (get_inbound_users B inbound_uuid) as [| u r] eqn:Hu.
  - cbn. lia.
  - rewrite Hn. cbn [bind catch enabled disabled total]. lia.
Qed.

(** ** The resolver: the target and the profile index *)

Lemma find_target_sound (uuid : string) (l : list json) (t : json) :
  find_target uuid l = Ok t ->
  t = JNull
  \/ (In t l /\ exists kv, t = JObj kv /\ str (dict_get kv "uuid" JNull) = uuid).
Proof.
  induction l as [| i r IH]; cbn [find_target]; intros H.
  - injection H as <-. now left.
  - destruct i as [| | | | | kv]; try discriminate H.
    cbn [get get_or bind] in H.
    destruct (String.eqb (str (dict_get kv "uuid" JNull)) uuid) eqn:Hu.
    + injection H as <-. right. split; [now left |].
      exists kv. split; [reflexivity | now apply String.eqb_eq].
    + destruct (IH H) as [-> | [Hin Hkv]]; [now left |].
      right. split; [now right | exact Hkv].
Qed.

(** X21. The resolved target is either unknown (null) or an object of the
    inbound list whose UUID reads as the requested one; a known target is
    matched by the reference test as a reference to itself. *)
Theorem resolved_target_is_the_inbound (B : backend) (inbound_uuid : string) :
  resolve_target B inbound_uuid = JNull
  \/ (exists kv,
        resolve_target B inbound_uuid = JObj kv
        /\ str (dict_get kv "uuid" JNull) = inbound_uuid
        /\ matches_inbound_ref inbound_uuid (resolve_target B inbound_uuid)
                               (resolve_target B inbound_uuid) = true).
Proof.
  unfold resolve_target.
  destruct (get_inbounds B) as [all |]; cbn [bind catch]; [| now left].
  destruct (iter (por all (JList []))) as [l |]; cbn [bind catch]; [| now left].
  destruct (find_target inbound_uuid l) as [t |] eqn:Ht; cbn [catch]; [| now left].
  destruct (find_target_sound _ _ _ Ht) as [-> | [_ (kv & -> & Hu)]]; [now left |].
  right. exists kv. split; [reflexivity |]. split; [exact Hu |].
  cbn [matches_inbound_ref]. rewrite Hu. now rewrite String.eqb_refl.
Qed.

Lemma any_true (f : json -> res bool) (l : list json) :
  any f l = Ok true -> exists x, In x l /\ f x = Ok true.
Proof.
  induction l as [| x r IH]; cbn [any]; [discriminate |].
  destruct (f x) as [b |] eqn:Hx; cbn [bind]; [| discriminate].
  destruct b.
  - intros _. exists x. split; [now left | exact Hx].
  - intros H. destruct (IH H) as (y & Hy & Hfy). exists y. split; [now right | exact Hfy].
Qed.

(** A profile id that belongs in the index: it is a truthy, hashable value
    and the inbounds of the profile hold an object with the requested UUID. *)
Lemma index_profile_sound (B : backend) (uuid : string) (p : json) (acc acc' : list json) :
  index_profile B uuid p acc = Ok acc' ->
  acc' = acc
  \/ (hashable p = true
      /\ (exists pis l kv,
            get_profile_inbounds B p = Ok pis
            /\ iter (por pis (JList [])) = Ok l
            /\ In (JObj kv) l
            /\ dict_get kv "uuid" JNull = JStr uuid)
      /\ (acc' = acc \/ acc' = (acc ++ [p])%list)).
Proof.
  unfold index_profile.
  destruct (get_profile_inbounds B p) as [pis |] eqn:Hp; cbn [bind]; [| discriminate].
  destruct (iter (por pis (JList []))) as [l |] eqn:Hl; cbn [bind]; [| discriminate].
  destruct (any _ l) as [hit |] eqn:Hany; cbn [bind]; [| discriminate].
  destruct hit.
  - unfold set_add, set_mem. destruct (hashable p) eqn:Hh; cbn [bind]; [| discriminate].
    intros H. injection H as <-. right. split; [reflexivity |]. split.
    + destruct (any_true _ _ Hany) as (ib & Hin & Hib).
      destruct ib as [| | | | | kv]; try discriminate Hib.
      cbn [get get_or bind] in Hib. injection Hib as Hib.
      exists pis, l, kv. repeat split; try assumption.
      unfold eq_str in Hib. destruct (dict_get kv "uuid" JNull); try discriminate Hib.
      apply String.eqb_eq in Hib. now subst.
    + destruct (existsb (eq_scalar p) acc); auto.
  - intros H. injection H as <-. now left.
Qed.

Lemma index_profiles_sound (B : backend) (uuid : string) (P : json -> Prop)
    (profiles : list json) :
  (forall p acc acc',
      truthy p = true -> index_profile B uuid p acc = Ok acc' ->
      acc' = acc \/ (P p /\ (acc' = acc \/ acc' = (acc ++ [p])%list))) ->
  forall acc, Forall P acc -> Forall P (index_profiles B uuid profiles acc).
Proof.
  intros Hstep. induction profiles as [| pr r IH]; intros acc Hacc;
    cbn [index_profiles]; [exact Hacc |].
  destruct (u <- get pr "uuid" ;; i <- get pr "id" ;; Ok (por u i)) as [p |];
    [| exact Hacc].
  destruct (truthy p) eqn:Ht; cbn [negb]; [| now apply IH].
  apply IH.
  destruct (index_profile B uuid p acc) as [acc' |] eqn:Hi; cbn [catch]; [| exact Hacc].
  destruct (Hstep p acc acc' Ht Hi) as [-> | [Hp [-> | ->]]]; auto using Forall_snoc.
Qed.

(** X22. The profile index is sound: every profile id it holds is a truthy,
    hashable value for which the backend returned a list of inbounds that
    holds an object whose [uuid] is the requested UUID. Profiles whose
    inbounds could not be fetched or read are left out. *)
Theorem profile_index_is_sound (B : backend) (inbound_uuid : string) (p : json) :
  In p (profile_uuids_for_inbound B inbound_uuid) ->
  truthy p = true
  /\ hashable p = true
  /\ exists pis l kv,
       get_profile_inbounds B p = Ok pis
       /\ iter (por pis (JList [])) = Ok l
       /\ In (JObj kv) l
       /\ dict_get kv "uuid" JNull = JStr inbound_uuid.
Proof.
  set (P := fun p : json =>
              truthy p = true /\ hashable p = true
              /\ exists pis l kv,
                   get_profile_inbounds B p = Ok pis
                   /\ iter (por pis (JList [])) = Ok l
                   /\ In (JObj kv) l
                   /\ dict_get kv "uuid" JNull = JStr inbound_uuid).
  assert (H : Forall P (profile_uuids_for_inbound B inbound_uuid)).
  { unfold profile_uuids_for_inbound.
    destruct (profiles <- get_profiles B ;; iter (por profiles (JList []))) as [l |];
      [| constructor].
    apply index_profiles_sound; [| constructor].
    intros q acc acc' Ht Hi.
    destruct (index_profile_sound _ _ _ _ _ Hi) as [-> | (Hh & Hex & Hacc)];
      [now left |].
    right. split; [| exact Hacc]. unfold P. auto. }
  intros Hin. rewrite Forall_forall in H. exact (H p Hin).
Qed.

Lemma profile_index_is_sound_witness :
  truthy (JStr "P1") = true /\ hashable (JStr "P1") = true.
Proof.
  destruct (profile_index_is_sound Scenario.resolver_backend "I1" (JStr "P1"))
    as (H1 & H2 & _).
  - vm_compute. auto.
  - split; assumption.
Defined.

(** ** The online count: bounds *)

Lemma count_online_bounds (f : string -> res datetime) (clock : nat -> Z)
    (users : list json) :
  forall k c n,
    count_online f clock k users c = Ok n ->
    c <= n <= c + Z.of_nat (List.length users).
Proof.
  induction users as [| u r IH]; intros k c n H; cbn [count_online] in H.
  - injection H as <-. cbn. lia.
  - destruct (get u "status") as [st |]; cbn [bind] in H; [| discriminate H].
    cbn [List.length].
    destruct (negb (_is_active_status st)).
    + apply IH in H. lia.
    + destruct (get u "onlineAt") as [o |]; cbn [bind] in H; [| discriminate H].
      destruct (_is_recent (clock k) (_parse_dt f o) 5); apply IH in H; lia.
Qed.

(** X23. The online count is never negative and never more than the number
    of users the backend listed; it is zero when the users cannot be fetched
    or the answer is neither a list nor an object with [users]. *)
Theorem online_count_bounds (fromisoformat : string -> res datetime)
    (B : backend) (clock : nat -> Z) :
  0 <= get_inbound_online_count fromisoformat B clock
  /\ (forall users,
        get_all_users B = Ok (JList users) ->
        get_inbound_online_count fromisoformat B clock <= Z.of_nat (List.length users))
  /\ (get_all_users B = Raise -> get_inbound_online_count fromisoformat B clock = 0)
  /\ (forall v,
        get_all_users B = Ok v -> is_list v = false -> is_dict v = false ->
        get_inbound_online_count fromisoformat B clock = 0).
Proof.
  unfold get_inbound_online_count. split; [| split; [| split]].
  - destruct (get_all_users B) as [resp |]; cbn [bind catch]; [| lia].
    match goal with |- context [negb (truthy ?u)] => set (all_users := u) end.
    clearbody all_users.
    destruct (negb (truthy all_users)); cbn [catch]; [lia |].
    destruct (iter all_users) as [l |]; cbn [bind catch]; [| lia].
    destruct (count_online fromisoformat clock 0 l 0) as [n |] eqn:Hn;
      cbn [bind catch]; [| lia].
    apply count_online_bounds in Hn. destruct (has_len all_users); cbn [catch]; lia.
  - intros users ->. cbn [bind].
    destruct (negb (truthy (JList users))); cbn [catch]; [lia |].
    cbn [iter bind has_len].
    destruct (count_online fromisoformat clock 0 users 0) as [n |] eqn:Hn;
      cbn [bind catch]; [| lia].
    apply count_online_bounds in Hn. lia.
  - now intros ->.
  - intros v -> Hl Hd. destruct v; try reflexivity; discriminate.
Qed.

(** ** The resolver: users bound by a subscription *)

Lemma scan_user_direct (B : backend) (uuid : string) (t : json) (ps : list json)
    (kv skv : list (string * json)) (refs acc acc' : list json) :
  _is_active_status (dict_get kv "status" JNull) = true ->
  dict_get kv "subscription" JNull = JObj skv ->
  skv <> [] ->
  dict_get skv "inbounds" JNull = JList refs ->
  existsb (fun si => matches_inbound_ref uuid si t) refs = true ->
  scan_user B uuid t ps (JObj kv) acc = Ok acc' ->
  In (JObj kv) acc'.
Proof.
  intros Hact Hsub Hne Hrefs Hmatch.
  unfold scan_user. cbn [get get_or bind]. rewrite Hact. cbn [negb]. cbv zeta.
  assert (Hdirect :
            existsb (fun sub => catch (sub_has_inbound uuid t sub) false)
              (subscription_items_of (dict_get kv "subscription" JNull)
                 (if is_list (dict_get kv "subscriptions" JNull)
                  then dict_get kv "subscriptions" JNull else JNull)) = true).
  { rewrite Hsub. unfold subscription_items_of.
    replace (truthy (JObj skv)) with true by (destruct skv; [now contradiction Hne | reflexivity]).
    cbn [is_dict andb app existsb]. unfold sub_has_inbound at 1.
    cbn [get get_or bind]. rewrite Hrefs.
    replace (por (JList refs) (JList [])) with (JList refs)
      by (destruct refs; [discriminate Hmatch | reflexivity]).
    cbn [catch]. now rewrite Hmatch. }
  rewrite Hdirect.
  match goal with |- context [negb (truthy ?c)] => set (cpu := c) end.
  clearbody cpu.
  assert (Hin : In (JObj kv) (acc ++ [JObj kv])) by (apply in_or_app; right; now left).
  destruct (negb (truthy cpu)).
  { intros H. now injection H as <-. }
  destruct (match ps with [] => Ok false | _ :: _ => set_mem cpu ps end)
    as [fast |]; cbn [bind]; [| discriminate].
  destruct fast.
  { intros H. injection H as <-. apply in_or_app. now left. }
  intros H. injection H as <-.
  destruct (get_profile_inbounds B (JStr (str cpu))) as [pis |]; cbn [bind catch];
    [| exact Hin].
  destruct (iter (por pis (JList []))) as [l |]; cbn [bind catch]; [| exact Hin].
  destruct (existsb (fun pi => matches_inbound_ref uuid pi t) l); [| exact Hin].
  apply in_or_app. now left.
Qed.

Lemma scan_users_keep (B : backend) (uuid : string) (t : json) (ps users : list json)
    (x : json) :
  forall acc acc',
    In x acc -> scan_users B uuid t ps users acc = Ok acc' -> In x acc'.
Proof.
  induction users as [| u r IH]; intros acc acc' Hx H; cbn [scan_users] in H.
  - now injection H as <-.
  - destruct (scan_user B uuid t ps u acc) as [acc1 |] eqn:Hu; cbn [bind] in H;
      [| discriminate H].
    apply (IH acc1 acc'); [| exact H].
    destruct (scan_user_grows _ _ _ _ _ _ _ Hu) as [-> | [_ [-> | ->]]];
      auto using in_or_app.
Qed.

(** X24. A user bound to the inbound by a subscription is found: when the
    query does not fail, an active user of the users list whose
    [subscription] object lists a reference that matches the target is among
    the users returned. *)
Theorem subscription_bound_user_is_returned (B : backend) (inbound_uuid : string)
    (users result : list json) (kv skv : list (string * json)) (refs : list json) :
  get_all_users B = Ok (JList users) ->
  get_inbound_users_body B inbound_uuid = Ok result ->
  In (JObj kv) users ->
  _is_active_status (dict_get kv "status" JNull) = true ->
  dict_get kv "subscription" JNull = JObj skv ->
  skv <> [] ->
  dict_get skv "inbounds" JNull = JList refs ->
  existsb (fun si => matches_inbound_ref inbound_uuid si (resolve_target B inbound_uuid))
          refs = true ->
  In (JObj kv) result /\ get_inbound_users B inbound_uuid = result.
Proof.
  intros Hall Hbody Hin Hact Hsub Hne Hrefs Hmatch.
  split; [| unfold get_inbound_users; now rewrite Hbody].
  unfold get_inbound_users_body in Hbody. rewrite Hall in Hbody. cbn [bind] in Hbody.
  replace (truthy (JList users)) with true in Hbody
    by (destruct users; [destruct Hin | reflexivity]).
  cbn [negb has_len iter bind] in Hbody.
  destruct (scan_users B inbound_uuid (resolve_target B inbound_uuid)
              (profile_uuids_for_inbound B inbound_uuid) users []) as [found |] eqn:Hscan;
    cbn [bind] in Hbody; [| discriminate Hbody].
  assert (Hfound : In (JObj kv) found).
  { clear Hbody Hall. revert Hscan. generalize (@nil json).
    induction users as [| u r IH]; intros acc Hscan; [destruct Hin |].
    cbn [scan_users] in Hscan.
    destruct (scan_user B inbound_uuid (resolve_target B inbound_uuid)
                (profile_uuids_for_inbound B inbound_uuid) u acc) as [acc1 |] eqn:Hu;
      cbn [bind] in Hscan; [| discriminate Hscan].
    destruct Hin as [-> | Hin].
    - eapply scan_users_keep; [| exact Hscan].
      eapply scan_user_direct; eauto.
    - now apply (IH Hin acc1). }
  destruct found as [| x r]; [destruct Hfound |].
  cbn [bind] in Hbody. injection Hbody as <-. exact Hfound.
Qed.

Lemma subscription_bound_user_is_returned_witness :
  In Scenario.U2 (get_inbound_users Scenario.resolver_backend "I1").
Proof.
  destruct (subscription_bound_user_is_returned Scenario.resolver_backend "I1"
              [Scenario.U1; Scenario.U2; Scenario.U3] [Scenario.U2]
              [("uuid", JStr "U2"); ("username", JStr "u2"); ("status", JStr "ACTIVE");
               ("subscription", JObj [("inbounds", JList [JObj [("uuid", JStr "I1")]])])]
              [("inbounds", JList [JObj [("uuid", JStr "I1")]])]
              [JObj [("uuid", JStr "I1")]]) as [Hin Heq];
    try reflexivity.
  - cbn. auto.
  - discriminate.
  - rewrite Heq. exact Hin.
Defined.
